(** * BayScan scoring and learning engine: a shallow embedding

  The development follows the Python sources of the repository:

  - [app/models/schemas.py]                       (the row modules and [DB])
  - [app/services/rig_learning_service.py]        (module [RigLearning])
  - [app/services/condition_learning_service.py]  (module [ConditionLearning])
  - [app/services/confidence_scoring.py]          (module [Confidence])
  - [app/rules/species_tiers.py]                  (module [SpeciesTiers])
  - [app/rules/uglyfishing_calendar.py]           (module [Calendar])
  - [app/rules/species_behavior_profiles.py],
    [app/services/hyperlocal_scoring.py]          (module [Hyperlocal])
  - [app/services/score_cache_service.py]         (module [ScoreCache])
  - [app/services/tip_generation_service.py]      (module [Tips])
  - [app/services/tide_service.py]                (module [TideService])
  - [app/main.py], endpoints [log_catch], [delete_catch], [log_predator]
    and [get_zone_bite_scores]                    (module [Main])
  - [app/scheduler.py]                            (module [Scheduler])

  Conventions.  Python [float] values are read as real numbers, Python
  [int] values as [Z], [str] as [string] (ASCII), [None]-able values as
  [option].  A [datetime] is the number of microseconds since the epoch,
  a [timedelta] a number of microseconds.  A table of the SQLite database
  is the list of its rows in insertion order, so that [.first()] is
  [List.find].  A Python [set] is a [gset].

  What the engine reads from outside these tables (the clock, the tide
  state, the latest snapshot, the raw score of the rule tables, the wording
  of a tip) and whether a step of the session raises are fields of [Env]. *)

From Stdlib Require Import ZArith List String Ascii Bool Reals Lra Lia.
From stdpp Require Import gmap strings.
Import ListNotations.

Local Open Scope string_scope.
Local Open Scope Z_scope.

(** ** Python primitives *)

Module Py.

(** [c.lower()] on one ASCII character. *)
Definition lower_ascii (c : ascii) : ascii :=
  let n := nat_of_ascii c in
  if (Nat.leb 65 n && Nat.leb n 90)%bool then ascii_of_nat (n + 32) else c.

(** [c.upper()] on one ASCII character. *)
Definition upper_ascii (c : ascii) : ascii :=
  let n := nat_of_ascii c in
  if (Nat.leb 97 n && Nat.leb n 122)%bool then ascii_of_nat (n - 32) else c.

Fixpoint map_string (f : ascii -> ascii) (s : string) : string :=
  match s with
  | EmptyString => EmptyString
  | String c s' => String (f c) (map_string f s')
  end.

(** [s.lower()] and [s.upper()]. *)
Definition lower (s : string) : string := map_string lower_ascii s.
Definition upper (s : string) : string := map_string upper_ascii s.

(** [sub in s] for two strings. *)
Fixpoint contains (sub s : string) : bool :=
  (String.prefix sub s ||
   match s with
   | EmptyString => false
   | String _ s' => contains sub s'
   end)%bool.

(** Truthiness of an optional string: [None] and [''] are falsy. *)
Definition truthy (o : option string) : bool :=
  match o with
  | None => false
  | Some s => negb (String.eqb s "")
  end.

(** [math.log x]: raises [ValueError] outside the positive reals. *)
Definition math_log (x : R) : option R :=
  if Rlt_dec 0 x then Some (ln x) else None.

(** The largest finite [float]. *)
Definition float_max : R := ((2 - / 2 ^ 52) * 2 ^ 1023)%R.

(** [x ** y] for a positive [float] [x]: raises [OverflowError] when the
    result is beyond the largest finite [float]. *)
Definition float_pow (x y : R) : option R :=
  if Rle_dec (Rpower x y) float_max then Some (Rpower x y) else None.

(** [x in l] for a list of strings. *)
Definition str_in (x : string) (l : list string) : bool :=
  existsb (String.eqb x) l.

End Py.

(** ** Exceptions and the session monad *)

Inductive exn : Type :=
| ValueError (msg : string)     (* math domain error *)
| DatabaseError (msg : string). (* a query, flush or commit failed *)

Inductive result (A : Type) : Type :=
| Ok (a : A)
| Raised (e : exn).
Arguments Ok {A} a.
Arguments Raised {A} e.

(** ** Rows of the tables: [app/models/schemas.py]

    Only the columns the scoring and learning engine reads or writes are
    kept; the remaining columns of [Catch] (size, notes, the copied weather
    readings) are carried along by the code without being inspected. *)

Module Catch.
Record t : Type := mk {
  id : Z;
  timestamp : Z;
  species : string;
  zone_id : string;
  quantity : Z;
  presentation : option string;
  rig_type : option string;
  tide_stage : option string;
  wind_direction : option string;
  current_speed : option R
}.
End Catch.

Module BaitLog.
Record t : Type := mk {
  timestamp : Z;
  bait_species : string;
  zone_id : string
}.
End BaitLog.

Module PredatorLog.
Record t : Type := mk {
  time : Z;
  predator : string;
  zone : string
}.
End PredatorLog.

Module RigEffect.
Record t : Type := mk {
  species : string;
  zone_id : string;
  rig_type : string;
  success_count : Z;
  weight : R;
  last_used : option Z
}.
End RigEffect.

(** [success_count] of the two condition tables is declared [Integer] and
    receives [float] increments (0.15 for crab traps); SQLite keeps such a
    value as it is, so the count is a real number here. *)
Module ZoneConditionEffect.
Record t : Type := mk {
  species : string;
  zone_id : string;
  tide_band : string;
  clarity_band : string;
  wind_band : string;
  current_band : string;
  success_count : R;
  weight : R
}.
End ZoneConditionEffect.

Module RigConditionEffect.
Record t : Type := mk {
  species : string;
  rig_type : string;
  tide_band : string;
  clarity_band : string;
  success_count : R;
  weight : R
}.
End RigConditionEffect.

Module BiteScore.
Record t : Type := mk {
  species : string;
  zone_id : string;
  score : R;
  rating : string;
  confidence : string;
  last_updated : Z
}.
End BiteScore.

Module SpeciesZoneTip.
Record t : Type := mk {
  species : string;
  zone_id : string;
  tip_text : string;
  last_updated : Z
}.
End SpeciesZoneTip.

(** The committed state of the database. *)
Record DB : Type := mkDB {
  catches : list Catch.t;
  bait_logs : list BaitLog.t;
  predator_logs : list PredatorLog.t;
  rig_effects : list RigEffect.t;
  zone_condition_effects : list ZoneConditionEffect.t;
  rig_condition_effects : list RigConditionEffect.t;
  bite_scores : list BiteScore.t;
  species_zone_tips : list SpeciesZoneTip.t
}.

Definition empty_db : DB := mkDB [] [] [] [] [] [] [] [].

Definition set_catches (db : DB) (l : list Catch.t) : DB :=
  mkDB l (bait_logs db) (predator_logs db) (rig_effects db)
       (zone_condition_effects db) (rig_condition_effects db)
       (bite_scores db) (species_zone_tips db).

Definition set_rig_effects (db : DB) (l : list RigEffect.t) : DB :=
  mkDB (catches db) (bait_logs db) (predator_logs db) l
       (zone_condition_effects db) (rig_condition_effects db)
       (bite_scores db) (species_zone_tips db).

Definition set_zone_condition_effects (db : DB) (l : list ZoneConditionEffect.t) : DB :=
  mkDB (catches db) (bait_logs db) (predator_logs db) (rig_effects db)
       l (rig_condition_effects db) (bite_scores db) (species_zone_tips db).

Definition set_rig_condition_effects (db : DB) (l : list RigConditionEffect.t) : DB :=
  mkDB (catches db) (bait_logs db) (predator_logs db) (rig_effects db)
       (zone_condition_effects db) l (bite_scores db) (species_zone_tips db).

Definition set_bite_scores (db : DB) (l : list BiteScore.t) : DB :=
  mkDB (catches db) (bait_logs db) (predator_logs db) (rig_effects db)
       (zone_condition_effects db) (rig_condition_effects db)
       l (species_zone_tips db).

Definition set_species_zone_tips (db : DB) (l : list SpeciesZoneTip.t) : DB :=
  mkDB (catches db) (bait_logs db) (predator_logs db) (rig_effects db)
       (zone_condition_effects db) (rig_condition_effects db)
       (bite_scores db) l.

(** Writing a row back: the first row selected by [key] is the one the
    query returned, so it is the one the session updates; a new row is
    appended. *)
Fixpoint replace_first {A : Type} (key : A -> bool) (row : A) (tbl : list A) : list A :=
  match tbl with
  | [] => []
  | x :: tbl' => if key x then row :: tbl' else x :: replace_first key row tbl'
  end.

Definition store {A : Type} (key : A -> bool) (row : A) (tbl : list A) : list A :=
  match find key tbl with
  | Some _ => replace_first key row tbl
  | None => tbl ++ [row]
  end.

(** [db.delete(existing)] for the first row selected by [key]. *)
Fixpoint delete_first {A : Type} (key : A -> bool) (tbl : list A) : list A :=
  match tbl with
  | [] => []
  | x :: tbl' => if key x then tbl' else x :: delete_first key tbl'
  end.

(** A computation on a session: it leaves the committed state and either
    returns or raises.  A function that raises has rolled its own pending
    changes back, so the state it leaves is the last committed one. *)
Definition M (A : Type) : Type := DB -> DB * result A.

Definition ret {A : Type} (a : A) : M A := fun db => (db, Ok a).

Definition raise {A : Type} (e : exn) : M A := fun db => (db, Raised e).

Definition bind {A B : Type} (m : M A) (k : A -> M B) : M B :=
  fun db =>
    match m db with
    | (db', Ok a) => k a db'
    | (db', Raised e) => (db', Raised e)
    end.

Notation "x <- m ;; k" := (bind m (fun x => k))
  (at level 100, m at next level, right associativity).
Notation "m ;;; k" := (bind m (fun _ => k))
  (at level 100, right associativity).

(** [if cond: body] for a body run for its effect. *)
Definition when (cond : bool) (body : M unit) : M unit :=
  if cond then body else ret tt.

(** [try: body  except Exception as e: logger.error(...)]. *)
Definition try_except_log {A : Type} (body : M A) : M unit :=
  fun db => match body db with (db', _) => (db', Ok tt) end.

(** Forgetting the value a call returns. *)
Definition ignore {A : Type} (m : M A) : M unit :=
  _ <- m ;; ret tt.

(** ** [rig_learning_service.py] *)

Module RigLearning.

Definition same_rig (species zone_id rig_type : string) (r : RigEffect.t) : bool :=
  (String.eqb (RigEffect.species r) species
   && String.eqb (RigEffect.zone_id r) zone_id
   && String.eqb (RigEffect.rig_type r) rig_type)%bool.

(** The body of the [try] block of [update_rig_effect], on the table. *)
Definition rig_effect_upsert (now : Z) (species zone_id rig_type : string)
    (tbl : list RigEffect.t) : result (list RigEffect.t * RigEffect.t) :=
  let rig_effect :=
    match find (same_rig species zone_id rig_type) tbl with
    | Some r =>
        RigEffect.mk (RigEffect.species r) (RigEffect.zone_id r) (RigEffect.rig_type r)
                     (RigEffect.success_count r + 1) (RigEffect.weight r) (Some now)
    | None => RigEffect.mk species zone_id rig_type 1 0%R (Some now)
    end in
  match Py.math_log (IZR (RigEffect.success_count rig_effect + 1)) with
  | None => Raised (ValueError "math domain error")
  | Some l =>
      let rig_effect' :=
        RigEffect.mk (RigEffect.species rig_effect) (RigEffect.zone_id rig_effect)
                     (RigEffect.rig_type rig_effect) (RigEffect.success_count rig_effect)
                     (Rmin 3 l) (RigEffect.last_used rig_effect) in
      Ok (store (same_rig species zone_id rig_type) rig_effect' tbl, rig_effect')
  end.

(** [update_rig_effect(db, species, zone_id, rig_type)].  [db_fails] tells
    whether the session raises inside the [try] block (on the query, the
    flush or the commit); the function then rolls back and re-raises. *)
Definition update_rig_effect (db_fails : bool) (now : Z) (species zone_id : string)
    (rig_type : option string) : M (option RigEffect.t) :=
  fun db =>
    match rig_type with
    | None => (db, Ok None)
    | Some rig =>
        if (String.eqb rig "" || String.eqb rig "unknown")%bool then (db, Ok None)
        else if db_fails then (db, Raised (DatabaseError "rig_effects"))
        else
          match rig_effect_upsert now species zone_id rig (rig_effects db) with
          | Ok (tbl, row) => (set_rig_effects db tbl, Ok (Some row))
          | Raised e => (db, Raised e)
          end
    end.

(** [get_rig_weight(db, species, zone_id, rig_type)]. *)
Definition get_rig_weight (db : DB) (species zone_id rig_type : string) : R :=
  match find (same_rig species zone_id rig_type) (rig_effects db) with
  | Some rig_effect => RigEffect.weight rig_effect
  | None => 0%R
  end.

(** [.order_by(RigEffect.weight.desc()).first()].  Among rows of equal
    weight the database is free to return any; the first of them in table
    order is taken here. *)
Definition heaviest (rows : list RigEffect.t) : option RigEffect.t :=
  fold_left (fun best r =>
               match best with
               | None => Some r
               | Some b => if Rlt_dec (RigEffect.weight b) (RigEffect.weight r)
                           then Some r else Some b
               end) rows None.

(** [get_best_rig_for_zone(db, species, zone_id, min_uses)]. *)
Definition get_best_rig_for_zone (db : DB) (species zone_id : string) (min_uses : Z)
    : option string :=
  let rows :=
    List.filter (fun r => (String.eqb (RigEffect.species r) species
                           && String.eqb (RigEffect.zone_id r) zone_id
                           && (min_uses <=? RigEffect.success_count r))%bool)
                (rig_effects db) in
  option_map RigEffect.rig_type (heaviest rows).

End RigLearning.

(** ** [condition_learning_service.py] *)

Module ConditionLearning.

Definition classify_tide (tide_stage : option string) : string :=
  if negb (Py.truthy tide_stage) then "unknown"
  else
    let tide_lower := Py.lower (default "" tide_stage) in
    if (Py.contains "incoming" tide_lower || Py.contains "rising" tide_lower)%bool
    then "incoming"
    else if (Py.contains "outgoing" tide_lower || Py.contains "falling" tide_lower)%bool
    then "outgoing"
    else if (Py.contains "slack" tide_lower || Py.contains "high" tide_lower
             || Py.contains "low" tide_lower)%bool
    then "slack"
    else "unknown".

Definition classify_clarity (clarity : option string) : string :=
  if negb (Py.truthy clarity) then "clean"
  else
    let clarity_lower := Py.lower (default "" clarity) in
    if (Py.contains "muddy" clarity_lower || Py.contains "dirty" clarity_lower)%bool
    then "muddy"
    else if (Py.contains "stained" clarity_lower || Py.contains "off" clarity_lower)%bool
    then "stained"
    else "clean".

(** [profile.get('wind_preferences', {})] as the pair of its
    ['favorable'] and ['unfavorable'] lists.  No entry of
    [SPECIES_PROFILES] carries the key ['wind_preferences'] (the profiles
    store their wind data under ['wind']), so the lookup yields the empty
    default for every species. *)
Definition wind_preferences (species : string) : option (list string * list string) :=
  None.

Definition classify_wind (wind_direction : option string) (species : string) : string :=
  if negb (Py.truthy wind_direction) then "neutral"
  else
    match wind_preferences species with
    | None => "neutral"
    | Some (favorable, unfavorable) =>
        let wind_upper := Py.upper (default "" wind_direction) in
        if existsb (fun fav => Py.contains (Py.upper fav) wind_upper) favorable
        then "favorable"
        else if existsb (fun unfav => Py.contains (Py.upper unfav) wind_upper) unfavorable
        then "unfavorable"
        else "neutral"
    end.

Definition classify_current (current_speed : option R) : string :=
  match current_speed with
  | None => "low"
  | Some v =>
      if Rle_dec v 0 then "low"
      else if Rlt_dec v 0.3 then "low"
      else if Rlt_dec v 0.6 then "medium"
      else "high"
  end.

Definition same_zone_condition (species zone_id tide_band clarity_band wind_band current_band : string)
    (r : ZoneConditionEffect.t) : bool :=
  (String.eqb (ZoneConditionEffect.species r) species
   && String.eqb (ZoneConditionEffect.zone_id r) zone_id
   && String.eqb (ZoneConditionEffect.tide_band r) tide_band
   && String.eqb (ZoneConditionEffect.clarity_band r) clarity_band
   && String.eqb (ZoneConditionEffect.wind_band r) wind_band
   && String.eqb (ZoneConditionEffect.current_band r) current_band)%bool.

Definition same_rig_condition (species rig_type tide_band clarity_band : string)
    (r : RigConditionEffect.t) : bool :=
  (String.eqb (RigConditionEffect.species r) species
   && String.eqb (RigConditionEffect.rig_type r) rig_type
   && String.eqb (RigConditionEffect.tide_band r) tide_band
   && String.eqb (RigConditionEffect.clarity_band r) clarity_band)%bool.

(** The [conditions] dictionary handed to the two updaters. *)
Record conditions : Type := mkConditions {
  cond_tide_stage : option string;
  cond_clarity : option string;
  cond_wind_direction : option string;
  cond_current_speed : option R
}.

Definition zone_condition_upsert (species zone_id tide_band clarity_band wind_band current_band : string)
    (weight_multiplier : R) (tbl : list ZoneConditionEffect.t)
    : result (list ZoneConditionEffect.t * ZoneConditionEffect.t) :=
  let key := same_zone_condition species zone_id tide_band clarity_band wind_band current_band in
  let zce :=
    match find key tbl with
    | Some r =>
        ZoneConditionEffect.mk
          (ZoneConditionEffect.species r) (ZoneConditionEffect.zone_id r)
          (ZoneConditionEffect.tide_band r) (ZoneConditionEffect.clarity_band r)
          (ZoneConditionEffect.wind_band r) (ZoneConditionEffect.current_band r)
          (ZoneConditionEffect.success_count r + weight_multiplier)%R
          (ZoneConditionEffect.weight r)
    | None =>
        ZoneConditionEffect.mk species zone_id tide_band clarity_band wind_band current_band
                               weight_multiplier 0%R
    end in
  match Py.math_log (ZoneConditionEffect.success_count zce + 1)%R with
  | None => Raised (ValueError "math domain error")
  | Some l =>
      let zce' :=
        ZoneConditionEffect.mk
          (ZoneConditionEffect.species zce) (ZoneConditionEffect.zone_id zce)
          (ZoneConditionEffect.tide_band zce) (ZoneConditionEffect.clarity_band zce)
          (ZoneConditionEffect.wind_band zce) (ZoneConditionEffect.current_band zce)
          (ZoneConditionEffect.success_count zce) (Rmin 4 l) in
      Ok (store key zce' tbl, zce')
  end.

Definition update_zone_condition_effect (db_fails : bool) (species zone_id : string)
    (c : conditions) (weight_multiplier : R) : M (option ZoneConditionEffect.t) :=
  fun db =>
    let tide_band := classify_tide (cond_tide_stage c) in
    let clarity_band := classify_clarity (cond_clarity c) in
    let wind_band := classify_wind (cond_wind_direction c) species in
    let current_band := classify_current (cond_current_speed c) in
    if String.eqb tide_band "unknown" then (db, Ok None)
    else if db_fails then (db, Raised (DatabaseError "zone_condition_effects"))
    else
      match zone_condition_upsert species zone_id tide_band clarity_band wind_band
              current_band weight_multiplier (zone_condition_effects db) with
      | Ok (tbl, row) => (set_zone_condition_effects db tbl, Ok (Some row))
      | Raised e => (db, Raised e)
      end.

Definition rig_condition_upsert (species rig_type tide_band clarity_band : string)
    (weight_multiplier : R) (tbl : list RigConditionEffect.t)
    : result (list RigConditionEffect.t * RigConditionEffect.t) :=
  let key := same_rig_condition species rig_type tide_band clarity_band in
  let rce :=
    match find key tbl with
    | Some r =>
        RigConditionEffect.mk
          (RigConditionEffect.species r) (RigConditionEffect.rig_type r)
          (RigConditionEffect.tide_band r) (RigConditionEffect.clarity_band r)
          (RigConditionEffect.success_count r + weight_multiplier)%R
          (RigConditionEffect.weight r)
    | None =>
        RigConditionEffect.mk species rig_type tide_band clarity_band weight_multiplier 0%R
    end in
  match Py.math_log (RigConditionEffect.success_count rce + 1)%R with
  | None => Raised (ValueError "math domain error")
  | Some l =>
      let rce' :=
        RigConditionEffect.mk
          (RigConditionEffect.species rce) (RigConditionEffect.rig_type rce)
          (RigConditionEffect.tide_band rce) (RigConditionEffect.clarity_band rce)
          (RigConditionEffect.success_count rce) (Rmin 4 l) in
      Ok (store key rce' tbl, rce')
  end.

Definition update_rig_condition_effect (db_fails : bool) (species : string)
    (rig_type : option string) (c : conditions) (weight_multiplier : R)
    : M (option RigConditionEffect.t) :=
  fun db =>
    match rig_type with
    | None => (db, Ok None)
    | Some rig =>
        if (String.eqb rig "" || String.eqb rig "unknown")%bool then (db, Ok None)
        else
          let tide_band := classify_tide (cond_tide_stage c) in
          let clarity_band := classify_clarity (cond_clarity c) in
          if String.eqb tide_band "unknown" then (db, Ok None)
          else if db_fails then (db, Raised (DatabaseError "rig_condition_effects"))
          else
            match rig_condition_upsert species rig tide_band clarity_band
                    weight_multiplier (rig_condition_effects db) with
            | Ok (tbl, row) => (set_rig_condition_effects db tbl, Ok (Some row))
            | Raised e => (db, Raised e)
            end
    end.

(** [get_zone_condition_weight(db, species, zone_id, conditions)]. *)
Definition get_zone_condition_weight (db : DB) (species zone_id : string) (c : conditions) : R :=
  let tide_band := classify_tide (cond_tide_stage c) in
  let clarity_band := classify_clarity (cond_clarity c) in
  let wind_band := classify_wind (cond_wind_direction c) species in
  let current_band := classify_current (cond_current_speed c) in
  if String.eqb tide_band "unknown" then 0%R
  else
    match find (same_zone_condition species zone_id tide_band clarity_band wind_band
                  current_band) (zone_condition_effects db) with
    | Some zce => ZoneConditionEffect.weight zce
    | None => 0%R
    end.

(** [get_rig_condition_weight(db, species, rig_type, conditions)]. *)
Definition get_rig_condition_weight (db : DB) (species : string) (rig_type : option string)
    (c : conditions) : R :=
  if negb (Py.truthy rig_type) then 0%R
  else
    let tide_band := classify_tide (cond_tide_stage c) in
    let clarity_band := classify_clarity (cond_clarity c) in
    if String.eqb tide_band "unknown" then 0%R
    else
      match find (same_rig_condition species (default "" rig_type) tide_band clarity_band)
                 (rig_condition_effects db) with
      | Some rce => RigConditionEffect.weight rce
      | None => 0%R
      end.

End ConditionLearning.

(** ** Time *)

Definition timedelta_hours (h : Z) : Z := h * 3600000000.

(** [d.total_seconds()]. *)
Definition total_seconds (d : Z) : R := (IZR d / 1000000)%R.

(** [(now - t).total_seconds() / 3600]. *)
Definition hours_ago (now t : Z) : R := (total_seconds (now - t) / 3600)%R.

(** ** [confidence_scoring.py] *)

Module Confidence.

Record t : Type := mk {
  level : string;
  sample_count : Z;
  recent_activity_weight : R
}.

Definition catch_count (species zone_id : string) (tbl : list Catch.t) : Z :=
  Z.of_nat (length (List.filter (fun c => (String.eqb (Catch.species c) species
                                      && String.eqb (Catch.zone_id c) zone_id)%bool) tbl)).

Definition calculate_species_zone_confidence (db_fails : bool) (db : DB)
    (species zone_id : string) : t :=
  if db_fails then mk "LOW" 0 0.3%R
  else
    let count := catch_count species zone_id (catches db) in
    if count <? 10 then mk "LOW" count 0.3%R
    else if count <? 50 then mk "MEDIUM" count 0.6%R
    else mk "HIGH" count 1%R.

End Confidence.

(** ** [species_tiers.py] and [uglyfishing_calendar.py] *)

Module SpeciesTiers.

Definition TIER_1_SPECIES : list string :=
  ["speckled_trout"; "redfish"; "flounder"; "sheepshead"; "black_drum"].

Definition TIER_2_SPECIES : list string :=
  ["croaker"; "white_trout"; "menhaden"; "mullet"; "jack_crevalle"; "blue_crab"].

Definition get_species_tier (species_key : string) : Z :=
  if Py.str_in species_key TIER_1_SPECIES then 1
  else if Py.str_in species_key TIER_2_SPECIES then 2
  else 2.

Definition should_use_full_scoring (species_key : string) : bool :=
  get_species_tier species_key =? 1.

End SpeciesTiers.

Module Calendar.

Definition running_factor_to_baseline (running_factor : R) : R :=
  if Rle_dec running_factor 0 then 0%R
  else if Rle_dec running_factor 0.2 then 20%R
  else if Rle_dec running_factor 0.3 then 30%R
  else if Rle_dec running_factor 0.4 then 40%R
  else if Rle_dec running_factor 0.5 then 50%R
  else if Rle_dec running_factor 0.6 then 60%R
  else if Rle_dec running_factor 0.7 then 70%R
  else if Rle_dec running_factor 0.8 then 80%R
  else if Rle_dec running_factor 0.9 then 85%R
  else 90%R.

Definition baseline_to_rating_label (baseline : R) : string :=
  if Rle_dec baseline 0 then "N/A"
  else if Rle_dec baseline 20 then "Poor"
  else if Rle_dec baseline 40 then "Fair"
  else if Rle_dec baseline 60 then "Good"
  else if Rle_dec baseline 80 then "Great"
  else "Excellent".

End Calendar.

(** ** [species_behavior_profiles.py] and [hyperlocal_scoring.py] *)

Module Hyperlocal.

Definition is_prey_species (species_key : string) : bool :=
  Py.str_in species_key
    ["speckled_trout"; "white_trout"; "menhaden"; "mullet"; "live_shrimp"].

(** The catches of the pair not older than [cutoff]. *)
Definition recent_catches (cutoff : Z) (species zone_id : string) (tbl : list Catch.t)
    : list Catch.t :=
  List.filter (fun c => (String.eqb (Catch.species c) species
                    && String.eqb (Catch.zone_id c) zone_id
                    && (cutoff <=? Catch.timestamp c))%bool) tbl.

(** One turn of the loop over the recent catches; [None] when
    [0.75 ** hours_ago] raises [OverflowError], as it does for a catch dated
    far enough ahead of the clock. *)
Definition add_catch (now : Z) (score : R) (c : Catch.t) : option R :=
  match Py.float_pow 0.75 (hours_ago now (Catch.timestamp c)) with
  | Some decay_factor => Some (score + 4 * decay_factor * IZR (Catch.quantity c))%R
  | None => None
  end.

(** The loop: the first turn that raises ends it. *)
Definition sum_catches (now : Z) (recent : list Catch.t) (score : R) : option R :=
  fold_left (fun acc c => match acc with
                          | Some score => add_catch now score c
                          | None => None
                          end) recent (Some score).

(** [calculate_recent_activity_modifier(db, species, zone_id, confidence)].
    Its [except Exception] answers 0.0 for a failing session and for the
    [OverflowError] of the loop alike. *)
Definition calculate_recent_activity_modifier (db_fails : bool) (now : Z) (db : DB)
    (species zone_id : string) (confidence : Confidence.t) : R :=
  if db_fails then 0%R
  else
    let cutoff := now - timedelta_hours 6 in
    match sum_catches now (recent_catches cutoff species zone_id (catches db)) 0%R with
    | None => 0%R
    | Some score =>
        let score := (score * Confidence.recent_activity_weight confidence)%R in
        Rmin 10 score
    end.

Definition recent_predators (cutoff : Z) (zone_id : string) (tbl : list PredatorLog.t)
    : list PredatorLog.t :=
  List.filter (fun p => (String.eqb (PredatorLog.zone p) zone_id
                    && (cutoff <=? PredatorLog.time p))%bool) tbl.

(** [max(l, key=lambda p: p.time)] on a non-empty list: the first row of
    greatest time. *)
Definition max_by_time (p : PredatorLog.t) (l : list PredatorLog.t) : PredatorLog.t :=
  fold_left (fun best q => if PredatorLog.time best <? PredatorLog.time q then q else best) l p.

Definition calculate_predator_modifier (db_fails : bool) (now : Z) (db : DB)
    (species zone_id : string) : R :=
  if negb (is_prey_species species) then 0%R
  else if db_fails then 0%R
  else
    let cutoff := now - timedelta_hours 4 in
    match recent_predators cutoff zone_id (predator_logs db) with
    | [] => 0%R
    | p :: l =>
        let most_recent := max_by_time p l in
        let h := hours_ago now (PredatorLog.time most_recent) in
        (-8 * Rmax 0 (1 - h / 4))%R
    end.


(** [round(x)] on a real number: the nearest integer, the even one of the
    two when they are equally near. *)
Definition round_half_even (x : R) : Z :=
  let n := Int_part x in
  let r := (x - IZR n)%R in
  if Rlt_dec r (1 / 2) then n
  else if Rlt_dec (1 / 2) r then n + 1
  else if Z.even n then n else n + 1.

(** [round(x, 1)]. *)
Definition round1 (x : R) : R := (IZR (round_half_even (x * 10)) / 10)%R.

(** What the helpers that read no table return for the conditions and the
    date of one call. *)
Record helpers : Type := mkHelpers {
  get_seasonal_baseline_score : string -> R;
  calculate_condition_match : string -> R;
  calculate_simple_condition_match : string -> R;
  calculate_structure_match : string -> string -> R;
  calculate_clarity_salinity_modifier : string -> R
}.

Definition calculate_external_indicators_modifier (species : string) : R := 0%R.

(** Which of the three queries of one call raise. *)
Record faults : Type := mkFaults {
  confidence_fails : bool;
  activity_fails : bool;
  predator_fails : bool
}.

(** [calculate_zone_bite_score(db, species, zone_id, conditions, date)]
    ['bite_score']. *)
Definition calculate_zone_bite_score (h : helpers) (f : faults) (now : Z) (db : DB)
    (species zone_id : string) : R :=
  let seasonal_baseline := get_seasonal_baseline_score h species in
  let confidence :=
    Confidence.calculate_species_zone_confidence (confidence_fails f) db species zone_id in
  let final_score :=
    if SpeciesTiers.should_use_full_scoring species then
      let condition_match := calculate_condition_match h species in
      let structure_match := calculate_structure_match h species zone_id in
      let clarity_salinity := calculate_clarity_salinity_modifier h species in
      let recent_activity :=
        calculate_recent_activity_modifier (activity_fails f) now db species zone_id
          confidence in
      let predator_penalty :=
        calculate_predator_modifier (predator_fails f) now db species zone_id in
      let external_indicators := calculate_external_indicators_modifier species in
      (seasonal_baseline + condition_match + structure_match + clarity_salinity
       + recent_activity + predator_penalty + external_indicators)%R
    else
      let condition_match := calculate_simple_condition_match h species in
      let structure_match := calculate_structure_match h species zone_id in
      (seasonal_baseline + condition_match + structure_match)%R in
  let final_score := Rmax 0 (Rmin 100 final_score) in
  round1 final_score.

Definition get_baseline_label (baseline : R) : string :=
  if Rle_dec 85 baseline then "Excellent"
  else if Rle_dec 70 baseline then "Great"
  else if Rle_dec 50 baseline then "Good"
  else if Rle_dec 30 baseline then "Fair"
  else if Rle_dec 15 baseline then "Poor"
  else "N/A".

End Hyperlocal.

(** ** [score_cache_service.py] *)

(** The dictionary [recalculate_bite_score] returns, without its reason
    summary. *)
Module Recalculated.
Record t : Type := mk {
  species : string;
  zone_id : string;
  score : R;
  rating : string;
  confidence : string;
  total_catches : Z;
  raw_score : R
}.
End Recalculated.

Module ScoreCache.

Definition get_smoothing_weight (total_catches : Z) : R :=
  if total_catches <? 10 then (0.4 + IZR total_catches / 100)%R
  else if total_catches <? 50 then (0.2 + IZR (50 - total_catches) / 400)%R
  else (0.1 + IZR (100 - Z.min total_catches 100) / 1000)%R.

Definition get_score_rating (score : R) : string :=
  if Rle_dec score 20 then "Poor"
  else if Rle_dec score 40 then "Fair"
  else if Rle_dec score 60 then "Good"
  else if Rle_dec score 80 then "Great"
  else "Excellent".

Definition get_confidence_level (total_catches : Z) : string :=
  if total_catches <? 10 then "low"
  else if total_catches <? 50 then "medium"
  else "high".

Definition same_pair (species zone_id : string) (b : BiteScore.t) : bool :=
  (String.eqb (BiteScore.species b) species
   && String.eqb (BiteScore.zone_id b) zone_id)%bool.

(** Steps E and the clamp of [recalculate_bite_score]: the score written
    for a pair whose cached row is [old_bite_score]. *)
Definition smoothed_score (old_bite_score : option BiteScore.t) (force_recalc : bool)
    (total_catches : Z) (raw_score : R) : R :=
  let new_score :=
    match old_bite_score with
    | Some old =>
        if negb force_recalc then
          let old_score := BiteScore.score old in
          let w := get_smoothing_weight total_catches in
          (old_score * (1 - w) + raw_score * w)%R
        else raw_score
    | None => raw_score
    end in
  Rmax 0 (Rmin 100 new_score).

(** [recalculate_bite_score(db, species, zone_id, force_recalc)].  The raw
    score is the ['bite_score'] entry of what [calculate_zone_bite_score]
    returns on the current state; the reason summary, a display string
    built from the same result, is not kept in the row modelled here.  The
    row keeps the score as computed; the dictionary returned carries it
    rounded to one decimal. *)
Definition recalculate_bite_score (db_fails : bool) (now : Z)
    (calculate_zone_bite_score : DB -> string -> string -> R)
    (species zone_id : string) (force_recalc : bool) : M Recalculated.t :=
  fun db =>
    if db_fails then (db, Raised (DatabaseError "bite_scores"))
    else
      let total_catches := Confidence.catch_count species zone_id (catches db) in
      let raw_score := calculate_zone_bite_score db species zone_id in
      let old_bite_score := find (same_pair species zone_id) (bite_scores db) in
      let new_score := smoothed_score old_bite_score force_recalc total_catches raw_score in
      let rating := get_score_rating new_score in
      let confidence := get_confidence_level total_catches in
      let row :=
        match old_bite_score with
        | Some old =>
            BiteScore.mk (BiteScore.species old) (BiteScore.zone_id old)
                         new_score rating confidence now
        | None => BiteScore.mk species zone_id new_score rating confidence now
        end in
      (set_bite_scores db (store (same_pair species zone_id) row (bite_scores db)),
       Ok (Recalculated.mk species zone_id (Hyperlocal.round1 new_score) rating confidence
             total_catches (Hyperlocal.round1 raw_score))).

(** [get_cached_bite_score(db, species, zone_id)]: the cached row, whose
    fields the function copies into its result. *)
Definition get_cached_bite_score (db : DB) (species zone_id : string) : option BiteScore.t :=
  find (same_pair species zone_id) (bite_scores db).

End ScoreCache.

(** ** [tip_generation_service.py] *)

Module Tips.

Definition same_tip (species zone_id : string) (t : SpeciesZoneTip.t) : bool :=
  (String.eqb (SpeciesZoneTip.species t) species
   && String.eqb (SpeciesZoneTip.zone_id t) zone_id)%bool.

(** [generate_tip]: no tip without a cached score of at least 50; the
    wording of the sentence is left to [sentence]. *)
Definition generate_tip (sentence : DB -> string -> string -> string) (db : DB)
    (species zone_id : string) : option string :=
  match find (ScoreCache.same_pair species zone_id) (bite_scores db) with
  | None => None
  | Some bite_score =>
      if Rlt_dec (BiteScore.score bite_score) 50 then None
      else Some (sentence db species zone_id)
  end.

Definition update_species_zone_tip (db_fails : bool) (now : Z)
    (sentence : DB -> string -> string -> string)
    (species zone_id : string) : M (option SpeciesZoneTip.t) :=
  fun db =>
    if db_fails then (db, Raised (DatabaseError "species_zone_tips"))
    else
      let tip_text := generate_tip sentence db species zone_id in
      if negb (Py.truthy tip_text) then
        (set_species_zone_tips db
           (delete_first (same_tip species zone_id) (species_zone_tips db)), Ok None)
      else
        let text := default "" tip_text in
        let tip :=
          match find (same_tip species zone_id) (species_zone_tips db) with
          | Some t => SpeciesZoneTip.mk (SpeciesZoneTip.species t) (SpeciesZoneTip.zone_id t) text now
          | None => SpeciesZoneTip.mk species zone_id text now
          end in
        (set_species_zone_tips db
           (store (same_tip species zone_id) tip (species_zone_tips db)), Ok (Some tip)).

(** [get_tip_for_zone(db, species, zone_id)]. *)
Definition get_tip_for_zone (db : DB) (species zone_id : string) : option string :=
  match find (same_tip species zone_id) (species_zone_tips db) with
  | Some tip => Some (SpeciesZoneTip.tip_text tip)
  | None => None
  end.

End Tips.

(** ** [tide_service.py] *)

Module TideData.
Record t : Type := mk {
  timestamp : Z;
  height : R;
  is_prediction : bool
}.
End TideData.

Module TideService.

(** [.order_by(TideData.timestamp.desc()).limit(3).all()[0]]: the row of
    greatest timestamp; among rows of equal timestamp, the last in table
    order (SQLite walks the index on [timestamp] backwards). *)
Definition latest (rows : list TideData.t) : option TideData.t :=
  fold_left (fun best r =>
               match best with
               | None => Some r
               | Some b => if TideData.timestamp b <=? TideData.timestamp r
                           then Some r else Some b
               end) rows None.

(** [.order_by(TideData.timestamp.asc()).limit(3).all()[0]]: the row of
    least timestamp; among rows of equal timestamp, the first in table
    order. *)
Definition earliest (rows : list TideData.t) : option TideData.t :=
  fold_left (fun best r =>
               match best with
               | None => Some r
               | Some b => if TideData.timestamp r <? TideData.timestamp b
                           then Some r else Some b
               end) rows None.

Definition recent_tides (timestamp : Z) (tide_data : list TideData.t) : list TideData.t :=
  List.filter (fun r => (TideData.timestamp r <=? timestamp) && TideData.is_prediction r)%bool
              tide_data.

Definition upcoming_tides (timestamp : Z) (tide_data : list TideData.t) : list TideData.t :=
  List.filter (fun r => (timestamp <=? TideData.timestamp r) && TideData.is_prediction r)%bool
              tide_data.

(** [get_tide_state_for_timestamp(db, timestamp)['tide_stage']]. *)
Definition get_tide_state_for_timestamp (db_fails : bool) (tide_data : list TideData.t)
    (timestamp : Z) : string :=
  if db_fails then "unknown"
  else
    match latest (recent_tides timestamp tide_data),
          earliest (upcoming_tides timestamp tide_data) with
    | None, None => "unknown"
    | Some before, Some after =>
        let height_change := (TideData.height after - TideData.height before)%R in
        if Rlt_dec 0.01 height_change then "incoming"
        else if Rlt_dec height_change (-0.01) then "outgoing"
        else "slack"
    | _, _ => "slack"
    end.

End TideService.

(** ** What a request or a job observes outside the tables above *)

Inductive step : Type :=
| CommitStep        (* db.add / db.commit / db.refresh of the logged event *)
| RigEffectStep
| ZoneConditionStep
| RigConditionStep
| BiteScoreStep
| TipStep.

Record Env : Type := mkEnv {
  utcnow : Z;                                              (* datetime.utcnow() *)
  central_now : Z;                                         (* central_now() *)
  central_to_utc : Z -> Z;
  tide_stage_for_timestamp : Z -> option string;           (* get_tide_state_for_timestamp(..)['tide_stage'] *)
  snapshot_wind_direction : option string;                 (* snapshot_dict.get('wind_direction') *)
  snapshot_current_speed : option R;                       (* snapshot_dict.get('current_speed') *)
  calculate_zone_bite_score : DB -> string -> string -> R; (* ...['bite_score'] *)
  tip_sentence : DB -> string -> string -> string;
  db_fails : step -> string -> string -> bool              (* the session raises in this step for this pair *)
}.

Definition set_predator_logs (db : DB) (l : list PredatorLog.t) : DB :=
  mkDB (catches db) (bait_logs db) l (rig_effects db)
       (zone_condition_effects db) (rig_condition_effects db)
       (bite_scores db) (species_zone_tips db).

(** ** [main.py]: POST /api/catches *)

Module Main.

(** A decoded JSON value of the request body; a date-time string is kept
    as the instant it denotes. *)
Inductive json : Type :=
| JNull
| JString (s : string)
| JInt (z : Z)
| JBool (b : bool)
| JDateTime (t : Z).

(** The fields of [CatchCreate] the endpoint reads for the engine. *)
Record CatchCreate : Type := mkCatchCreate {
  species : string;
  zone_id : string;
  quantity : option Z;
  presentation : option string;
  timestamp : option Z
}.

Definition optional_string (v : option json) : option (option string) :=
  match v with
  | None | Some JNull => Some None
  | Some (JString s) => Some (Some s)
  | Some _ => None
  end.

(** Validation of the body against [CatchCreate]: [species] and [zone_id]
    are required strings, [quantity] defaults to 1, and a key that is not a
    field of the model (the model has no [rig_type] field) is ignored.
    [None] is the 422 answer of the framework.  The validation is modelled
    for values of the JSON type of their field; the framework also converts
    some values of another type (a numeric string or a boolean sent as
    [quantity], a number sent as [timestamp]), which this function refuses:
    such bodies are outside the model. *)
Definition parse_CatchCreate (body : gmap string json) : option CatchCreate :=
  match body !! "species", body !! "zone_id" with
  | Some (JString sp), Some (JString zn) =>
      match (match body !! "quantity" with
             | None => Some (Some 1)
             | Some JNull => Some None
             | Some (JInt q) => Some (Some q)
             | Some _ => None
             end),
            optional_string (body !! "presentation"),
            (match body !! "timestamp" with
             | None | Some JNull => Some None
             | Some (JDateTime t) => Some (Some t)
             | Some _ => None
             end) with
      | Some q, Some pr, Some ts => Some (mkCatchCreate sp zn q pr ts)
      | _, _, _ => None
      end
  | _, _ => None
  end.

Inductive response : Type :=
| Logged (id : Z) (species_key zone_id : string) (timestamp : Z)
| HTTPException (status_code : Z).

(** The row id SQLite gives to an inserted catch. *)
Definition next_id (tbl : list Catch.t) : Z :=
  fold_right (fun c m => Z.max (Catch.id c) m) 0 tbl + 1.

(** [catch_data.quantity or 1]. *)
Definition quantity_or_1 (q : option Z) : Z :=
  match q with
  | None => 1
  | Some z => if z =? 0 then 1 else z
  end.

Definition is_crab_trap (species : string) (rig_type : option string) : bool :=
  (String.eqb species "blue_crab"
   && Py.truthy rig_type
   && (Py.contains "trap" (Py.lower (default "" rig_type))
       || Py.contains "pot" (Py.lower (default "" rig_type))))%bool.

(** The block between EVENT TRIGGERS and END TRIGGERS, without its
    [try]/[except].  The clarity handed to the learners is
    [snapshot_dict.get('clarity', 'clean')]; the snapshot dictionary has no
    such key, so it is the default. *)
Definition event_triggers (env : Env) (catch : Catch.t) (rig_type : option string) : M unit :=
  let sp := Catch.species catch in
  let zn := Catch.zone_id catch in
  let condition_weight := if is_crab_trap sp rig_type then 0.15%R else 1%R in
  when (Py.truthy rig_type)
    (ignore (RigLearning.update_rig_effect (db_fails env RigEffectStep sp zn)
               (utcnow env) sp zn rig_type)) ;;;
  let conditions_for_learning :=
    ConditionLearning.mkConditions (Catch.tide_stage catch) (Some "clean")
      (Catch.wind_direction catch) (Catch.current_speed catch) in
  ignore (ConditionLearning.update_zone_condition_effect
            (db_fails env ZoneConditionStep sp zn) sp zn
            conditions_for_learning condition_weight) ;;;
  when (Py.truthy rig_type)
    (ignore (ConditionLearning.update_rig_condition_effect
               (db_fails env RigConditionStep sp zn) sp rig_type
               conditions_for_learning condition_weight)) ;;;
  ignore (ScoreCache.recalculate_bite_score (db_fails env BiteScoreStep sp zn)
            (utcnow env) (calculate_zone_bite_score env) sp zn false) ;;;
  ignore (Tips.update_species_zone_tip (db_fails env TipStep sp zn)
            (utcnow env) (tip_sentence env) sp zn).

Definition log_catch (env : Env) (catch_data : CatchCreate) (db : DB) : DB * response :=
  let catch_time :=
    match timestamp catch_data with
    | Some t => central_to_utc env t
    | None => central_to_utc env (central_now env)
    end in
  let rig_type := presentation catch_data in
  if db_fails env CommitStep (species catch_data) (zone_id catch_data)
  then (db, HTTPException 500)
  else
    let catch :=
      Catch.mk (next_id (catches db)) catch_time (species catch_data) (zone_id catch_data)
               (quantity_or_1 (quantity catch_data)) (presentation catch_data) rig_type
               (tide_stage_for_timestamp env catch_time)
               (snapshot_wind_direction env) (snapshot_current_speed env) in
    let db1 := set_catches db (catches db ++ [catch]) in
    let (db2, _) := try_except_log (event_triggers env catch rig_type) db1 in
    (db2, Logged (Catch.id catch) (Catch.species catch) (Catch.zone_id catch)
                 (Catch.timestamp catch)).

(** The whole endpoint, from the decoded body. *)
Definition post_catches (env : Env) (body : gmap string json) (db : DB) : DB * response :=
  match parse_CatchCreate body with
  | Some catch_data => log_catch env catch_data db
  | None => (db, HTTPException 422)
  end.

(** The answer of GET /api/zone-bite-scores. *)
Inductive score_response : Type :=
| Score (bite_score : R) (rating confidence : string) (tip : option string)
        (last_updated : Z)
| ScoreError (status_code : Z).

(** [get_zone_bite_scores(species, zone_id)].  The 404 raised when the
    score is still missing after the recompute is raised inside the [try]
    and comes out of its [except Exception] as a 500. *)
Definition get_zone_bite_scores (env : Env) (species zone_id : string) (db : DB)
    : DB * score_response :=
  let answer (d : DB) (cached : BiteScore.t) :=
    Score (BiteScore.score cached) (BiteScore.rating cached) (BiteScore.confidence cached)
          (Tips.get_tip_for_zone d species zone_id) (BiteScore.last_updated cached) in
  match ScoreCache.get_cached_bite_score db species zone_id with
  | Some cached => (db, answer db cached)
  | None =>
      match ScoreCache.recalculate_bite_score (db_fails env BiteScoreStep species zone_id)
              (utcnow env) (calculate_zone_bite_score env) species zone_id false db with
      | (db', Raised _) => (db', ScoreError 500)
      | (db', Ok _) =>
          match ScoreCache.get_cached_bite_score db' species zone_id with
          | Some cached => (db', answer db' cached)
          | None => (db', ScoreError 500)
          end
      end
  end.


(** ** [main.py]: DELETE /api/catches/{catch_id} and POST /api/predator-logs *)

Inductive delete_response : Type :=
| Deleted
| DeleteError (status_code : Z).

(** [delete_catch(catch_id)]; [db_fails]: the session raises. *)
Definition delete_catch (db_fails : bool) (catch_id : Z) (db : DB) : DB * delete_response :=
  if db_fails then (db, DeleteError 500)
  else
    match find (fun c => Catch.id c =? catch_id) (catches db) with
    | None => (db, DeleteError 404)
    | Some _ =>
        (set_catches db (delete_first (fun c => Catch.id c =? catch_id) (catches db)), Deleted)
    end.

(** The fields of [PredatorLogCreate] the engine reads. *)
Record PredatorLogCreate : Type := mkPredatorLogCreate {
  predator : string;
  zone : string;
  time : option Z
}.

Inductive predator_response : Type :=
| PredatorLogged (predator zone : string) (time : Z)
| PredatorError (status_code : Z).

(** The prey list of [log_predator]. *)
Definition prey_species : list string :=
  ["speckled_trout"; "white_trout"; "menhaden"; "mullet"].

(** One turn of the loop over the prey species, with its [try]/[except]. *)
Definition recalc_prey (env : Env) (zone : string) (db : DB) (prey : string) : DB :=
  fst (try_except_log
         (ScoreCache.recalculate_bite_score (db_fails env BiteScoreStep prey zone)
            (utcnow env) (calculate_zone_bite_score env) prey zone false) db).

Definition log_predator (env : Env) (predator_data : PredatorLogCreate) (db : DB)
    : DB * predator_response :=
  let sighting_time :=
    match time predator_data with
    | Some t => central_to_utc env t
    | None => central_to_utc env (central_now env)
    end in
  if db_fails env CommitStep (predator predator_data) (zone predator_data)
  then (db, PredatorError 500)
  else
    let predator_log :=
      PredatorLog.mk sighting_time (predator predator_data) (zone predator_data) in
    let db1 := set_predator_logs db (predator_logs db ++ [predator_log]) in
    let db2 := fold_left (recalc_prey env (PredatorLog.zone predator_log)) prey_species db1 in
    (db2, PredatorLogged (PredatorLog.predator predator_log) (PredatorLog.zone predator_log)
            (PredatorLog.time predator_log)).

End Main.

(** ** [scheduler.py]: the periodic score recalculation *)

Module Scheduler.

Definition TIER_1_SPECIES : list string :=
  ["speckled_trout"; "redfish"; "flounder"; "sheepshead"; "black_drum"].

Definition prey_species : list string :=
  ["speckled_trout"; "white_trout"; "menhaden"; "mullet"].

Definition zones : list string :=
  ["Zone 1"; "Zone 2"; "Zone 3"; "Zone 4"; "Zone 5"].

(** Every pair of a species of [l] with a zone of [zs]. *)
Definition product (l zs : list string) : list (string * string) :=
  flat_map (fun sp => map (fun zone => (sp, zone)) zs) l.

Definition recent_catch_pairs (cutoff : Z) (db : DB) : list (string * string) :=
  remove_dups
    (map (fun c => (Catch.species c, Catch.zone_id c))
         (List.filter (fun c => cutoff <=? Catch.timestamp c) (catches db))).

Definition recent_bait_zones (cutoff : Z) (db : DB) : list string :=
  remove_dups
    (map BaitLog.zone_id (List.filter (fun b => cutoff <=? BaitLog.timestamp b) (bait_logs db))).

Definition recent_predator_zones (cutoff : Z) (db : DB) : list string :=
  remove_dups
    (map PredatorLog.zone (List.filter (fun p => cutoff <=? PredatorLog.time p) (predator_logs db))).

(** The set [pairs_to_recalc] when the loop over it starts. *)
Definition pairs_to_recalc (now : Z) (db : DB) : gset (string * string) :=
  let cutoff := now - timedelta_hours 6 in
  let recent_catches := recent_catch_pairs cutoff db in
  let recent_bait := recent_bait_zones cutoff db in
  let recent_predators := recent_predator_zones cutoff db in
  let pairs : gset (string * string) :=
    list_to_set recent_catches
    ∪ list_to_set (flat_map (fun zone => map (fun prey => (prey, zone)) prey_species)
                            recent_predators) in
  if decide (pairs = ∅) then list_to_set (product TIER_1_SPECIES zones) else pairs.

(** One turn of the loop, with its own [try]/[except]. *)
Definition recalc_pair (env : Env) (pair : string * string) : M unit :=
  let (sp, zone) := pair in
  try_except_log
    (ignore (ScoreCache.recalculate_bite_score (db_fails env BiteScoreStep sp zone)
               (utcnow env) (calculate_zone_bite_score env) sp zone false) ;;;
     ignore (Tips.update_species_zone_tip (db_fails env TipStep sp zone)
               (utcnow env) (tip_sentence env) sp zone)).

Definition periodic_score_recalculation (env : Env) (db : DB) : DB :=
  fold_left (fun d pair => fst (recalc_pair env pair d))
            (elements (pairs_to_recalc (utcnow env) db)) db.

End Scheduler.

(** ** Vocabulary of the properties *)

(** The keywords of the first two branches of [classify_tide]. *)
Definition moving_keyword (tide_lower : string) : bool :=
  (Py.contains "incoming" tide_lower || Py.contains "rising" tide_lower
   || Py.contains "outgoing" tide_lower || Py.contains "falling" tide_lower)%bool.

(** The keywords of its third branch. *)
Definition slack_keyword (tide_lower : string) : bool :=
  (Py.contains "slack" tide_lower || Py.contains "high" tide_lower
   || Py.contains "low" tide_lower)%bool.

(** A pair with fifty logged catches and a cached score of 40. *)
Definition fifty_catches : list Catch.t :=
  map (fun i => Catch.mk (Z.of_nat i) (Z.of_nat i) "speckled_trout" "Zone 3" 1
                         (Some "jig") (Some "jig") (Some "incoming") None None)
      (seq 1 50).

Definition cached_forty : BiteScore.t :=
  BiteScore.mk "speckled_trout" "Zone 3" 40 "Fair" "medium" 0.

Definition db_fifty : DB :=
  mkDB fifty_catches [] [] [] [] [] [cached_forty] [].

(** The weight rule of the three learning tables. *)
Definition rig_effect_ok (r : RigEffect.t) : Prop :=
  RigEffect.weight r = Rmin 3 (ln (IZR (RigEffect.success_count r) + 1)).

Definition zone_condition_ok (r : ZoneConditionEffect.t) : Prop :=
  ZoneConditionEffect.weight r = Rmin 4 (ln (ZoneConditionEffect.success_count r + 1)).

Definition rig_condition_ok (r : RigConditionEffect.t) : Prop :=
  RigConditionEffect.weight r = Rmin 4 (ln (RigConditionEffect.success_count r + 1)).

Definition learning_weights_ok (db : DB) : Prop :=
  Forall rig_effect_ok (rig_effects db)
  /\ Forall zone_condition_ok (zone_condition_effects db)
  /\ Forall rig_condition_ok (rig_condition_effects db).

(** A computation leaves the observation [f] of the state untouched. *)
Definition frames {X A : Type} (f : DB -> X) (m : M A) : Prop :=
  forall db, f (fst (m db)) = f db.

(** A computation keeps the invariant [P] of the state, also when it
    raises. *)
Definition preserves {A : Type} (P : DB -> Prop) (m : M A) : Prop :=
  forall db, P db -> P (fst (m db)).

(** The success count of a rig before an update; a missing row counts 0. *)
Definition prior_count (species zone_id rig_type : string) (tbl : list RigEffect.t) : Z :=
  match find (RigLearning.same_rig species zone_id rig_type) tbl with
  | Some r => RigEffect.success_count r
  | None => 0
  end.

(** An environment in which every step succeeds: the tide is incoming and
    the raw score of every pair is 55. *)
Definition quiet_env : Env :=
  mkEnv 0 0 (fun t => t) (fun _ => Some "incoming") None None
        (fun _ _ _ => 55%R) (fun _ _ _ => "Fish the pilings.") (fun _ _ _ => false).

(** A crab-trap catch as the endpoint receives it. *)
Definition crab_trap_catch : Main.CatchCreate :=
  Main.mkCatchCreate "blue_crab" "Zone 1" (Some 3) (Some "crab_trap") None.

(** The instant [log_catch] stores for a request. *)
Definition catch_time (env : Env) (catch_data : Main.CatchCreate) : Z :=
  match Main.timestamp catch_data with
  | Some t => central_to_utc env t
  | None => central_to_utc env (central_now env)
  end.

(** The row [log_catch] adds for a request. *)
Definition new_catch (env : Env) (catch_data : Main.CatchCreate) (db : DB) : Catch.t :=
  Catch.mk (Main.next_id (catches db)) (catch_time env catch_data)
           (Main.species catch_data) (Main.zone_id catch_data)
           (Main.quantity_or_1 (Main.quantity catch_data))
           (Main.presentation catch_data) (Main.presentation catch_data)
           (tide_stage_for_timestamp env (catch_time env catch_data))
           (snapshot_wind_direction env) (snapshot_current_speed env).

(** An environment in which the catch is committed and every later step
    raises. *)
Definition failing_env : Env :=
  mkEnv 0 0 (fun t => t) (fun _ => Some "incoming") None None
        (fun _ _ _ => 55%R) (fun _ _ _ => "Fish the pilings.")
        (fun s _ _ => match s with CommitStep => false | _ => true end).

(** A catch with a rig, as the endpoint receives it. *)
Definition jig_catch : Main.CatchCreate :=
  Main.mkCatchCreate "speckled_trout" "Zone 3" (Some 1) (Some "jig") None.

(** The body of the first end-to-end scenario: the rig is sent under the
    key [rig_type]; 2024-05-15T07:00 as microseconds. *)
Definition scenario1_body : gmap string Main.json :=
  list_to_map
    [("species", Main.JString "speckled_trout");
     ("zone_id", Main.JString "Zone 3");
     ("quantity", Main.JInt 1);
     ("rig_type", Main.JString "jig");
     ("timestamp", Main.JDateTime 1715756400000000)].

(** The same request with the rig sent under the key [presentation]. *)
Definition scenario1_body_presentation : gmap string Main.json :=
  list_to_map
    [("species", Main.JString "speckled_trout");
     ("zone_id", Main.JString "Zone 3");
     ("quantity", Main.JInt 1);
     ("presentation", Main.JString "jig");
     ("timestamp", Main.JDateTime 1715756400000000)].

(** No step of the request raises. *)
Definition healthy (env : Env) : Prop :=
  forall s sp zn, db_fails env s sp zn = false.

(** No learning row has a negative success count. *)
Definition counts_nonneg (db : DB) : Prop :=
  Forall (fun r => 0 <= RigEffect.success_count r) (rig_effects db)
  /\ Forall (fun r => (0 <= ZoneConditionEffect.success_count r)%R) (zone_condition_effects db)
  /\ Forall (fun r => (0 <= RigConditionEffect.success_count r)%R) (rig_condition_effects db).

(** A computation returns, on the state [db]. *)
Definition returns {A : Type} (m : M A) (db : DB) : Prop :=
  exists a, snd (m db) = Ok a.

(** The prey list as the specification words it. *)
Definition claimed_prey_species : list string :=
  ["speckled_trout"; "white_trout"; "menhaden"; "mullet"; "shrimp"].

(** A dolphin seen in Zone 3 at instant 0. *)
Definition dolphin_at_0 : PredatorLog.t := PredatorLog.mk 0 "dolphin" "Zone 3".

Definition db_dolphin : DB := mkDB [] [] [dolphin_at_0] [] [] [] [] [].





(** Ten trout logged in one catch at instant 0. *)
Definition ten_trout : Catch.t :=
  Catch.mk 1 0 "speckled_trout" "Zone 3" 10 (Some "jig") (Some "jig") (Some "incoming")
           None None.


(** Live shrimp seen in Zone 2 at instant 0, and nothing else. *)
Definition db_bait_only : DB :=
  mkDB [] [BaitLog.mk 0 "live_shrimp" "Zone 2"] [] [] [] [] [] [].

(** The state [db] with another bait log table. *)
Definition set_bait_logs (db : DB) (l : list BaitLog.t) : DB :=
  mkDB (catches db) l (predator_logs db) (rig_effects db)
       (zone_condition_effects db) (rig_condition_effects db)
       (bite_scores db) (species_zone_tips db).

(** ** Vocabulary of the further properties *)

(** The columns that identify a row of each learning table. *)
Definition rig_key (r : RigEffect.t) : string * string * string :=
  (RigEffect.species r, RigEffect.zone_id r, RigEffect.rig_type r).

Definition zone_condition_key (r : ZoneConditionEffect.t)
    : string * string * (string * string * string * string) :=
  (ZoneConditionEffect.species r, ZoneConditionEffect.zone_id r,
   (ZoneConditionEffect.tide_band r, ZoneConditionEffect.clarity_band r,
    ZoneConditionEffect.wind_band r, ZoneConditionEffect.current_band r)).

Definition rig_condition_key (r : RigConditionEffect.t) : string * string * (string * string) :=
  (RigConditionEffect.species r, RigConditionEffect.rig_type r,
   (RigConditionEffect.tide_band r, RigConditionEffect.clarity_band r)).

(** No learning table holds two rows for one key. *)
Definition learning_keys_unique (db : DB) : Prop :=
  NoDup (map rig_key (rig_effects db))
  /\ NoDup (map zone_condition_key (zone_condition_effects db))
  /\ NoDup (map rig_condition_key (rig_condition_effects db)).

(** One rig update per instant of [times], in that order. *)
Definition rig_updates (times : list Z) (species zone_id rig_type : string) (db : DB) : DB :=
  fold_left (fun d t => fst (RigLearning.update_rig_effect false t species zone_id
                               (Some rig_type) d)) times db.

(** The four bands under which the conditions of a catch are learned. *)
Definition zone_bands (species : string) (c : ConditionLearning.conditions)
    : string * string * string * string :=
  (ConditionLearning.classify_tide (ConditionLearning.cond_tide_stage c),
   ConditionLearning.classify_clarity (ConditionLearning.cond_clarity c),
   ConditionLearning.classify_wind (ConditionLearning.cond_wind_direction c) species,
   ConditionLearning.classify_current (ConditionLearning.cond_current_speed c)).

(** The success count of a condition row before an update; a missing row
    counts 0. *)
Definition prior_zone_count (species zone_id : string) (c : ConditionLearning.conditions)
    (tbl : list ZoneConditionEffect.t) : R :=
  match find (ConditionLearning.same_zone_condition species zone_id
                (ConditionLearning.classify_tide (ConditionLearning.cond_tide_stage c))
                (ConditionLearning.classify_clarity (ConditionLearning.cond_clarity c))
                (ConditionLearning.classify_wind (ConditionLearning.cond_wind_direction c) species)
                (ConditionLearning.classify_current (ConditionLearning.cond_current_speed c)))
             tbl with
  | Some r => ZoneConditionEffect.success_count r
  | None => 0%R
  end.

(** The success count of a rig-condition row before an update; a missing
    row counts 0. *)
Definition prior_rig_condition_count (species rig_type : string)
    (c : ConditionLearning.conditions) (tbl : list RigConditionEffect.t) : R :=
  match find (ConditionLearning.same_rig_condition species rig_type
                (ConditionLearning.classify_tide (ConditionLearning.cond_tide_stage c))
                (ConditionLearning.classify_clarity (ConditionLearning.cond_clarity c)))
             tbl with
  | Some r => RigConditionEffect.success_count r
  | None => 0%R
  end.

(** The conditions [log_catch] hands to the condition learners. *)
Definition conditions_for_learning (env : Env) (catch_data : Main.CatchCreate)
    : ConditionLearning.conditions :=
  ConditionLearning.mkConditions
    (tide_stage_for_timestamp env (catch_time env catch_data)) (Some "clean")
    (snapshot_wind_direction env) (snapshot_current_speed env).

(** A row that qualifies as best rig of a pair. *)
Definition qualifies (species zone_id : string) (min_uses : Z) (r : RigEffect.t) : Prop :=
  RigEffect.species r = species /\ RigEffect.zone_id r = zone_id
  /\ min_uses <= RigEffect.success_count r.

(** The columns that identify a cached score and a tip. *)
Definition bite_key (b : BiteScore.t) : string * string :=
  (BiteScore.species b, BiteScore.zone_id b).

Definition tip_key (t : SpeciesZoneTip.t) : string * string :=
  (SpeciesZoneTip.species t, SpeciesZoneTip.zone_id t).

(** The cache holds one row per pair at most, and only scores of [0, 100]. *)
Definition cache_sound (db : DB) : Prop :=
  NoDup (map bite_key (bite_scores db))
  /\ Forall (fun b => (0 <= BiteScore.score b <= 100)%R) (bite_scores db).

(** The raw score does not depend on the cache (the scorer reads catches
    and predator logs, never [bite_scores]). *)
Definition cache_blind (raw : DB -> string -> string -> R) : Prop :=
  forall d l species zone_id, raw (set_bite_scores d l) species zone_id = raw d species zone_id.

(** [n] recomputes of a pair in a row, without [force_recalc]. *)
Definition recomputes (n : nat) (now : Z) (raw : DB -> string -> string -> R)
    (species zone_id : string) (db : DB) : DB :=
  Nat.iter n (fun d => fst (ScoreCache.recalculate_bite_score false now raw species zone_id
                              false d)) db.

(** The ratings in ascending order. *)
Definition rating_rank (rating : string) : Z :=
  if String.eqb rating "Poor" then 0
  else if String.eqb rating "Fair" then 1
  else if String.eqb rating "Good" then 2
  else if String.eqb rating "Great" then 3
  else 4.


(** The tip table holds one row per pair at most. *)
Definition tips_unique (db : DB) : Prop :=
  NoDup (map tip_key (species_zone_tips db)).

(** The tip [generate_tip] owes a pair: a sentence when the cached score is
    at least 50, nothing otherwise. *)
Definition tip_due (sentence : DB -> string -> string -> string) (db : DB)
    (species zone_id : string) : option string :=
  match ScoreCache.get_cached_bite_score db species zone_id with
  | Some b => if Rlt_dec (BiteScore.score b) 50 then None
              else Some (sentence db species zone_id)
  | None => None
  end.


(** The learning tables are sound: one row per key, every weight the
    capped logarithm of its count, no negative count. *)
Definition learning_sound (db : DB) : Prop :=
  learning_keys_unique db /\ learning_weights_ok db /\ counts_nonneg db.

Definition catch_ids_unique (db : DB) : Prop :=
  NoDup (map Catch.id (catches db)).

(** The database is well formed. *)
Definition well_formed (db : DB) : Prop :=
  learning_sound db /\ cache_sound db /\ tips_unique db /\ catch_ids_unique db.

(** Every condition row was learned under clarity 'clean' (and, in the zone
    table, wind 'neutral'). *)
Definition learned_clean (db : DB) : Prop :=
  Forall (fun r => ZoneConditionEffect.clarity_band r = "clean"
                   /\ ZoneConditionEffect.wind_band r = "neutral")
         (zone_condition_effects db)
  /\ Forall (fun r => RigConditionEffect.clarity_band r = "clean") (rig_condition_effects db).

(** The three learning tables together. *)
Definition learning_tables (db : DB)
    : list RigEffect.t * list ZoneConditionEffect.t * list RigConditionEffect.t :=
  (rig_effects db, zone_condition_effects db, rig_condition_effects db).


(** The predictions the tide table holds for one instant, in table order. *)
Definition predictions_at (timestamp : Z) (tide_data : list TideData.t) : list TideData.t :=
  List.filter (fun r => TideData.is_prediction r && (TideData.timestamp r =? timestamp))%bool
              tide_data.

(** The stage that goes with a change of height. *)
Definition stage_of_change (height_change : R) : string :=
  if Rlt_dec 0.01 height_change then "incoming"
  else if Rlt_dec height_change (-0.01) then "outgoing"
  else "slack".


(** A database after one jig catch of speckled trout in Zone 3 at incoming
    tide, with a cached score of 40 and a tip left from a better hour. *)
Definition learned_rig : RigEffect.t :=
  RigEffect.mk "speckled_trout" "Zone 3" "jig" 1 (Rmin 3 (ln (IZR 1 + 1))) (Some 0).

Definition learned_zone_condition : ZoneConditionEffect.t :=
  ZoneConditionEffect.mk "speckled_trout" "Zone 3" "incoming" "clean" "neutral" "low" 1
    (Rmin 4 (ln (1 + 1))).

Definition learned_rig_condition : RigConditionEffect.t :=
  RigConditionEffect.mk "speckled_trout" "jig" "incoming" "clean" 1 (Rmin 4 (ln (1 + 1))).

Definition old_tip : SpeciesZoneTip.t :=
  SpeciesZoneTip.mk "speckled_trout" "Zone 3" "Try Zone 3." 0.

Definition db_learned : DB :=
  mkDB [ten_trout] [] [] [learned_rig] [learned_zone_condition] [learned_rig_condition]
       [cached_forty] [old_tip].

(** An environment in which the zone-condition update, and nothing else,
    raises. *)
Definition zone_step_failing_env : Env :=
  mkEnv 0 0 (fun t => t) (fun _ => Some "incoming") None None
        (fun _ _ _ => 55%R) (fun _ _ _ => "Fish the pilings.")
        (fun s _ _ => match s with ZoneConditionStep => true | _ => false end).

(** * Properties *)

(** ** Strings *)

Lemma prefix_app (sub s : string) :
  String.prefix sub s = true <-> exists b, s = (sub ++ b)%string.
Proof.
  revert s. induction sub as [|c sub IH]; intros s.
  - split; [intros _; exists s; reflexivity | intros _; destruct s; reflexivity].
  - destruct s as [|d s]; simpl.
    + split; [discriminate | intros [b Hb]; discriminate].
    + destruct (Ascii.ascii_dec c d) as [->|Hne].
      * rewrite IH. split; intros [b Hb]; exists b.
        -- now rewrite Hb.
        -- now injection Hb.
      * split; [discriminate | intros [b Hb]; injection Hb; congruence].
Qed.

(** [Py.contains] is the substring test of Python's [in]. *)
Lemma contains_spec (sub s : string) :
  Py.contains sub s = true <-> exists a b, s = (a ++ sub ++ b)%string.
Proof.
  assert (Hunfold : forall t, Py.contains sub t
            = (String.prefix sub t
               || match t with EmptyString => false | String _ t' => Py.contains sub t' end)%bool)
    by (intros t; destruct t; reflexivity).
  induction s as [|d s IH]; rewrite Hunfold, orb_true_iff, prefix_app.
  - split.
    + intros [[b Hb]|H]; [exists "", b; exact Hb | discriminate].
    + intros [a [b Hab]]. left. destruct a; [exists b; exact Hab | discriminate].
  - rewrite IH. split.
    + intros [[b Hb]|[a [b Hab]]].
      * exists "", b. exact Hb.
      * exists (String d a), b. simpl. now rewrite Hab.
    + intros [a [b Hab]]. destruct a as [|c a]; simpl in Hab.
      * left. exists b. exact Hab.
      * right. exists a, b. now injection Hab.
Qed.

Lemma falsy_lower (o : option string) :
  Py.truthy o = false -> Py.lower (default "" o) = "".
Proof.
  destruct o as [s|]; simpl; [|reflexivity].
  destruct s; [reflexivity | discriminate].
Qed.

(** ** Tide bands *)

(** C10, as stated, fails: a stage that mentions high water and a falling
    tide contains ['high'] and is banded [outgoing], not [slack]. *)
Lemma classify_tide_high_not_always_slack :
  Py.contains "high" (Py.lower "High, falling") = true
  /\ ConditionLearning.classify_tide (Some "High, falling") = "outgoing"
  /\ ConditionLearning.classify_tide (Some "High, falling") <> "slack".
Proof.
  split; [reflexivity|]. split; [reflexivity|]. discriminate.
Qed.

(** C10, amended: [classify_tide] answers [slack] exactly for a stage that
    contains 'slack', 'high' or 'low' (in any letter case) and none of
    'incoming', 'rising', 'outgoing', 'falling', which are tested first; it
    answers [unknown] exactly for a stage matching none of the seven
    keywords, the empty and the missing stage among them.  So the stages
    'high' and 'low' are learned under the slack band. *)
Theorem classify_tide_slack_band (tide_stage : option string) :
  let tide_lower := Py.lower (default "" tide_stage) in
  (ConditionLearning.classify_tide tide_stage = "slack"
     <-> moving_keyword tide_lower = false /\ slack_keyword tide_lower = true)
  /\ (ConditionLearning.classify_tide tide_stage = "unknown"
     <-> moving_keyword tide_lower = false /\ slack_keyword tide_lower = false)
  /\ ConditionLearning.classify_tide (Some "high") = "slack"
  /\ ConditionLearning.classify_tide (Some "low") = "slack"
  /\ ConditionLearning.classify_tide (Some "") = "unknown"
  /\ ConditionLearning.classify_tide None = "unknown".
Proof.
  intros tide_lower.
  split; [|split; [|repeat (split; [reflexivity|]); reflexivity]].
  - unfold ConditionLearning.classify_tide, moving_keyword, slack_keyword.
    destruct (Py.truthy tide_stage) eqn:Ht; simpl.
    + fold tide_lower.
      destruct (Py.contains "incoming" tide_lower), (Py.contains "rising" tide_lower),
        (Py.contains "outgoing" tide_lower), (Py.contains "falling" tide_lower),
        (Py.contains "slack" tide_lower), (Py.contains "high" tide_lower),
        (Py.contains "low" tide_lower); simpl;
        split; try discriminate; try (intros [? ?]; discriminate); auto.
    + subst tide_lower. rewrite (falsy_lower _ Ht). simpl.
      split; [discriminate | intros [_ ?]; discriminate].
  - unfold ConditionLearning.classify_tide, moving_keyword, slack_keyword.
    destruct (Py.truthy tide_stage) eqn:Ht; simpl.
    + fold tide_lower.
      destruct (Py.contains "incoming" tide_lower), (Py.contains "rising" tide_lower),
        (Py.contains "outgoing" tide_lower), (Py.contains "falling" tide_lower),
        (Py.contains "slack" tide_lower), (Py.contains "high" tide_lower),
        (Py.contains "low" tide_lower); simpl;
        split; try discriminate; try (intros [? ?]; discriminate); auto.
    + subst tide_lower. rewrite (falsy_lower _ Ht). simpl. tauto.
Qed.

(** ** Rating, confidence and smoothing *)

Lemma find_replace_first {A : Type} (key : A -> bool) (row : A) (tbl : list A) :
  key row = true -> find key tbl <> None -> find key (replace_first key row tbl) = Some row.
Proof.
  intros Hrow. induction tbl as [|x tbl IH]; simpl; [congruence|].
  destruct (key x) eqn:Hx; simpl.
  - now rewrite Hrow.
  - rewrite Hx. exact IH.
Qed.

Lemma find_app_fresh {A : Type} (key : A -> bool) (row : A) (tbl : list A) :
  key row = true -> find key tbl = None -> find key (tbl ++ [row]) = Some row.
Proof.
  intros Hrow. induction tbl as [|x tbl IH]; simpl.
  - now rewrite Hrow.
  - destruct (key x); [discriminate | exact IH].
Qed.

(** After [store], the query for the key returns the row just written. *)
Lemma find_store {A : Type} (key : A -> bool) (row : A) (tbl : list A) :
  key row = true -> find key (store key row tbl) = Some row.
Proof.
  intros Hrow. unfold store. destruct (find key tbl) eqn:Hf.
  - apply find_replace_first; [exact Hrow | congruence].
  - now apply find_app_fresh.
Qed.

Lemma clamp_id (x : R) : (0 <= x <= 100)%R -> Rmax 0 (Rmin 100 x) = x.
Proof.
  intros [H0 H100]. unfold Rmax, Rmin.
  destruct (Rle_dec 100 x); destruct (Rle_dec 0 _); lra.
Qed.

Lemma clamp_range (x : R) : (0 <= Rmax 0 (Rmin 100 x) <= 100)%R.
Proof.
  unfold Rmax, Rmin.
  destruct (Rle_dec 100 x); destruct (Rle_dec 0 _); lra.
Qed.

(** The weights of [get_smoothing_weight] stay in the ranges its comments
    give. *)
Lemma get_smoothing_weight_range (n : Z) :
  0 <= n ->
  (n < 10 -> (0.4 <= ScoreCache.get_smoothing_weight n < 0.5)%R)
  /\ (10 <= n < 50 -> (0.2 < ScoreCache.get_smoothing_weight n <= 0.3)%R)
  /\ (50 <= n -> (0.1 <= ScoreCache.get_smoothing_weight n <= 0.15)%R).
Proof.
  intros Hn. unfold ScoreCache.get_smoothing_weight.
  destruct (Z.ltb_spec n 10) as [H10|H10]; destruct (Z.ltb_spec n 50) as [H50|H50];
    (split; [|split]); intros Hr; try lia; split.
  - assert (0 <= IZR n)%R by (now apply IZR_le). lra.
  - assert (IZR n <= 9)%R by (apply IZR_le; lia). lra.
  - assert (0 < IZR (50 - n))%R by (apply IZR_lt; lia). lra.
  - assert (IZR (50 - n) <= 40)%R by (apply IZR_le; lia). lra.
  - assert (0 <= IZR (100 - Z.min n 100))%R by (apply IZR_le; lia). lra.
  - assert (IZR (100 - Z.min n 100) <= 50)%R by (apply IZR_le; lia). lra.
Qed.

(** C8: rating and confidence are the stated step functions of the score
    and of the catch count, exactly 10 catches give [medium], and the row
    that [recalculate_bite_score] leaves in the cache for its pair carries
    the rating of its own score and the confidence of the pair's catch
    count (the dictionary returned carries the same two labels next to the
    score rounded to one decimal); a recompute that raises leaves the cache
    as it was. *)
Theorem rating_confidence_deterministic (score : R) (total_catches : Z)
    (db_fails : bool) (now : Z) (raw : DB -> string -> string -> R)
    (species zone_id : string) (force_recalc : bool) (db : DB) :
  (ScoreCache.get_score_rating score = "Poor" <-> score <= 20)%R
  /\ (ScoreCache.get_score_rating score = "Fair" <-> 20 < score <= 40)%R
  /\ (ScoreCache.get_score_rating score = "Good" <-> 40 < score <= 60)%R
  /\ (ScoreCache.get_score_rating score = "Great" <-> 60 < score <= 80)%R
  /\ (ScoreCache.get_score_rating score = "Excellent" <-> 80 < score)%R
  /\ (ScoreCache.get_confidence_level total_catches = "low" <-> total_catches < 10)
  /\ (ScoreCache.get_confidence_level total_catches = "medium" <-> 10 <= total_catches < 50)
  /\ (ScoreCache.get_confidence_level total_catches = "high" <-> 50 <= total_catches)
  /\ ScoreCache.get_confidence_level 10 = "medium"
  /\ (let after :=
        ScoreCache.recalculate_bite_score db_fails now raw species zone_id force_recalc db in
      if db_fails then bite_scores (fst after) = bite_scores db
      else
        exists row returned,
          snd after = Ok returned
          /\ find (ScoreCache.same_pair species zone_id) (bite_scores (fst after)) = Some row
          /\ BiteScore.rating row = ScoreCache.get_score_rating (BiteScore.score row)
          /\ BiteScore.confidence row
             = ScoreCache.get_confidence_level
                 (Confidence.catch_count species zone_id (catches db))
          /\ Recalculated.rating returned = BiteScore.rating row
          /\ Recalculated.confidence returned = BiteScore.confidence row
          /\ Recalculated.score returned = Hyperlocal.round1 (BiteScore.score row)).
Proof.
  unfold ScoreCache.get_score_rating, ScoreCache.get_confidence_level.
  repeat match goal with |- _ /\ _ => split end.
  1-5: destruct (Rle_dec score 20), (Rle_dec score 40), (Rle_dec score 60),
         (Rle_dec score 80); split; intros; try discriminate; try lra; reflexivity.
  1-3: destruct (Z.ltb_spec total_catches 10), (Z.ltb_spec total_catches 50);
         split; intros; try discriminate; try lia; reflexivity.
  - reflexivity.
  - cbv zeta. unfold ScoreCache.recalculate_bite_score. destruct db_fails; [reflexivity|].
    eexists _, _. split; [reflexivity|]. cbn [fst bite_scores set_bite_scores]. split.
    + apply find_store.
      destruct (find _ (bite_scores db)) as [old|] eqn:Hold.
      * exact (proj2 (find_some _ _ Hold)).
      * unfold ScoreCache.same_pair. simpl. now rewrite !String.eqb_refl.
    + destruct (find _ (bite_scores db)); repeat split.
Qed.

(** C4: for a pair with at least fifty catches and a cached score, one
    recompute without [force_recalc] writes the smoothed score
    [S_old * (1 - w) + R * w] with [w = 0.1 + (100 - min N 100) / 1000],
    which moves the cached score by at most 0.15 of its distance to the raw
    score; the dictionary returned carries that score rounded to one
    decimal. *)
Theorem smoothing_step_high_data (now : Z) (raw : DB -> string -> string -> R)
    (species zone_id : string) (db : DB) (old : BiteScore.t) :
  let N := Confidence.catch_count species zone_id (catches db) in
  let S_old := BiteScore.score old in
  let R_raw := raw db species zone_id in
  let w := ScoreCache.get_smoothing_weight N in
  find (ScoreCache.same_pair species zone_id) (bite_scores db) = Some old ->
  50 <= N ->
  (0 <= S_old <= 100)%R ->
  (0 <= R_raw <= 100)%R ->
  exists db' row returned,
    ScoreCache.recalculate_bite_score false now raw species zone_id false db
    = (db', Ok returned)
    /\ find (ScoreCache.same_pair species zone_id) (bite_scores db') = Some row
    /\ w = (0.1 + IZR (100 - Z.min N 100) / 1000)%R
    /\ BiteScore.score row = (S_old * (1 - w) + R_raw * w)%R
    /\ (Rabs (BiteScore.score row - S_old) <= 0.15 * Rabs (R_raw - S_old))%R
    /\ Recalculated.score returned = Hyperlocal.round1 (BiteScore.score row).
Proof.
  intros N S_old R_raw w Hold HN Hs Hr.
  assert (Hw : (0.1 <= w <= 0.15)%R).
  { apply (get_smoothing_weight_range N); lia. }
  assert (Hconv : (0 <= S_old * (1 - w) + R_raw * w <= 100)%R) by nra.
  unfold ScoreCache.recalculate_bite_score. rewrite Hold.
  eexists _, _, _. split; [reflexivity|].
  destruct (find_some _ _ Hold) as [_ Hkey].
  split; [|split; [|split; [|split]]]; [simpl ..|].
  - apply find_store. exact Hkey.
  - unfold w, ScoreCache.get_smoothing_weight.
    destruct (Z.ltb_spec N 10); [lia|]. destruct (Z.ltb_spec N 50); [lia|]. reflexivity.
  - unfold ScoreCache.smoothed_score. simpl. fold N S_old R_raw w.
    now apply clamp_id.
  - unfold ScoreCache.smoothed_score. simpl. fold N S_old R_raw w.
    rewrite (clamp_id _ Hconv).
    replace (S_old * (1 - w) + R_raw * w - S_old)%R with (w * (R_raw - S_old))%R by ring.
    rewrite Rabs_mult, (Rabs_pos_eq w) by lra.
    apply Rmult_le_compat_r; [apply Rabs_pos | lra].
  - reflexivity.
Qed.

(** The theorem at a pair with fifty catches, a cached score of 40 and a
    raw score of 70. *)
Lemma smoothing_step_high_data_witness :
  exists db' row returned,
    ScoreCache.recalculate_bite_score false 0 (fun _ _ _ => 70%R)
      "speckled_trout" "Zone 3" false db_fifty = (db', Ok returned)
    /\ find (ScoreCache.same_pair "speckled_trout" "Zone 3") (bite_scores db') = Some row
    /\ ScoreCache.get_smoothing_weight
         (Confidence.catch_count "speckled_trout" "Zone 3" (catches db_fifty))
       = (0.1 + IZR (100 - Z.min
                 (Confidence.catch_count "speckled_trout" "Zone 3" (catches db_fifty)) 100)
              / 1000)%R
    /\ BiteScore.score row
       = (40 * (1 - ScoreCache.get_smoothing_weight
                       (Confidence.catch_count "speckled_trout" "Zone 3" (catches db_fifty)))
          + 70 * ScoreCache.get_smoothing_weight
                   (Confidence.catch_count "speckled_trout" "Zone 3" (catches db_fifty)))%R
    /\ (Rabs (BiteScore.score row - 40) <= 0.15 * Rabs (70 - 40))%R
    /\ Recalculated.score returned = Hyperlocal.round1 (BiteScore.score row).
Proof.
  apply (smoothing_step_high_data 0 (fun _ _ _ => 70%R) "speckled_trout" "Zone 3"
           db_fifty cached_forty).
  - reflexivity.
  - vm_compute. discriminate.
  - simpl. lra.
  - lra.
Defined.

(** ** The learning tables *)

Lemma math_log_Some (x l : R) : Py.math_log x = Some l -> l = ln x.
Proof.
  unfold Py.math_log. destruct (Rlt_dec 0 x); congruence.
Qed.

Lemma math_log_pos (x : R) : (0 < x)%R -> Py.math_log x = Some (ln x).
Proof.
  intros Hx. unfold Py.math_log. destruct (Rlt_dec 0 x); [reflexivity | contradiction].
Qed.

Lemma Forall_replace_first {A : Type} (P : A -> Prop) (key : A -> bool) (row : A)
    (tbl : list A) :
  P row -> Forall P tbl -> Forall P (replace_first key row tbl).
Proof.
  intros Hrow. induction 1 as [|x tbl Hx Htbl IH]; simpl; [constructor|].
  destruct (key x); constructor; assumption.
Qed.

Lemma Forall_store {A : Type} (P : A -> Prop) (key : A -> bool) (row : A) (tbl : list A) :
  P row -> Forall P tbl -> Forall P (store key row tbl).
Proof.
  intros Hrow Htbl. unfold store. destruct (find key tbl).
  - now apply Forall_replace_first.
  - apply Forall_app. split; [assumption | now constructor].
Qed.

Lemma rig_effect_upsert_ok (now : Z) (species zone_id rig_type : string)
    (tbl tbl' : list RigEffect.t) (row : RigEffect.t) :
  RigLearning.rig_effect_upsert now species zone_id rig_type tbl = Ok (tbl', row) ->
  rig_effect_ok row /\ (Forall rig_effect_ok tbl -> Forall rig_effect_ok tbl').
Proof.
  unfold RigLearning.rig_effect_upsert.
  set (r := match find _ tbl with Some _ => _ | None => _ end).
  destruct (Py.math_log _) as [l|] eqn:Hl; [|discriminate].
  intros H. injection H as <- <-. apply math_log_Some in Hl.
  assert (Hrow : rig_effect_ok
            (RigEffect.mk (RigEffect.species r) (RigEffect.zone_id r) (RigEffect.rig_type r)
               (RigEffect.success_count r) (Rmin 3 l) (RigEffect.last_used r))).
  { unfold rig_effect_ok. simpl. now rewrite Hl, plus_IZR. }
  split; [exact Hrow | intros Htbl; now apply Forall_store].
Qed.

Lemma zone_condition_upsert_ok (species zone_id tide clarity wind current : string)
    (m : R) (tbl tbl' : list ZoneConditionEffect.t) (row : ZoneConditionEffect.t) :
  ConditionLearning.zone_condition_upsert species zone_id tide clarity wind current m tbl
    = Ok (tbl', row) ->
  zone_condition_ok row /\ (Forall zone_condition_ok tbl -> Forall zone_condition_ok tbl').
Proof.
  unfold ConditionLearning.zone_condition_upsert.
  set (r := match find _ tbl with Some _ => _ | None => _ end).
  destruct (Py.math_log _) as [l|] eqn:Hl; [|discriminate].
  intros H. injection H as <- <-. apply math_log_Some in Hl.
  assert (Hrow : zone_condition_ok
            (ZoneConditionEffect.mk
               (ZoneConditionEffect.species r) (ZoneConditionEffect.zone_id r)
               (ZoneConditionEffect.tide_band r) (ZoneConditionEffect.clarity_band r)
               (ZoneConditionEffect.wind_band r) (ZoneConditionEffect.current_band r)
               (ZoneConditionEffect.success_count r) (Rmin 4 l))).
  { unfold zone_condition_ok. simpl. now rewrite Hl. }
  split; [exact Hrow | intros Htbl; now apply Forall_store].
Qed.

Lemma rig_condition_upsert_ok (species rig_type tide clarity : string)
    (m : R) (tbl tbl' : list RigConditionEffect.t) (row : RigConditionEffect.t) :
  ConditionLearning.rig_condition_upsert species rig_type tide clarity m tbl = Ok (tbl', row) ->
  rig_condition_ok row /\ (Forall rig_condition_ok tbl -> Forall rig_condition_ok tbl').
Proof.
  unfold ConditionLearning.rig_condition_upsert.
  set (r := match find _ tbl with Some _ => _ | None => _ end).
  destruct (Py.math_log _) as [l|] eqn:Hl; [|discriminate].
  intros H. injection H as <- <-. apply math_log_Some in Hl.
  assert (Hrow : rig_condition_ok
            (RigConditionEffect.mk
               (RigConditionEffect.species r) (RigConditionEffect.rig_type r)
               (RigConditionEffect.tide_band r) (RigConditionEffect.clarity_band r)
               (RigConditionEffect.success_count r) (Rmin 4 l))).
  { unfold rig_condition_ok. simpl. now rewrite Hl. }
  split; [exact Hrow | intros Htbl; now apply Forall_store].
Qed.

(** A call that skips or raises leaves the state as it was and returns no
    row. *)
Ltac unchanged := simpl; split; [assumption | discriminate].

Lemma update_rig_effect_weights (db : DB) (db_fails : bool) (now : Z)
    (species zone_id : string) (rig_type : option string) :
  learning_weights_ok db ->
  learning_weights_ok
    (fst (RigLearning.update_rig_effect db_fails now species zone_id rig_type db))
  /\ forall row,
       snd (RigLearning.update_rig_effect db_fails now species zone_id rig_type db)
       = Ok (Some row) -> rig_effect_ok row.
Proof.
  intros Hok. unfold RigLearning.update_rig_effect.
  destruct rig_type as [r|]; [|unchanged].
  destruct (String.eqb r "" || String.eqb r "unknown")%bool; [unchanged|].
  destruct db_fails; [unchanged|].
  destruct (RigLearning.rig_effect_upsert _ _ _ _ _) as [[tbl row]|e] eqn:Hup; [|unchanged].
  destruct (rig_effect_upsert_ok _ _ _ _ _ _ _ Hup) as [Hrow Htbl].
  destruct Hok as (Hrig & Hzce & Hrce). simpl. split.
  - repeat split; auto.
  - intros row' H. injection H as <-. exact Hrow.
Qed.

Lemma update_zone_condition_effect_weights (db : DB) (db_fails : bool)
    (species zone_id : string) (c : ConditionLearning.conditions) (weight_multiplier : R) :
  learning_weights_ok db ->
  learning_weights_ok
    (fst (ConditionLearning.update_zone_condition_effect db_fails species zone_id c
            weight_multiplier db))
  /\ forall row,
       snd (ConditionLearning.update_zone_condition_effect db_fails species zone_id c
              weight_multiplier db)
       = Ok (Some row) -> zone_condition_ok row.
Proof.
  intros Hok. unfold ConditionLearning.update_zone_condition_effect.
  destruct (String.eqb _ "unknown"); [unchanged|].
  destruct db_fails; [unchanged|].
  destruct (ConditionLearning.zone_condition_upsert _ _ _ _ _ _ _ _) as [[tbl row]|e] eqn:Hup;
    [|unchanged].
  destruct (zone_condition_upsert_ok _ _ _ _ _ _ _ _ _ _ Hup) as [Hrow Htbl].
  destruct Hok as (Hrig & Hzce & Hrce). simpl. split.
  - repeat split; auto.
  - intros row' H. injection H as <-. exact Hrow.
Qed.

Lemma update_rig_condition_effect_weights (db : DB) (db_fails : bool)
    (species : string) (rig_type : option string) (c : ConditionLearning.conditions)
    (weight_multiplier : R) :
  learning_weights_ok db ->
  learning_weights_ok
    (fst (ConditionLearning.update_rig_condition_effect db_fails species rig_type c
            weight_multiplier db))
  /\ forall row,
       snd (ConditionLearning.update_rig_condition_effect db_fails species rig_type c
              weight_multiplier db)
       = Ok (Some row) -> rig_condition_ok row.
Proof.
  intros Hok. unfold ConditionLearning.update_rig_condition_effect.
  destruct rig_type as [r|]; [|unchanged].
  destruct (String.eqb r "" || String.eqb r "unknown")%bool; [unchanged|].
  destruct (String.eqb _ "unknown"); [unchanged|].
  destruct db_fails; [unchanged|].
  destruct (ConditionLearning.rig_condition_upsert _ _ _ _ _ _) as [[tbl row]|e] eqn:Hup;
    [|unchanged].
  destruct (rig_condition_upsert_ok _ _ _ _ _ _ _ _ Hup) as [Hrow Htbl].
  destruct Hok as (Hrig & Hzce & Hrce). simpl. split.
  - repeat split; auto.
  - intros row' H. injection H as <-. exact Hrow.
Qed.

(** C5: each of the three learning updaters, whatever its arguments and
    whether or not it raises, leaves every row of the three tables with
    [weight = min(cap, ln(success_count + 1))], cap 3 for RigEffect and 4
    for the two condition tables, and the row it returns satisfies the rule
    too. *)
Theorem learning_weights_preserved (db : DB) (db_fails : bool) (now : Z)
    (species zone_id : string) (rig_type : option string)
    (c : ConditionLearning.conditions) (weight_multiplier : R) :
  learning_weights_ok db ->
  let rig := RigLearning.update_rig_effect db_fails now species zone_id rig_type db in
  let zce := ConditionLearning.update_zone_condition_effect db_fails species zone_id c
               weight_multiplier db in
  let rce := ConditionLearning.update_rig_condition_effect db_fails species rig_type c
               weight_multiplier db in
  (learning_weights_ok (fst rig)
   /\ forall row, snd rig = Ok (Some row) -> rig_effect_ok row)
  /\ (learning_weights_ok (fst zce)
      /\ forall row, snd zce = Ok (Some row) -> zone_condition_ok row)
  /\ (learning_weights_ok (fst rce)
      /\ forall row, snd rce = Ok (Some row) -> rig_condition_ok row).
Proof.
  intros Hok. cbv zeta. split; [|split].
  - now apply update_rig_effect_weights.
  - now apply update_zone_condition_effect_weights.
  - now apply update_rig_condition_effect_weights.
Qed.

(** The theorem at the empty database. *)
Lemma learning_weights_preserved_witness :
  learning_weights_ok empty_db
  /\ learning_weights_ok
       (fst (RigLearning.update_rig_effect false 0 "speckled_trout" "Zone 3" (Some "jig")
               empty_db)).
Proof.
  assert (H : learning_weights_ok empty_db) by (repeat split; constructor).
  split; [exact H|].
  exact (proj1 (proj1 (learning_weights_preserved empty_db false 0 "speckled_trout" "Zone 3"
                         (Some "jig")
                         (ConditionLearning.mkConditions (Some "incoming") (Some "clean") None None)
                         1%R H))).
Defined.

(** ** Frame properties of the session monad *)

Section Frames.

Context {X : Type} (f : DB -> X).

Lemma frames_ret {A : Type} (a : A) : frames f (ret a).
Proof. intros db. reflexivity. Qed.

Lemma frames_bind {A B : Type} (m : M A) (k : A -> M B) :
  frames f m -> (forall a, frames f (k a)) -> frames f (bind m k).
Proof.
  intros Hm Hk db. unfold bind. specialize (Hm db).
  destruct (m db) as [db' [a|e]]; simpl in *; [rewrite Hk|]; exact Hm.
Qed.

Lemma frames_when (cond : bool) (m : M unit) :
  frames f m -> frames f (when cond m).
Proof. intros Hm. destruct cond; [exact Hm | apply frames_ret]. Qed.

Lemma frames_ignore {A : Type} (m : M A) :
  frames f m -> frames f (ignore m).
Proof. intros Hm. apply frames_bind; [exact Hm | intros a; apply frames_ret]. Qed.

Lemma frames_try_except_log {A : Type} (m : M A) :
  frames f m -> frames f (try_except_log m).
Proof.
  intros Hm db. unfold try_except_log. specialize (Hm db).
  destruct (m db) as [db' r]. exact Hm.
Qed.

(** What follows a step diverts nothing from what the step left in [f]. *)
Lemma bind_frames_rest {A B : Type} (m : M A) (k : A -> M B) :
  (forall a, frames f (k a)) -> forall db, f (fst (bind m k db)) = f (fst (m db)).
Proof.
  intros Hk db. unfold bind.
  destruct (m db) as [db' [a|e]]; simpl; [apply Hk | reflexivity].
Qed.

(** Case analysis on every test of an updater. *)
Ltac updater_cases :=
  repeat match goal with
         | |- context [match ?x with _ => _ end] => destruct x
         end;
  simpl; auto.

Lemma update_rig_effect_frames fails now sp zn rig :
  (forall db l, f (set_rig_effects db l) = f db) ->
  frames f (RigLearning.update_rig_effect fails now sp zn rig).
Proof.
  intros Hf db. unfold RigLearning.update_rig_effect. updater_cases.
Qed.

Lemma update_zone_condition_effect_frames fails sp zn c w :
  (forall db l, f (set_zone_condition_effects db l) = f db) ->
  frames f (ConditionLearning.update_zone_condition_effect fails sp zn c w).
Proof.
  intros Hf db. unfold ConditionLearning.update_zone_condition_effect. updater_cases.
Qed.

Lemma update_rig_condition_effect_frames fails sp rig c w :
  (forall db l, f (set_rig_condition_effects db l) = f db) ->
  frames f (ConditionLearning.update_rig_condition_effect fails sp rig c w).
Proof.
  intros Hf db. unfold ConditionLearning.update_rig_condition_effect. updater_cases.
Qed.

Lemma recalculate_bite_score_frames fails now raw sp zn force :
  (forall db l, f (set_bite_scores db l) = f db) ->
  frames f (ScoreCache.recalculate_bite_score fails now raw sp zn force).
Proof.
  intros Hf db. unfold ScoreCache.recalculate_bite_score.
  destruct fails; simpl; auto.
Qed.

Lemma update_species_zone_tip_frames fails now sentence sp zn :
  (forall db l, f (set_species_zone_tips db l) = f db) ->
  frames f (Tips.update_species_zone_tip fails now sentence sp zn).
Proof.
  intros Hf db. unfold Tips.update_species_zone_tip.
  destruct fails; simpl; auto.
  destruct (negb _); simpl; auto.
Qed.

End Frames.

Create HintDb frames.
#[local] Hint Resolve frames_ret frames_bind frames_when frames_ignore
  frames_try_except_log update_rig_effect_frames update_zone_condition_effect_frames
  update_rig_condition_effect_frames recalculate_bite_score_frames
  update_species_zone_tip_frames : frames.

(** ** Invariants along the session monad *)

Section Preserves.

Variable P : DB -> Prop.

Lemma preserves_ret {A : Type} (a : A) : preserves P (ret a).
Proof. intros db H. exact H. Qed.

Lemma preserves_bind {A B : Type} (m : M A) (k : A -> M B) :
  preserves P m -> (forall a, preserves P (k a)) -> preserves P (bind m k).
Proof.
  intros Hm Hk db H. unfold bind. specialize (Hm db H).
  destruct (m db) as [db' [a|e]]; simpl in *; [now apply Hk | exact Hm].
Qed.

Lemma preserves_when (cond : bool) (m : M unit) :
  preserves P m -> preserves P (when cond m).
Proof. intros Hm. destruct cond; [exact Hm | apply preserves_ret]. Qed.

Lemma preserves_ignore {A : Type} (m : M A) :
  preserves P m -> preserves P (ignore m).
Proof. intros Hm. apply preserves_bind; [exact Hm | intros a; apply preserves_ret]. Qed.

Lemma preserves_try_except_log {A : Type} (m : M A) :
  preserves P m -> preserves P (try_except_log m).
Proof.
  intros Hm db H. unfold try_except_log. specialize (Hm db H).
  destruct (m db) as [db' r]. exact Hm.
Qed.

End Preserves.

Lemma recalculate_bite_score_weights fails now raw sp zn force :
  preserves learning_weights_ok (ScoreCache.recalculate_bite_score fails now raw sp zn force).
Proof.
  intros db H. unfold ScoreCache.recalculate_bite_score. destruct fails; exact H.
Qed.

Lemma update_species_zone_tip_weights fails now sentence sp zn :
  preserves learning_weights_ok (Tips.update_species_zone_tip fails now sentence sp zn).
Proof.
  intros db H. unfold Tips.update_species_zone_tip.
  destruct fails; [exact H|]. destruct (negb _); exact H.
Qed.

(** The triggers of a catch keep the weight rule, wherever they stop. *)
Lemma event_triggers_weights (env : Env) (catch : Catch.t) (rig_type : option string) :
  preserves learning_weights_ok (Main.event_triggers env catch rig_type).
Proof.
  unfold Main.event_triggers. cbv zeta.
  apply preserves_bind; [|intros _; apply preserves_bind; [|intros _;
    apply preserves_bind; [|intros _; apply preserves_bind; [|intros _]]]].
  - apply preserves_when, preserves_ignore.
    intros db H. now apply update_rig_effect_weights.
  - apply preserves_ignore.
    intros db H. now apply update_zone_condition_effect_weights.
  - apply preserves_when, preserves_ignore.
    intros db H. now apply update_rig_condition_effect_weights.
  - apply preserves_ignore, recalculate_bite_score_weights.
  - apply preserves_ignore, update_species_zone_tip_weights.
Qed.

(** So does the whole endpoint. *)
Lemma log_catch_weights (env : Env) (catch_data : Main.CatchCreate) (db : DB) :
  learning_weights_ok db -> learning_weights_ok (fst (Main.log_catch env catch_data db)).
Proof.
  intros H. unfold Main.log_catch.
  destruct (db_fails env CommitStep _ _); [exact H|].
  match goal with
  | |- context [try_except_log ?m ?d] =>
      pose proof (preserves_try_except_log learning_weights_ok m
                    (event_triggers_weights _ _ _) d H) as Hd;
      destruct (try_except_log m d) as [db2 r]
  end.
  exact Hd.
Qed.

(** ** The catch endpoint *)

(** Once the catch is committed the endpoint answers [Logged], whatever the
    triggers do. *)
Lemma log_catch_committed (env : Env) (catch_data : Main.CatchCreate) (db : DB) :
  db_fails env CommitStep (Main.species catch_data) (Main.zone_id catch_data) = false ->
  Main.log_catch env catch_data db
  = (fst (Main.event_triggers env (new_catch env catch_data db) (Main.presentation catch_data)
            (set_catches db (catches db ++ [new_catch env catch_data db]))),
     Main.Logged (Main.next_id (catches db)) (Main.species catch_data)
                 (Main.zone_id catch_data) (catch_time env catch_data)).
Proof.
  intros Hcommit. unfold Main.log_catch. rewrite Hcommit.
  fold (catch_time env catch_data). fold (new_catch env catch_data db).
  unfold try_except_log.
  destruct (Main.event_triggers _ _ _ _) as [db2 r]. reflexivity.
Qed.

(** No trigger touches the catch table. *)
Lemma event_triggers_frames_catches (env : Env) (catch : Catch.t) (rig_type : option string) :
  frames catches (Main.event_triggers env catch rig_type).
Proof.
  unfold Main.event_triggers. auto 10 with frames.
Qed.

(** Only the first trigger touches the rig table. *)
Lemma event_triggers_rig_effects (env : Env) (catch : Catch.t) (rig_type : option string)
    (db : DB) :
  rig_effects (fst (Main.event_triggers env catch rig_type db))
  = rig_effects
      (fst (when (Py.truthy rig_type)
              (ignore (RigLearning.update_rig_effect
                         (db_fails env RigEffectStep (Catch.species catch) (Catch.zone_id catch))
                         (utcnow env) (Catch.species catch) (Catch.zone_id catch) rig_type))
              db)).
Proof.
  unfold Main.event_triggers. cbv zeta.
  apply (bind_frames_rest rig_effects). intros _. auto 10 with frames.
Qed.

Lemma truthy_Some (s : string) : s <> "" -> Py.truthy (Some s) = true.
Proof.
  intros Hs. simpl. apply negb_true_iff. now apply String.eqb_neq.
Qed.

Lemma known_rig (rig : string) :
  rig <> "" -> rig <> "unknown" -> (String.eqb rig "" || String.eqb rig "unknown")%bool = false.
Proof.
  intros H1 H2. apply orb_false_iff. split; now apply String.eqb_neq.
Qed.

Lemma same_rig_found (species zone_id rig_type : string) (tbl : list RigEffect.t)
    (r : RigEffect.t) :
  find (RigLearning.same_rig species zone_id rig_type) tbl = Some r ->
  RigLearning.same_rig species zone_id rig_type r = true.
Proof. intros H. exact (proj2 (find_some _ _ H)). Qed.

Lemma same_rig_refl (species zone_id rig_type : string) (n : Z) (w : R) (t : option Z) :
  RigLearning.same_rig species zone_id rig_type
    (RigEffect.mk species zone_id rig_type n w t) = true.
Proof.
  unfold RigLearning.same_rig. simpl. now rewrite !String.eqb_refl.
Qed.

(** The table-level effect of one rig update: the count of the rig grows by
    one and the weight is the capped logarithm of the new count. *)
Lemma rig_effect_upsert_counts (now : Z) (species zone_id rig_type : string)
    (tbl : list RigEffect.t) :
  0 <= prior_count species zone_id rig_type tbl ->
  exists row,
    RigLearning.rig_effect_upsert now species zone_id rig_type tbl
    = Ok (store (RigLearning.same_rig species zone_id rig_type) row tbl, row)
    /\ RigLearning.same_rig species zone_id rig_type row = true
    /\ RigEffect.success_count row = prior_count species zone_id rig_type tbl + 1
    /\ RigEffect.weight row = Rmin 3 (ln (IZR (RigEffect.success_count row) + 1)).
Proof.
  unfold prior_count, RigLearning.rig_effect_upsert.
  destruct (find _ tbl) as [r|] eqn:Hfind; intros Hprior; simpl.
  - rewrite math_log_pos by (apply IZR_lt; lia).
    eexists. split; [reflexivity|]. simpl. split; [|split].
    + exact (same_rig_found _ _ _ _ _ Hfind).
    + reflexivity.
    + now rewrite plus_IZR.
  - rewrite math_log_pos by (apply IZR_lt; lia).
    eexists. split; [reflexivity|]. simpl. split; [|split].
    + apply same_rig_refl.
    + reflexivity.
    + now rewrite plus_IZR.
Qed.

(** The same through the endpoint: a catch that carries a rig bumps the
    count of its rig by one, crab trap or not. *)
Lemma log_catch_rig_effect (env : Env) (catch_data : Main.CatchCreate) (db : DB)
    (rig : string) :
  let sp := Main.species catch_data in
  let zn := Main.zone_id catch_data in
  Main.presentation catch_data = Some rig ->
  rig <> "" -> rig <> "unknown" ->
  db_fails env CommitStep sp zn = false ->
  db_fails env RigEffectStep sp zn = false ->
  0 <= prior_count sp zn rig (rig_effects db) ->
  exists row,
    find (RigLearning.same_rig sp zn rig) (rig_effects (fst (Main.log_catch env catch_data db)))
    = Some row
    /\ RigEffect.success_count row = prior_count sp zn rig (rig_effects db) + 1
    /\ RigEffect.weight row = Rmin 3 (ln (IZR (RigEffect.success_count row) + 1)).
Proof.
  intros sp zn Hrig Hne Hunk Hcommit Hstep Hprior.
  rewrite (log_catch_committed _ _ _ Hcommit). cbn [fst].
  rewrite event_triggers_rig_effects, Hrig, (truthy_Some _ Hne).
  cbn [when Catch.species Catch.zone_id new_catch]. fold sp zn. rewrite Hstep.
  unfold ignore, bind, ret, RigLearning.update_rig_effect.
  rewrite (known_rig _ Hne Hunk). cbn [rig_effects set_catches].
  destruct (rig_effect_upsert_counts (utcnow env) sp zn rig (rig_effects db) Hprior)
    as (row & Hup & Hkey & Hcount & Hweight).
  rewrite Hup. cbn [fst rig_effects set_rig_effects].
  exists row. split; [|split; assumption].
  now apply find_store.
Qed.

(** C1, as stated, fails: the first crab-trap catch of a rig leaves its
    RigEffect row at success count 1, not at the 0.15 a crab trap is said to
    add. *)
Lemma crab_trap_rig_effect_counts_one :
  Main.is_crab_trap "blue_crab" (Some "crab_trap") = true
  /\ exists row,
       find (RigLearning.same_rig "blue_crab" "Zone 1" "crab_trap")
            (rig_effects (fst (Main.log_catch quiet_env crab_trap_catch empty_db)))
       = Some row
       /\ RigEffect.success_count row = 1
       /\ IZR (RigEffect.success_count row) <> (0 + 0.15)%R.
Proof.
  split; [reflexivity|].
  destruct (log_catch_rig_effect quiet_env crab_trap_catch empty_db "crab_trap")
    as (row & Hfind & Hcount & _);
    [reflexivity | discriminate | discriminate | reflexivity | reflexivity
    | unfold prior_count; simpl; lia |].
  exists row. split; [exact Hfind|].
  change (RigEffect.success_count row = 1) in Hcount.
  split; [exact Hcount|]. rewrite Hcount. intros Habs. lra.
Qed.

(** C1, amended: every catch event that carries a rig type other than
    'unknown' upserts the RigEffect row of (species, zone, rig type) with its
    success count increased by 1, for crab traps as for any other rig (the
    0.15 multiplier of crab traps goes to the two condition tables only),
    and with weight [min(3, ln(success_count + 1))]. *)
Theorem rig_effect_counts_each_rigged_catch (env : Env) (catch_data : Main.CatchCreate)
    (db : DB) (rig : string) :
  let sp := Main.species catch_data in
  let zn := Main.zone_id catch_data in
  Main.presentation catch_data = Some rig ->
  rig <> "" -> rig <> "unknown" ->
  db_fails env CommitStep sp zn = false ->
  db_fails env RigEffectStep sp zn = false ->
  0 <= prior_count sp zn rig (rig_effects db) ->
  exists row,
    find (RigLearning.same_rig sp zn rig) (rig_effects (fst (Main.log_catch env catch_data db)))
    = Some row
    /\ RigEffect.success_count row = prior_count sp zn rig (rig_effects db) + 1
    /\ RigEffect.weight row = Rmin 3 (ln (IZR (RigEffect.success_count row) + 1)).
Proof.
  exact (log_catch_rig_effect env catch_data db rig).
Qed.

(** The theorem at a crab-trap catch on the empty database. *)
Lemma rig_effect_counts_each_rigged_catch_witness :
  exists row,
    find (RigLearning.same_rig "blue_crab" "Zone 1" "crab_trap")
         (rig_effects (fst (Main.log_catch quiet_env crab_trap_catch empty_db)))
    = Some row
    /\ RigEffect.success_count row = 0 + 1
    /\ RigEffect.weight row = Rmin 3 (ln (IZR (RigEffect.success_count row) + 1)).
Proof.
  apply (rig_effect_counts_each_rigged_catch quiet_env crab_trap_catch empty_db "crab_trap").
  - reflexivity.
  - discriminate.
  - discriminate.
  - reflexivity.
  - reflexivity.
  - unfold prior_count. simpl. lia.
Defined.

(** C6: once the Catch row is committed, [log_catch] answers with the
    success response carrying the persisted id, and the row stays in the
    catch table, whichever of the learning updates, the score recompute and
    the tip update raise: the row is appended before the triggers run and
    their exception is caught. *)
Theorem catch_logged_despite_trigger_failures (env : Env) (catch_data : Main.CatchCreate)
    (db : DB) :
  db_fails env CommitStep (Main.species catch_data) (Main.zone_id catch_data) = false ->
  snd (Main.log_catch env catch_data db)
  = Main.Logged (Main.next_id (catches db)) (Main.species catch_data)
                (Main.zone_id catch_data) (catch_time env catch_data)
  /\ catches (fst (Main.log_catch env catch_data db))
     = (catches db ++ [new_catch env catch_data db])%list
  /\ Catch.id (new_catch env catch_data db) = Main.next_id (catches db)
  /\ Forall (fun c => Catch.id c < Main.next_id (catches db)) (catches db).
Proof.
  intros Hcommit. rewrite (log_catch_committed _ _ _ Hcommit). cbn [fst snd].
  split; [reflexivity|]. split; [|split; [reflexivity|]].
  - now rewrite event_triggers_frames_catches.
  - unfold Main.next_id. induction (catches db) as [|c l IH]; constructor.
    + simpl. lia.
    + eapply Forall_impl; [exact IH|]. simpl. intros a Ha. lia.
Qed.

(** The theorem in an environment where every trigger raises. *)
Lemma catch_logged_despite_trigger_failures_witness :
  snd (Main.log_catch failing_env jig_catch empty_db)
  = Main.Logged 1 "speckled_trout" "Zone 3" 0
  /\ catches (fst (Main.log_catch failing_env jig_catch empty_db))
     = [new_catch failing_env jig_catch empty_db].
Proof.
  destruct (catch_logged_despite_trigger_failures failing_env jig_catch empty_db eq_refl)
    as (Hresp & Hrows & _).
  split; [exact Hresp | exact Hrows].
Defined.

(** In that environment nothing but the catch is written. *)
Lemma failing_env_learns_nothing :
  rig_effects (fst (Main.log_catch failing_env jig_catch empty_db)) = []
  /\ bite_scores (fst (Main.log_catch failing_env jig_catch empty_db)) = [].
Proof.
  split; reflexivity.
Qed.

(** ** The triggers on a database with sound counts *)

Lemma bind_returns {A B : Type} (m : M A) (k : A -> M B) (db : DB) (a : A) :
  snd (m db) = Ok a -> bind m k db = k a (fst (m db)).
Proof.
  unfold bind. destruct (m db) as [db' r]. simpl. now intros ->.
Qed.

Lemma ignore_returns {A : Type} (m : M A) (db : DB) :
  returns m db -> snd (ignore m db) = Ok tt /\ fst (ignore m db) = fst (m db).
Proof.
  intros [a Ha]. unfold ignore. rewrite (bind_returns _ _ _ _ Ha). split; reflexivity.
Qed.

Lemma when_returns (cond : bool) (m : M unit) (db : DB) :
  (cond = true -> snd (m db) = Ok tt) -> snd (when cond m db) = Ok tt.
Proof.
  destruct cond; simpl; auto.
Qed.

Lemma update_rig_effect_returns (now : Z) (species zone_id : string)
    (rig_type : option string) (db : DB) :
  Forall (fun r => 0 <= RigEffect.success_count r) (rig_effects db) ->
  returns (RigLearning.update_rig_effect false now species zone_id rig_type) db.
Proof.
  intros Hpos. unfold returns, RigLearning.update_rig_effect.
  destruct rig_type as [rig|]; [|eexists; reflexivity].
  destruct (String.eqb rig "" || String.eqb rig "unknown")%bool; [eexists; reflexivity|].
  destruct (rig_effect_upsert_counts now species zone_id rig (rig_effects db))
    as (row & Hup & _).
  - unfold prior_count. destruct (find _ _) as [r|] eqn:Hfind; [|lia].
    rewrite Forall_forall in Hpos. apply Hpos.
    apply list_elem_of_In. exact (proj1 (find_some _ _ Hfind)).
  - rewrite Hup. eexists; reflexivity.
Qed.

Lemma zone_condition_upsert_returns (species zone_id tide clarity wind current : string)
    (m : R) (tbl : list ZoneConditionEffect.t) :
  (0 <= m)%R ->
  Forall (fun r => (0 <= ZoneConditionEffect.success_count r)%R) tbl ->
  exists res,
    ConditionLearning.zone_condition_upsert species zone_id tide clarity wind current m tbl
    = Ok res.
Proof.
  intros Hm Hpos. unfold ConditionLearning.zone_condition_upsert.
  destruct (find _ tbl) as [r|] eqn:Hfind; simpl.
  - rewrite Forall_forall in Hpos.
    assert (0 <= ZoneConditionEffect.success_count r)%R
      by (apply Hpos, list_elem_of_In; exact (proj1 (find_some _ _ Hfind))).
    rewrite math_log_pos by lra. eexists; reflexivity.
  - rewrite math_log_pos by lra. eexists; reflexivity.
Qed.

Lemma update_zone_condition_effect_returns (species zone_id : string)
    (c : ConditionLearning.conditions) (m : R) (db : DB) :
  (0 <= m)%R ->
  Forall (fun r => (0 <= ZoneConditionEffect.success_count r)%R) (zone_condition_effects db) ->
  returns (ConditionLearning.update_zone_condition_effect false species zone_id c m) db.
Proof.
  intros Hm Hpos. unfold returns, ConditionLearning.update_zone_condition_effect.
  destruct (String.eqb _ "unknown"); [eexists; reflexivity|].
  destruct (zone_condition_upsert_returns species zone_id
              (ConditionLearning.classify_tide (ConditionLearning.cond_tide_stage c))
              (ConditionLearning.classify_clarity (ConditionLearning.cond_clarity c))
              (ConditionLearning.classify_wind (ConditionLearning.cond_wind_direction c) species)
              (ConditionLearning.classify_current (ConditionLearning.cond_current_speed c))
              m (zone_condition_effects db) Hm Hpos) as [[tbl row] Hup].
  rewrite Hup. eexists; reflexivity.
Qed.

Lemma rig_condition_upsert_returns (species rig_type tide clarity : string)
    (m : R) (tbl : list RigConditionEffect.t) :
  (0 <= m)%R ->
  Forall (fun r => (0 <= RigConditionEffect.success_count r)%R) tbl ->
  exists res,
    ConditionLearning.rig_condition_upsert species rig_type tide clarity m tbl = Ok res.
Proof.
  intros Hm Hpos. unfold ConditionLearning.rig_condition_upsert.
  destruct (find _ tbl) as [r|] eqn:Hfind; simpl.
  - rewrite Forall_forall in Hpos.
    assert (0 <= RigConditionEffect.success_count r)%R
      by (apply Hpos, list_elem_of_In; exact (proj1 (find_some _ _ Hfind))).
    rewrite math_log_pos by lra. eexists; reflexivity.
  - rewrite math_log_pos by lra. eexists; reflexivity.
Qed.

Lemma update_rig_condition_effect_returns (species : string) (rig_type : option string)
    (c : ConditionLearning.conditions) (m : R) (db : DB) :
  (0 <= m)%R ->
  Forall (fun r => (0 <= RigConditionEffect.success_count r)%R) (rig_condition_effects db) ->
  returns (ConditionLearning.update_rig_condition_effect false species rig_type c m) db.
Proof.
  intros Hm Hpos. unfold returns, ConditionLearning.update_rig_condition_effect.
  destruct rig_type as [rig|]; [|eexists; reflexivity].
  destruct (String.eqb rig "" || String.eqb rig "unknown")%bool; [eexists; reflexivity|].
  destruct (String.eqb _ "unknown"); [eexists; reflexivity|].
  destruct (rig_condition_upsert_returns species rig
              (ConditionLearning.classify_tide (ConditionLearning.cond_tide_stage c))
              (ConditionLearning.classify_clarity (ConditionLearning.cond_clarity c))
              m (rig_condition_effects db) Hm Hpos) as [[tbl row] Hup].
  rewrite Hup. eexists; reflexivity.
Qed.

Lemma same_pair_refl (species zone_id : string) (s : R) (r c : string) (t : Z) :
  ScoreCache.same_pair species zone_id (BiteScore.mk species zone_id s r c t) = true.
Proof.
  unfold ScoreCache.same_pair. simpl. now rewrite !String.eqb_refl.
Qed.

(** A recompute that does not raise leaves the pair with a row whose
    confidence is that of the pair's catch count. *)
Lemma recalculate_bite_score_row (now : Z) (raw : DB -> string -> string -> R)
    (species zone_id : string) (force_recalc : bool) (db : DB) :
  exists row,
    ScoreCache.recalculate_bite_score false now raw species zone_id force_recalc db
    = (set_bite_scores db (store (ScoreCache.same_pair species zone_id) row (bite_scores db)),
       Ok (Recalculated.mk species zone_id (Hyperlocal.round1 (BiteScore.score row))
             (BiteScore.rating row) (BiteScore.confidence row)
             (Confidence.catch_count species zone_id (catches db))
             (Hyperlocal.round1 (raw db species zone_id))))
    /\ find (ScoreCache.same_pair species zone_id)
            (store (ScoreCache.same_pair species zone_id) row (bite_scores db)) = Some row
    /\ BiteScore.confidence row
       = ScoreCache.get_confidence_level (Confidence.catch_count species zone_id (catches db)).
Proof.
  unfold ScoreCache.recalculate_bite_score.
  destruct (find _ (bite_scores db)) as [old|] eqn:Hold;
    eexists; (split; [apply f_equal2; reflexivity|]); (split; [|reflexivity]);
    apply find_store.
  - exact (proj2 (find_some _ _ Hold)).
  - apply same_pair_refl.
Qed.

(** With no failing step and sound counts the triggers reach the recompute:
    afterwards the pair has a cached row, with the confidence of its catch
    count. *)
Lemma event_triggers_recompute (env : Env) (catch : Catch.t) (rig_type : option string)
    (db : DB) :
  healthy env ->
  counts_nonneg db ->
  exists row,
    find (ScoreCache.same_pair (Catch.species catch) (Catch.zone_id catch))
         (bite_scores (fst (Main.event_triggers env catch rig_type db))) = Some row
    /\ BiteScore.confidence row
       = ScoreCache.get_confidence_level
           (Confidence.catch_count (Catch.species catch) (Catch.zone_id catch) (catches db)).
Proof.
  intros Hh (Hrig & Hzce & Hrce).
  set (sp := Catch.species catch). set (zn := Catch.zone_id catch).
  assert (Hw : (0 <= (if Main.is_crab_trap sp rig_type then 0.15 else 1))%R)
    by (destruct (Main.is_crab_trap sp rig_type); lra).
  unfold Main.event_triggers. cbv zeta. fold sp zn. rewrite !Hh.
  (* 1. rig learning *)
  set (step1 := when _ _).
  assert (H1 : snd (step1 db) = Ok tt).
  { apply when_returns. intros _. apply ignore_returns.
    now apply update_rig_effect_returns. }
  rewrite (bind_returns _ _ _ _ H1).
  assert (F1z : zone_condition_effects (fst (step1 db)) = zone_condition_effects db)
    by (apply (frames_when zone_condition_effects); auto with frames).
  assert (F1r : rig_condition_effects (fst (step1 db)) = rig_condition_effects db)
    by (apply (frames_when rig_condition_effects); auto with frames).
  assert (F1c : catches (fst (step1 db)) = catches db)
    by (apply (frames_when catches); auto with frames).
  generalize dependent (fst (step1 db)). intros db1 F1z F1r F1c. clear step1 H1.
  (* 2. zone condition learning *)
  set (step2 := ignore _).
  assert (H2 : snd (step2 db1) = Ok tt).
  { apply ignore_returns. apply update_zone_condition_effect_returns; [exact Hw|].
    now rewrite F1z. }
  rewrite (bind_returns _ _ _ _ H2).
  assert (F2r : rig_condition_effects (fst (step2 db1)) = rig_condition_effects db)
    by (rewrite <- F1r; apply (frames_ignore rig_condition_effects); auto with frames).
  assert (F2c : catches (fst (step2 db1)) = catches db)
    by (rewrite <- F1c; apply (frames_ignore catches); auto with frames).
  generalize dependent (fst (step2 db1)). intros db2 F2r F2c. clear step2 H2.
  (* 3. rig condition learning *)
  set (step3 := when _ _).
  assert (H3 : snd (step3 db2) = Ok tt).
  { apply when_returns. intros _. apply ignore_returns.
    apply update_rig_condition_effect_returns; [exact Hw|]. now rewrite F2r. }
  rewrite (bind_returns _ _ _ _ H3).
  assert (F3c : catches (fst (step3 db2)) = catches db)
    by (rewrite <- F2c; apply (frames_when catches); auto with frames).
  generalize dependent (fst (step3 db2)). intros db3 F3c. clear step3 H3.
  (* 4. score recompute, 5. tip *)
  destruct (recalculate_bite_score_row (utcnow env) (calculate_zone_bite_score env)
              sp zn false db3) as (row & Hrec & Hfind & Hconf).
  set (step4 := ignore _).
  assert (H4 : snd (step4 db3) = Ok tt /\ fst (step4 db3)
               = set_bite_scores db3 (store (ScoreCache.same_pair sp zn) row (bite_scores db3))).
  { destruct (ignore_returns
                (ScoreCache.recalculate_bite_score false (utcnow env)
                   (calculate_zone_bite_score env) sp zn false) db3) as [Ha Hb].
    - eexists. now rewrite Hrec.
    - split; [exact Ha|]. unfold step4. rewrite Hb, Hrec. reflexivity. }
  destruct H4 as [H4 E4]. rewrite (bind_returns _ _ _ _ H4), E4.
  exists row. split; [|now rewrite Hconf, F3c].
  rewrite (frames_ignore bite_scores); [exact Hfind|auto with frames].
Qed.

(** ** The first end-to-end scenario *)

(** The model [CatchCreate] has no field [rig_type]: the key is dropped and
    the request carries no rig. *)
Lemma parse_scenario1 :
  Main.parse_CatchCreate scenario1_body
  = Some (Main.mkCatchCreate "speckled_trout" "Zone 3" (Some 1) None
            (Some 1715756400000000)).
Proof. vm_compute. reflexivity. Qed.

Lemma parse_scenario1_presentation :
  Main.parse_CatchCreate scenario1_body_presentation
  = Some (Main.mkCatchCreate "speckled_trout" "Zone 3" (Some 1) (Some "jig")
            (Some 1715756400000000)).
Proof. vm_compute. reflexivity. Qed.

Lemma empty_counts_nonneg (l : list Catch.t) : counts_nonneg (set_catches empty_db l).
Proof. repeat split; constructor. Qed.

Lemma ln_2_below_cap : Rmin 3 (ln (IZR 1 + 1)) = ln 2.
Proof.
  replace (IZR 1 + 1)%R with 2%R by lra.
  apply Rmin_right.
  assert (H : (ln 2 < 1)%R).
  { rewrite <- (ln_exp 1). apply ln_increasing; [lra|].
    pose proof (exp_ineq1 1). lra. }
  lra.
Qed.

(** C3, the code on the request of the scenario: one Catch row is written,
    without a rig; no RigEffect row exists afterwards, where the scenario
    expects the row (speckled_trout, Zone 3, jig) with success count 1; the
    BiteScore row of the pair exists with confidence [low]. *)
Theorem scenario1_rig_type_dropped (env : Env) :
  healthy env ->
  let db' := fst (Main.post_catches env scenario1_body empty_db) in
  (exists c, catches db' = [c] /\ Catch.rig_type c = None)
  /\ rig_effects db' = []
  /\ find (RigLearning.same_rig "speckled_trout" "Zone 3" "jig") (rig_effects db') = None
  /\ exists b,
       find (ScoreCache.same_pair "speckled_trout" "Zone 3") (bite_scores db') = Some b
       /\ BiteScore.confidence b = "low".
Proof.
  intros Hh db'. subst db'. unfold Main.post_catches. rewrite parse_scenario1.
  rewrite (log_catch_committed _ _ _ (Hh _ _ _)). cbn [fst].
  set (cd := Main.mkCatchCreate _ _ _ _ _).
  assert (Hrig : rig_effects
            (fst (Main.event_triggers env (new_catch env cd empty_db) (Main.presentation cd)
                    (set_catches empty_db (catches empty_db ++ [new_catch env cd empty_db]))))
          = []).
  { rewrite event_triggers_rig_effects. reflexivity. }
  split; [|split; [exact Hrig | split; [now rewrite Hrig|]]].
  - exists (new_catch env cd empty_db). split; [|reflexivity].
    now rewrite event_triggers_frames_catches.
  - destruct (event_triggers_recompute env (new_catch env cd empty_db) (Main.presentation cd)
                (set_catches empty_db (catches empty_db ++ [new_catch env cd empty_db]))
                Hh (empty_counts_nonneg _)) as (row & Hfind & Hconf).
    exists row. split; [exact Hfind|]. rewrite Hconf. reflexivity.
Qed.

(** The theorem in an environment where every step succeeds. *)
Lemma scenario1_rig_type_dropped_witness :
  rig_effects (fst (Main.post_catches quiet_env scenario1_body empty_db)) = [].
Proof.
  assert (Hh : healthy quiet_env) by (intros s sp zn; reflexivity).
  exact (proj1 (proj2 (scenario1_rig_type_dropped quiet_env Hh))).
Defined.

(** The same request with the rig under [presentation], the key the
    endpoint reads: the RigEffect row of the scenario is there, with success
    count 1 and weight [ln 2], and the BiteScore row has confidence [low]. *)
Lemma scenario1_with_presentation (env : Env) :
  healthy env ->
  let db' := fst (Main.post_catches env scenario1_body_presentation empty_db) in
  (exists c, catches db' = [c])
  /\ (exists row,
        find (RigLearning.same_rig "speckled_trout" "Zone 3" "jig") (rig_effects db') = Some row
        /\ RigEffect.success_count row = 1
        /\ RigEffect.weight row = ln 2)
  /\ exists b,
       find (ScoreCache.same_pair "speckled_trout" "Zone 3") (bite_scores db') = Some b
       /\ BiteScore.confidence b = "low".
Proof.
  intros Hh db'. subst db'. unfold Main.post_catches. rewrite parse_scenario1_presentation.
  set (cd := Main.mkCatchCreate _ _ _ _ _).
  split; [|split].
  - rewrite (log_catch_committed _ _ _ (Hh _ _ _)). cbn [fst].
    exists (new_catch env cd empty_db). now rewrite event_triggers_frames_catches.
  - destruct (log_catch_rig_effect env cd empty_db "jig")
      as (row & Hfind & Hcount & Hweight);
      [reflexivity | discriminate | discriminate | apply Hh | apply Hh
      | unfold prior_count; simpl; lia |].
    change (RigEffect.success_count row = 1) in Hcount.
    exists row. split; [exact Hfind|]. split; [exact Hcount|].
    rewrite Hweight, Hcount. apply ln_2_below_cap.
  - rewrite (log_catch_committed _ _ _ (Hh _ _ _)). cbn [fst].
    destruct (event_triggers_recompute env (new_catch env cd empty_db) (Main.presentation cd)
                (set_catches empty_db (catches empty_db ++ [new_catch env cd empty_db]))
                Hh (empty_counts_nonneg _)) as (row & Hfind & Hconf).
    exists row. split; [exact Hfind|]. rewrite Hconf. reflexivity.
Qed.

(** ** The predator modifier *)

Lemma hours_ago_now (t : Z) : hours_ago t t = 0%R.
Proof.
  unfold hours_ago, total_seconds. rewrite Z.sub_diag. lra.
Qed.

Lemma hours_ago_eq (now t1 t2 : Z) : t1 = t2 -> hours_ago now t1 = hours_ago now t2.
Proof. now intros ->. Qed.

Lemma max_by_time_spec (l : list PredatorLog.t) (p : PredatorLog.t) :
  In (Hyperlocal.max_by_time p l) (p :: l)
  /\ forall q, In q (p :: l) ->
       PredatorLog.time q <= PredatorLog.time (Hyperlocal.max_by_time p l).
Proof.
  unfold Hyperlocal.max_by_time. revert p.
  induction l as [|x l IH]; intros p; simpl.
  - split; [now left | intros q [<-|[]]; lia].
  - destruct (Z.ltb_spec (PredatorLog.time p) (PredatorLog.time x)) as [Hlt|Hge].
    + destruct (IH x) as [Hin Hmax]. split.
      * simpl in Hin. destruct Hin as [Hin|Hin]; [right; left; exact Hin | right; right; exact Hin].
      * intros q [<-|[<-|Hq]].
        -- specialize (Hmax x (or_introl eq_refl)). lia.
        -- apply Hmax. now left.
        -- apply Hmax. now right.
    + destruct (IH p) as [Hin Hmax]. split.
      * simpl in Hin. destruct Hin as [Hin|Hin]; [left; exact Hin | right; right; exact Hin].
      * intros q [<-|[<-|Hq]].
        -- apply Hmax. now left.
        -- specialize (Hmax p (or_introl eq_refl)). lia.
        -- apply Hmax. now right.
Qed.

Lemma recent_predators_In (cutoff : Z) (zone_id : string) (tbl : list PredatorLog.t)
    (p : PredatorLog.t) :
  In p (Hyperlocal.recent_predators cutoff zone_id tbl)
  <-> In p tbl /\ PredatorLog.zone p = zone_id /\ cutoff <= PredatorLog.time p.
Proof.
  unfold Hyperlocal.recent_predators. rewrite filter_In, andb_true_iff, String.eqb_eq, Z.leb_le.
  tauto.
Qed.

(** C7, as stated, fails: 'shrimp' is not a prey key of the code, so a
    shrimp score in a zone where a predator was just seen gets no penalty,
    where the claim gives it -8. *)
Lemma shrimp_gets_no_predator_penalty :
  In "shrimp" claimed_prey_species
  /\ Hyperlocal.recent_predators (0 - timedelta_hours 4) "Zone 3" (predator_logs db_dolphin)
     = [dolphin_at_0]
  /\ Hyperlocal.calculate_predator_modifier false 0 db_dolphin "shrimp" "Zone 3" = 0%R
  /\ Hyperlocal.calculate_predator_modifier false 0 db_dolphin "shrimp" "Zone 3"
     <> (-8 * Rmax 0 (1 - hours_ago 0 (PredatorLog.time dolphin_at_0) / 4))%R.
Proof.
  split; [simpl; tauto|]. split; [reflexivity|].
  assert (H0 : Hyperlocal.calculate_predator_modifier false 0 db_dolphin "shrimp" "Zone 3" = 0%R)
    by reflexivity.
  split; [exact H0|]. rewrite H0.
  change (PredatorLog.time dolphin_at_0) with 0. rewrite hours_ago_now.
  unfold Rmax. destruct (Rle_dec 0 (1 - 0 / 4)); intros Habs; lra.
Qed.

(** C7, amended: the prey species are speckled_trout, white_trout,
    menhaden, mullet and live_shrimp.  For any other species the predator
    modifier is 0; for a prey species it is 0 when the zone has no predator
    log within the last 4 hours, and otherwise -8 x max(0, 1 - hours_ago/4)
    for the most recent of the zone's predator logs of the last 4 hours. *)
Theorem predator_modifier_cases (now : Z) (db : DB) (species zone_id : string) :
  let recent :=
    Hyperlocal.recent_predators (now - timedelta_hours 4) zone_id (predator_logs db) in
  let modifier := Hyperlocal.calculate_predator_modifier false now db species zone_id in
  (Hyperlocal.is_prey_species species = true
   <-> In species ["speckled_trout"; "white_trout"; "menhaden"; "mullet"; "live_shrimp"])
  /\ (forall p, In p recent
        <-> In p (predator_logs db) /\ PredatorLog.zone p = zone_id
            /\ now - timedelta_hours 4 <= PredatorLog.time p)
  /\ (Hyperlocal.is_prey_species species = false -> modifier = 0%R)
  /\ (recent = [] -> modifier = 0%R)
  /\ (Hyperlocal.is_prey_species species = true ->
      forall p, In p recent ->
        (forall q, In q recent -> PredatorLog.time q <= PredatorLog.time p) ->
        modifier = (-8 * Rmax 0 (1 - hours_ago now (PredatorLog.time p) / 4))%R).
Proof.
  intros recent modifier. split; [|split; [|split; [|split]]].
  - unfold Hyperlocal.is_prey_species, Py.str_in. rewrite existsb_exists. split.
    + intros [x [Hin Heq]]. apply String.eqb_eq in Heq. now subst x.
    + intros Hin. exists species. split; [exact Hin | apply String.eqb_refl].
  - intros p. apply recent_predators_In.
  - intros Hprey. unfold modifier, Hyperlocal.calculate_predator_modifier.
    now rewrite Hprey.
  - intros Hnone. unfold modifier, Hyperlocal.calculate_predator_modifier.
    fold recent. rewrite Hnone. destruct (negb _); reflexivity.
  - intros Hprey p Hin Hmax. unfold modifier, Hyperlocal.calculate_predator_modifier.
    rewrite Hprey. simpl. fold recent.
    destruct recent as [|p0 l]; [destruct Hin|].
    destruct (max_by_time_spec l p0) as [Hin' Hmax'].
    rewrite (hours_ago_eq now (PredatorLog.time (Hyperlocal.max_by_time p0 l))
               (PredatorLog.time p)); [reflexivity|].
    specialize (Hmax _ Hin'). specialize (Hmax' _ Hin). lia.
Qed.

(** The theorem on the third scenario: a dolphin seen in Zone 3 costs
    speckled trout 6 points one hour later, and nothing five hours later. *)
Lemma predator_modifier_cases_witness :
  Hyperlocal.calculate_predator_modifier false (timedelta_hours 1) db_dolphin
    "speckled_trout" "Zone 3" = (-6)%R
  /\ Hyperlocal.calculate_predator_modifier false (timedelta_hours 5) db_dolphin
       "speckled_trout" "Zone 3" = 0%R.
Proof.
  split.
  - destruct (predator_modifier_cases (timedelta_hours 1) db_dolphin "speckled_trout" "Zone 3")
      as (_ & _ & _ & _ & H).
    rewrite (H eq_refl dolphin_at_0).
    + change (PredatorLog.time dolphin_at_0) with 0.
      assert (Hh : hours_ago (timedelta_hours 1) 0 = 1%R).
      { unfold hours_ago, total_seconds.
        change (timedelta_hours 1 - 0) with 3600000000. lra. }
      rewrite Hh. unfold Rmax. destruct (Rle_dec 0 (1 - 1 / 4)); lra.
    + left. reflexivity.
    + intros q [<-|[]]. lia.
  - destruct (predator_modifier_cases (timedelta_hours 5) db_dolphin "speckled_trout" "Zone 3")
      as (_ & _ & _ & H & _).
    apply H. reflexivity.
Defined.

(** ** The recent-activity modifier *)






















(** ** The periodic recalculation *)

Lemma product_In (l zs : list string) (sp zone : string) :
  In (sp, zone) (Scheduler.product l zs) <-> In sp l /\ In zone zs.
Proof.
  unfold Scheduler.product. rewrite in_flat_map. split.
  - intros [x [Hx Hin]]. apply in_map_iff in Hin. destruct Hin as [z [Heq Hz]].
    injection Heq as <- <-. now split.
  - intros [Hsp Hz]. exists sp. split; [exact Hsp|]. apply in_map_iff. now exists zone.
Qed.

Lemma recent_catch_pairs_In (cutoff : Z) (db : DB) (sp zone : string) :
  In (sp, zone) (Scheduler.recent_catch_pairs cutoff db)
  <-> exists c, In c (catches db) /\ cutoff <= Catch.timestamp c
                /\ Catch.species c = sp /\ Catch.zone_id c = zone.
Proof.
  unfold Scheduler.recent_catch_pairs.
  rewrite <- list_elem_of_In, elem_of_remove_dups, list_elem_of_In, in_map_iff. split.
  - intros [c [Heq Hc]]. apply filter_In in Hc. destruct Hc as [Hin Ht].
    injection Heq as <- <-. exists c. apply Z.leb_le in Ht. auto.
  - intros [c (Hin & Ht & <- & <-)]. exists c. split; [reflexivity|].
    apply filter_In. split; [exact Hin | now apply Z.leb_le].
Qed.

Lemma recent_predator_zones_In (cutoff : Z) (db : DB) (zone : string) :
  In zone (Scheduler.recent_predator_zones cutoff db)
  <-> exists p, In p (predator_logs db) /\ cutoff <= PredatorLog.time p
                /\ PredatorLog.zone p = zone.
Proof.
  unfold Scheduler.recent_predator_zones.
  rewrite <- list_elem_of_In, elem_of_remove_dups, list_elem_of_In, in_map_iff. split.
  - intros [p [Heq Hp]]. apply filter_In in Hp. destruct Hp as [Hin Ht].
    exists p. apply Z.leb_le in Ht. auto.
  - intros [p (Hin & Ht & Hz)]. exists p. split; [exact Hz|].
    apply filter_In. split; [exact Hin | now apply Z.leb_le].
Qed.

(** What the job selects: the pairs of the recent catches and the four prey
    species in every zone of a recent predator log; with neither, the
    twenty-five pairs of the Tier 1 species and the five zones. *)
Lemma pairs_to_recalc_spec (now : Z) (db : DB) (sp zone : string) :
  let cutoff := now - timedelta_hours 6 in
  let by_catch (s z : string) :=
    exists c, In c (catches db) /\ cutoff <= Catch.timestamp c
              /\ Catch.species c = s /\ Catch.zone_id c = z in
  let by_predator (s z : string) :=
    In s Scheduler.prey_species
    /\ exists p, In p (predator_logs db) /\ cutoff <= PredatorLog.time p
                 /\ PredatorLog.zone p = z in
  (sp, zone) ∈ Scheduler.pairs_to_recalc now db
  <-> by_catch sp zone \/ by_predator sp zone
      \/ ((forall s z, ~ by_catch s z) /\ (forall s z, ~ by_predator s z)
          /\ In sp Scheduler.TIER_1_SPECIES /\ In zone Scheduler.zones).
Proof.
  intros cutoff by_catch by_predator. unfold Scheduler.pairs_to_recalc. fold cutoff.
  set (pairs := (list_to_set _ ∪ list_to_set _ : gset (string * string))).
  assert (Hpairs : forall s z, (s, z) ∈ pairs <-> by_catch s z \/ by_predator s z).
  { intros s z. unfold pairs.
    rewrite elem_of_union, !elem_of_list_to_set, !list_elem_of_In,
      recent_catch_pairs_In, in_flat_map.
    apply or_iff_compat_l. split.
    - intros [z' [Hz' Hin]]. apply in_map_iff in Hin. destruct Hin as [s' [Heq Hs']].
      injection Heq as <- <-. split; [exact Hs'|]. now apply recent_predator_zones_In.
    - intros [Hs Hp]. exists z. split; [now apply recent_predator_zones_In|].
      apply in_map_iff. now exists s. }
  destruct (decide (pairs = ∅)) as [Hempty|Hne].
  - rewrite elem_of_list_to_set, list_elem_of_In, product_In. split.
    + intros [Hsp Hz]. right. right. repeat split; try assumption.
      * intros s z Hc. apply (not_elem_of_empty (C:=gset (string * string)) (s, z)).
        rewrite <- Hempty. apply Hpairs. now left.
      * intros s z Hp. apply (not_elem_of_empty (C:=gset (string * string)) (s, z)).
        rewrite <- Hempty. apply Hpairs. now right.
    + intros [Hc|[Hp|(_ & _ & Hsp & Hz)]]; [exfalso|exfalso|now split].
      * apply (not_elem_of_empty (C:=gset (string * string)) (sp, zone)).
        rewrite <- Hempty. apply Hpairs. now left.
      * apply (not_elem_of_empty (C:=gset (string * string)) (sp, zone)).
        rewrite <- Hempty. apply Hpairs. now right.
  - rewrite Hpairs. split; [tauto|].
    intros [Hc|[Hp|(Hnc & Hnp & _)]]; [now left | now right | exfalso].
    apply Hne. apply set_eq. intros [s z]. rewrite Hpairs. split.
    + intros [Hc|Hp]; [destruct (Hnc _ _ Hc) | destruct (Hnp _ _ Hp)].
    + intros Hin. destruct (not_elem_of_empty (C:=gset (string * string)) _ Hin).
Qed.

(** C9, the code on a database whose only activity is a bait log one hour
    old: the job sees the bait zone, selects no pair for it, and falls back
    to the Tier 1 species in all five zones as it does on an empty
    database; in general the bait logs never change the selection. *)
Theorem periodic_selection_ignores_bait (now : Z) (db : DB) (bait : list BaitLog.t) :
  Scheduler.recent_bait_zones (timedelta_hours 1 - timedelta_hours 6) db_bait_only = ["Zone 2"]
  /\ Scheduler.pairs_to_recalc (timedelta_hours 1) db_bait_only
     = list_to_set (Scheduler.product Scheduler.TIER_1_SPECIES Scheduler.zones)
  /\ Scheduler.pairs_to_recalc (timedelta_hours 1) db_bait_only
     = Scheduler.pairs_to_recalc (timedelta_hours 1) empty_db
  /\ Scheduler.pairs_to_recalc now (set_bait_logs db bait) = Scheduler.pairs_to_recalc now db.
Proof.
  assert (Hsel : forall d, catches d = [] -> predator_logs d = [] ->
            Scheduler.pairs_to_recalc (timedelta_hours 1) d
            = list_to_set (Scheduler.product Scheduler.TIER_1_SPECIES Scheduler.zones)).
  { intros d Hc Hp. unfold Scheduler.pairs_to_recalc, Scheduler.recent_catch_pairs,
      Scheduler.recent_predator_zones. rewrite Hc, Hp. simpl.
    rewrite decide_True; [reflexivity|]. set_solver. }
  split; [reflexivity|]. split; [now apply Hsel|]. split; [|reflexivity].
  rewrite !Hsel; reflexivity.
Qed.

(** The job writes to the score cache and the tips only. *)
Lemma periodic_score_recalculation_frames {X : Type} (f : DB -> X) (env : Env) (db : DB) :
  (forall d l, f (set_bite_scores d l) = f d) ->
  (forall d l, f (set_species_zone_tips d l) = f d) ->
  f (Scheduler.periodic_score_recalculation env db) = f db.
Proof.
  intros Hb Ht. unfold Scheduler.periodic_score_recalculation.
  generalize (elements (Scheduler.pairs_to_recalc (utcnow env) db)).
  intros l. revert db. induction l as [|[sp zone] l IH]; intros db; simpl; [reflexivity|].
  rewrite IH. unfold Scheduler.recalc_pair.
  apply frames_try_except_log. auto 10 with frames.
Qed.

(** * Further properties of the engine *)

(** ** Tables as maps from keys to rows *)

Section Keyed.

Context {A K : Type} (k : A -> K) (key : A -> bool) (k0 : K).
Hypothesis key_spec : forall x, key x = true <-> k x = k0.

Lemma map_replace_first (row : A) (tbl : list A) :
  k row = k0 -> map k (replace_first key row tbl) = map k tbl.
Proof.
  intros Hrow. induction tbl as [|x tbl IH]; simpl; [reflexivity|].
  destruct (key x) eqn:Hx; simpl.
  - apply key_spec in Hx. now rewrite Hrow, Hx.
  - now rewrite IH.
Qed.

Lemma find_None_fresh_key (tbl : list A) :
  find key tbl = None -> ~ In k0 (map k tbl).
Proof.
  intros Hfind Hin. apply in_map_iff in Hin. destruct Hin as [x [Hk Hx]].
  apply key_spec in Hk. apply (find_none _ _ Hfind) in Hx. congruence.
Qed.

(** [store] keeps the keys of a table pairwise distinct. *)
Lemma NoDup_store (row : A) (tbl : list A) :
  k row = k0 -> NoDup (map k tbl) -> NoDup (map k (store key row tbl)).
Proof.
  intros Hrow Hnd. unfold store. destruct (find key tbl) eqn:Hfind.
  - now rewrite map_replace_first.
  - rewrite map_app. simpl. rewrite Hrow.
    apply NoDup_app. split; [exact Hnd|]. split.
    + intros x Hx Hx'. apply list_elem_of_In in Hx. apply list_elem_of_In in Hx'.
      destruct Hx' as [<-|[]]. now apply (find_None_fresh_key tbl).
    + apply NoDup_singleton.
Qed.

(** [store] leaves the query for any other key as it was. *)
Lemma find_store_other (key' : A -> bool) (row : A) (tbl : list A) :
  (forall x, key x = true -> key' x = false) ->
  key' row = false ->
  find key' (store key row tbl) = find key' tbl.
Proof.
  intros Hdisj Hrow. unfold store. destruct (find key tbl) eqn:Hfind.
  - clear Hfind. induction tbl as [|x tbl IH]; simpl; [reflexivity|].
    destruct (key x) eqn:Hx; simpl.
    + now rewrite Hrow, (Hdisj _ Hx).
    + destruct (key' x); [reflexivity | exact IH].
  - clear Hfind. induction tbl as [|x tbl IH]; simpl.
    + now rewrite Hrow.
    + destruct (key' x); [reflexivity | exact IH].
Qed.

End Keyed.

Lemma same_rig_key (species zone_id rig_type : string) (r : RigEffect.t) :
  RigLearning.same_rig species zone_id rig_type r = true
  <-> rig_key r = (species, zone_id, rig_type).
Proof.
  unfold RigLearning.same_rig, rig_key.
  rewrite !andb_true_iff, !String.eqb_eq. split.
  - intros [[-> ->] ->]. reflexivity.
  - intros [= -> -> ->]. auto.
Qed.

Lemma same_zone_condition_key (species zone_id tide clarity wind current : string)
    (r : ZoneConditionEffect.t) :
  ConditionLearning.same_zone_condition species zone_id tide clarity wind current r = true
  <-> zone_condition_key r = (species, zone_id, (tide, clarity, wind, current)).
Proof.
  unfold ConditionLearning.same_zone_condition, zone_condition_key.
  rewrite !andb_true_iff, !String.eqb_eq. split.
  - intros [[[[[-> ->] ->] ->] ->] ->]. reflexivity.
  - intros [= -> -> -> -> -> ->]. auto 10.
Qed.

Lemma same_rig_condition_key (species rig_type tide clarity : string)
    (r : RigConditionEffect.t) :
  ConditionLearning.same_rig_condition species rig_type tide clarity r = true
  <-> rig_condition_key r = (species, rig_type, (tide, clarity)).
Proof.
  unfold ConditionLearning.same_rig_condition, rig_condition_key.
  rewrite !andb_true_iff, !String.eqb_eq. split.
  - intros [[[-> ->] ->] ->]. reflexivity.
  - intros [= -> -> -> ->]. auto.
Qed.

Lemma same_rig_other (species zone_id rig_type species' zone_id' rig_type' : string)
    (r : RigEffect.t) :
  (species', zone_id', rig_type') <> (species, zone_id, rig_type) ->
  RigLearning.same_rig species zone_id rig_type r = true ->
  RigLearning.same_rig species' zone_id' rig_type' r = false.
Proof.
  intros Hne Hr. apply same_rig_key in Hr.
  destruct (RigLearning.same_rig species' zone_id' rig_type' r) eqn:Hr'; [|reflexivity].
  apply same_rig_key in Hr'. congruence.
Qed.

(** ** Looking up what the rig learner wrote *)

(** X1: after an update for a rig, [get_rig_weight] of that rig is the
    capped logarithm of the new count, and [get_rig_weight] of every other
    (species, zone, rig) is what it was. *)
Theorem get_rig_weight_after_update (db : DB) (now : Z) (species zone_id rig : string) :
  rig <> "" -> rig <> "unknown" ->
  0 <= prior_count species zone_id rig (rig_effects db) ->
  let db' := fst (RigLearning.update_rig_effect false now species zone_id (Some rig) db) in
  RigLearning.get_rig_weight db' species zone_id rig
  = Rmin 3 (ln (IZR (prior_count species zone_id rig (rig_effects db) + 1) + 1))
  /\ forall species' zone_id' rig',
       (species', zone_id', rig') <> (species, zone_id, rig) ->
       RigLearning.get_rig_weight db' species' zone_id' rig'
       = RigLearning.get_rig_weight db species' zone_id' rig'.
Proof.
  intros Hne Hunk Hprior db'. subst db'.
  unfold RigLearning.update_rig_effect. rewrite (known_rig _ Hne Hunk).
  destruct (rig_effect_upsert_counts now species zone_id rig (rig_effects db) Hprior)
    as (row & Hup & Hkey & Hcount & Hweight).
  rewrite Hup. unfold RigLearning.get_rig_weight. cbn [fst rig_effects set_rig_effects].
  split.
  - rewrite (find_store _ _ _ Hkey). now rewrite Hweight, Hcount.
  - intros species' zone_id' rig' Hother.
    rewrite (find_store_other (RigLearning.same_rig species zone_id rig)); [reflexivity| |].
    + intros x. now apply same_rig_other.
    + now apply (same_rig_other species zone_id rig).
Qed.

(** The theorem for the first jig catch of a pair. *)
Lemma get_rig_weight_after_update_witness :
  RigLearning.get_rig_weight
    (fst (RigLearning.update_rig_effect false 0 "speckled_trout" "Zone 3" (Some "jig") empty_db))
    "speckled_trout" "Zone 3" "jig"
  = Rmin 3 (ln (IZR (0 + 1) + 1)).
Proof.
  refine (proj1 (get_rig_weight_after_update empty_db 0 "speckled_trout" "Zone 3" "jig"
                   _ _ _)).
  - discriminate.
  - discriminate.
  - unfold prior_count. simpl. lia.
Defined.

(** X2: each of the three learning updaters keeps the keys of the three
    tables pairwise distinct, whatever its arguments and whether or not it
    raises. *)
Theorem learning_keys_stay_unique (db : DB) (db_fails : bool) (now : Z)
    (species zone_id : string) (rig_type : option string)
    (c : ConditionLearning.conditions) (weight_multiplier : R) :
  learning_keys_unique db ->
  learning_keys_unique
    (fst (RigLearning.update_rig_effect db_fails now species zone_id rig_type db))
  /\ learning_keys_unique
       (fst (ConditionLearning.update_zone_condition_effect db_fails species zone_id c
               weight_multiplier db))
  /\ learning_keys_unique
       (fst (ConditionLearning.update_rig_condition_effect db_fails species rig_type c
               weight_multiplier db)).
Proof.
  intros (Hrig & Hzce & Hrce). split; [|split].
  - unfold RigLearning.update_rig_effect.
    destruct rig_type as [r|]; [|repeat split; assumption].
    destruct (String.eqb r "" || String.eqb r "unknown")%bool; [repeat split; assumption|].
    destruct db_fails; [repeat split; assumption|].
    unfold RigLearning.rig_effect_upsert.
    destruct (Py.math_log _); [|repeat split; assumption].
    cbn [fst rig_effects zone_condition_effects rig_condition_effects set_rig_effects].
    repeat split; try assumption.
    apply (NoDup_store rig_key _ (species, zone_id, r)); [apply same_rig_key| |exact Hrig].
    destruct (find _ (rig_effects db)) as [x|] eqn:Hfind; [|reflexivity].
    apply (same_rig_key species zone_id r x). exact (proj2 (find_some _ _ Hfind)).
  - unfold ConditionLearning.update_zone_condition_effect.
    destruct (String.eqb _ "unknown"); [repeat split; assumption|].
    destruct db_fails; [repeat split; assumption|].
    unfold ConditionLearning.zone_condition_upsert.
    destruct (Py.math_log _); [|repeat split; assumption].
    cbn [fst rig_effects zone_condition_effects rig_condition_effects
         set_zone_condition_effects].
    repeat split; try assumption.
    eapply (NoDup_store zone_condition_key); [apply same_zone_condition_key| |exact Hzce].
    destruct (find _ (zone_condition_effects db)) as [x|] eqn:Hfind; [|reflexivity].
    eapply same_zone_condition_key. exact (proj2 (find_some _ _ Hfind)).
  - unfold ConditionLearning.update_rig_condition_effect.
    destruct rig_type as [r|]; [|repeat split; assumption].
    destruct (String.eqb r "" || String.eqb r "unknown")%bool; [repeat split; assumption|].
    destruct (String.eqb _ "unknown"); [repeat split; assumption|].
    destruct db_fails; [repeat split; assumption|].
    unfold ConditionLearning.rig_condition_upsert.
    destruct (Py.math_log _); [|repeat split; assumption].
    cbn [fst rig_effects zone_condition_effects rig_condition_effects
         set_rig_condition_effects].
    repeat split; try assumption.
    eapply (NoDup_store rig_condition_key); [apply same_rig_condition_key| |exact Hrce].
    destruct (find _ (rig_condition_effects db)) as [x|] eqn:Hfind; [|reflexivity].
    eapply same_rig_condition_key. exact (proj2 (find_some _ _ Hfind)).
Qed.

(** The theorem at the empty database. *)
Lemma learning_keys_stay_unique_witness :
  learning_keys_unique
    (fst (RigLearning.update_rig_effect false 0 "speckled_trout" "Zone 3" (Some "jig")
            empty_db)).
Proof.
  assert (H : learning_keys_unique empty_db) by (repeat split; constructor).
  exact (proj1 (learning_keys_stay_unique empty_db false 0 "speckled_trout" "Zone 3"
                  (Some "jig")
                  (ConditionLearning.mkConditions (Some "incoming") (Some "clean") None None)
                  1%R H)).
Defined.

(** ** Counting up, and the cap *)

(** One update of a known rig on a table with a sound count. *)
Lemma update_rig_effect_known (db : DB) (now : Z) (species zone_id rig : string) :
  rig <> "" -> rig <> "unknown" ->
  0 <= prior_count species zone_id rig (rig_effects db) ->
  exists row,
    RigLearning.update_rig_effect false now species zone_id (Some rig) db
    = (set_rig_effects db (store (RigLearning.same_rig species zone_id rig) row (rig_effects db)),
       Ok (Some row))
    /\ RigLearning.same_rig species zone_id rig row = true
    /\ RigEffect.success_count row = prior_count species zone_id rig (rig_effects db) + 1
    /\ RigEffect.weight row = Rmin 3 (ln (IZR (RigEffect.success_count row) + 1))
    /\ RigEffect.last_used row = Some now.
Proof.
  intros Hne Hunk Hprior. unfold RigLearning.update_rig_effect.
  rewrite (known_rig _ Hne Hunk).
  unfold prior_count in *. unfold RigLearning.rig_effect_upsert.
  destruct (find _ (rig_effects db)) as [r|] eqn:Hfind; cbn [RigEffect.success_count].
  - rewrite math_log_pos by (apply IZR_lt; lia).
    eexists. split; [reflexivity|]. cbn.
    split; [|split; [|split]]; try reflexivity.
    + exact (same_rig_found _ _ _ _ _ Hfind).
    + now rewrite plus_IZR.
  - rewrite math_log_pos by (apply IZR_lt; lia).
    eexists. split; [reflexivity|]. cbn.
    split; [apply same_rig_refl|]. split; [reflexivity|]. split; [|reflexivity].
    now rewrite plus_IZR.
Qed.

Lemma rig_updates_snoc (times : list Z) (t : Z) (species zone_id rig : string) (db : DB) :
  rig_updates (times ++ [t]) species zone_id rig db
  = fst (RigLearning.update_rig_effect false t species zone_id (Some rig)
           (rig_updates times species zone_id rig db)).
Proof.
  unfold rig_updates. now rewrite fold_left_app.
Qed.

Lemma rig_updates_prior (times : list Z) (species zone_id rig : string) (db : DB) :
  rig <> "" -> rig <> "unknown" ->
  0 <= prior_count species zone_id rig (rig_effects db) ->
  prior_count species zone_id rig (rig_effects (rig_updates times species zone_id rig db))
  = prior_count species zone_id rig (rig_effects db) + Z.of_nat (length times).
Proof.
  intros Hne Hunk Hprior. induction times as [|t times IH] using rev_ind.
  - simpl. lia.
  - rewrite rig_updates_snoc, length_app, Nat2Z.inj_add. simpl length.
    destruct (update_rig_effect_known (rig_updates times species zone_id rig db) t
                species zone_id rig Hne Hunk) as (row & Hup & Hkey & Hcount & _);
      [rewrite IH; lia|].
    rewrite Hup. cbn [fst rig_effects set_rig_effects].
    unfold prior_count at 1. rewrite (find_store _ _ _ Hkey), Hcount, IH. lia.
Qed.

(** X3: [n] updates for one rig, at any instants, raise its success count
    by [n]; after the last of them the row carries the capped logarithm of
    that count and the instant of the last update. *)
Theorem rig_updates_accumulate (times : list Z) (t : Z) (species zone_id rig : string)
    (db : DB) :
  rig <> "" -> rig <> "unknown" ->
  0 <= prior_count species zone_id rig (rig_effects db) ->
  let n := Z.of_nat (length (times ++ [t])) in
  exists row,
    find (RigLearning.same_rig species zone_id rig)
         (rig_effects (rig_updates (times ++ [t]) species zone_id rig db)) = Some row
    /\ RigEffect.success_count row = prior_count species zone_id rig (rig_effects db) + n
    /\ RigEffect.weight row = Rmin 3 (ln (IZR (RigEffect.success_count row) + 1))
    /\ RigEffect.last_used row = Some t.
Proof.
  intros Hne Hunk Hprior n. subst n. rewrite rig_updates_snoc.
  pose proof (rig_updates_prior times species zone_id rig db Hne Hunk Hprior) as Hn.
  destruct (update_rig_effect_known (rig_updates times species zone_id rig db) t
              species zone_id rig Hne Hunk) as (row & Hup & Hkey & Hcount & Hweight & Hlast);
    [rewrite Hn; lia|].
  rewrite Hup. cbn [fst rig_effects set_rig_effects].
  exists row. rewrite (find_store _ _ _ Hkey). repeat split; try assumption.
  rewrite Hcount, Hn, length_app, Nat2Z.inj_add. simpl length. lia.
Qed.

(** Three jig catches from the empty database. *)
Lemma rig_updates_accumulate_witness :
  exists row,
    find (RigLearning.same_rig "speckled_trout" "Zone 3" "jig")
         (rig_effects (rig_updates ([10; 20] ++ [30]) "speckled_trout" "Zone 3" "jig" empty_db))
    = Some row
    /\ RigEffect.success_count row = 0 + 3
    /\ RigEffect.weight row = Rmin 3 (ln (IZR (RigEffect.success_count row) + 1))
    /\ RigEffect.last_used row = Some 30.
Proof.
  apply (rig_updates_accumulate [10; 20] 30 "speckled_trout" "Zone 3" "jig" empty_db).
  - discriminate.
  - discriminate.
  - unfold prior_count. simpl. lia.
Defined.

Lemma exp_double_lower (x c c' : R) :
  (0 <= c)%R -> (c <= exp x)%R -> (c' <= c * c)%R -> (c' <= exp (x + x))%R.
Proof.
  intros Hc Hx Hc'. rewrite exp_plus. nra.
Qed.

Lemma exp_double_upper (x c c' : R) :
  (exp x <= c)%R -> (c * c <= c')%R -> (exp (x + x) <= c')%R.
Proof.
  intros Hx Hc'. rewrite exp_plus. pose proof (exp_pos x). nra.
Qed.

(** Eleven squarings of [1 + 3/2048 <= exp (3/2048)]. *)
Lemma exp_3_lower : (20 < exp 3)%R.
Proof.
  assert (H0 : (2051/2048 <= exp (3/2048))%R)
    by (pose proof (exp_ineq1_le (3/2048)); lra).
  assert (H1 : (1002931833267/1000000000000 <= exp (3/1024))%R).
  { replace (3/1024)%R with (3/2048 + 3/2048)%R by lra.
    apply (exp_double_lower _ (2051/2048)); [lra | exact H0 | lra]. }
  assert (H2 : (50293613109/50000000000 <= exp (3/512))%R).
  { replace (3/512)%R with (3/1024 + 3/1024)%R by lra.
    apply (exp_double_lower _ (1002931833267/1000000000000)); [lra | exact H1 | lra]. }
  assert (H3 : (1011779007823/1000000000000 <= exp (3/256))%R).
  { replace (3/256)%R with (3/512 + 3/512)%R by lra.
    apply (exp_double_lower _ (50293613109/50000000000)); [lra | exact H2 | lra]. }
  assert (H4 : (1023696760671/1000000000000 <= exp (3/128))%R).
  { replace (3/128)%R with (3/256 + 3/256)%R by lra.
    apply (exp_double_lower _ (1011779007823/1000000000000)); [lra | exact H3 | lra]. }
  assert (H5 : (65497191113/62500000000 <= exp (3/64))%R).
  { replace (3/64)%R with (3/128 + 3/128)%R by lra.
    apply (exp_double_lower _ (1023696760671/1000000000000)); [lra | exact H4 | lra]. }
  assert (H6 : (219641960637/200000000000 <= exp (3/32))%R).
  { replace (3/32)%R with (3/64 + 3/64)%R by lra.
    apply (exp_double_lower _ (65497191113/62500000000)); [lra | exact H5 | lra]. }
  assert (H7 : (1206064771811/1000000000000 <= exp (3/16))%R).
  { replace (3/16)%R with (3/32 + 3/32)%R by lra.
    apply (exp_double_lower _ (219641960637/200000000000)); [lra | exact H6 | lra]. }
  assert (H8 : (1454592233803/1000000000000 <= exp (3/8))%R).
  { replace (3/8)%R with (3/16 + 3/16)%R by lra.
    apply (exp_double_lower _ (1206064771811/1000000000000)); [lra | exact H7 | lra]. }
  assert (H9 : (26447982083/12500000000 <= exp (3/4))%R).
  { replace (3/4)%R with (3/8 + 3/8)%R by lra.
    apply (exp_double_lower _ (1454592233803/1000000000000)); [lra | exact H8 | lra]. }
  assert (H10 : (4476772840081/1000000000000 <= exp (3/2))%R).
  { replace (3/2)%R with (3/4 + 3/4)%R by lra.
    apply (exp_double_lower _ (26447982083/12500000000)); [lra | exact H9 | lra]. }
  assert (H11 : (10020747530843/500000000000 <= exp 3)%R).
  { replace 3%R with (3/2 + 3/2)%R by lra.
    apply (exp_double_lower _ (4476772840081/1000000000000)); [lra | exact H10 | lra]. }
  lra.
Qed.

(** Seven squarings of [exp (3/128) <= 128/125]. *)
Lemma exp_3_upper : (exp 3 < 21)%R.
Proof.
  assert (H0 : (exp (3/128) <= 128/125)%R).
  { pose proof (exp_ineq1_le (- (3/128))) as H. rewrite exp_Ropp in H.
    pose proof (exp_pos (3/128)) as Hpos.
    assert (Hinv : (exp (3/128) * / exp (3/128) = 1)%R) by (apply Rinv_r; lra).
    nra. }
  assert (H1 : (exp (3/64) <= 16384/15625)%R).
  { replace (3/64)%R with (3/128 + 3/128)%R by lra.
    apply (exp_double_upper _ (128/125)); [exact H0 | lra]. }
  assert (H2 : (exp (3/32) <= 268435456/244140625)%R).
  { replace (3/32)%R with (3/64 + 3/64)%R by lra.
    apply (exp_double_upper _ (16384/15625)); [exact H1 | lra]. }
  assert (H3 : (exp (3/16) <= 241785163923/200000000000)%R).
  { replace (3/16)%R with (3/32 + 3/32)%R by lra.
    apply (exp_double_upper _ (268435456/244140625)); [exact H2 | lra]. }
  assert (H4 : (exp (3/8) <= 365375409333/250000000000)%R).
  { replace (3/8)%R with (3/16 + 3/16)%R by lra.
    apply (exp_double_upper _ (241785163923/200000000000)); [exact H3 | lra]. }
  assert (H5 : (exp (3/4) <= 85439481437/40000000000)%R).
  { replace (3/4)%R with (3/8 + 3/8)%R by lra.
    apply (exp_double_upper _ (365375409333/250000000000)); [exact H4 | lra]. }
  assert (H6 : (exp (3/2) <= 114061015441/25000000000)%R).
  { replace (3/2)%R with (3/4 + 3/4)%R by lra.
    apply (exp_double_upper _ (85439481437/40000000000)); [exact H5 | lra]. }
  assert (H7 : (exp 3 <= 5203966097373/250000000000)%R).
  { replace 3%R with (3/2 + 3/2)%R by lra.
    apply (exp_double_upper _ (114061015441/25000000000)); [exact H6 | lra]. }
  lra.
Qed.

Lemma ln_20_21 : (ln 20 < 3 < ln 21)%R.
Proof.
  pose proof (ln_exp 3) as H3. split.
  - rewrite <- H3. apply ln_increasing; [lra | apply exp_3_lower].
  - rewrite <- H3 at 1. apply ln_increasing; [apply exp_pos | apply exp_3_upper].
Qed.

Lemma ln_monotone (x y : R) : (0 < x)%R -> (x <= y)%R -> (ln x <= ln y)%R.
Proof.
  intros Hx [Hlt| ->]; [left; now apply ln_increasing | right; reflexivity].
Qed.

(** X4: a RigEffect row that obeys the weight rule is at its cap 3 exactly
    from 20 successes on; below that its weight is the logarithm itself, and
    the weight is never negative. *)
Theorem rig_weight_caps_at_20 (r : RigEffect.t) :
  rig_effect_ok r -> 0 <= RigEffect.success_count r ->
  (RigEffect.weight r = 3%R <-> 20 <= RigEffect.success_count r)
  /\ (RigEffect.success_count r < 20 ->
      RigEffect.weight r = ln (IZR (RigEffect.success_count r) + 1))
  /\ (0 <= RigEffect.weight r <= 3)%R.
Proof.
  unfold rig_effect_ok. intros -> Hpos.
  set (n := RigEffect.success_count r) in *.
  pose proof ln_20_21 as [H20 H21].
  assert (Hn0 : (0 <= IZR n)%R) by (now apply IZR_le).
  assert (Hln0 : (0 <= ln (IZR n + 1))%R)
    by (rewrite <- ln_1; apply ln_monotone; lra).
  destruct (Z_lt_le_dec n 20) as [Hlt|Hge].
  - assert (Hn : (IZR n <= 19)%R) by (apply IZR_le; lia).
    assert (Hln : (ln (IZR n + 1) <= ln 20)%R) by (apply ln_monotone; lra).
    rewrite Rmin_right by lra. repeat split; try lra; try lia.
  - assert (Hn : (20 <= IZR n)%R) by (now apply IZR_le).
    assert (Hln : (ln 21 <= ln (IZR n + 1))%R) by (apply ln_monotone; lra).
    rewrite Rmin_left by lra. repeat split; try lra; try lia.
Qed.

(** The theorem on a row with 20 successes. *)
Lemma rig_weight_caps_at_20_witness :
  RigEffect.weight (RigEffect.mk "speckled_trout" "Zone 3" "jig" 20 (Rmin 3 (ln (20 + 1))) None)
  = 3%R.
Proof.
  refine (proj2 (proj1 (rig_weight_caps_at_20
            (RigEffect.mk "speckled_trout" "Zone 3" "jig" 20 (Rmin 3 (ln (20 + 1))) None)
            _ _)) _).
  - reflexivity.
  - simpl. lia.
  - simpl. lia.
Defined.

(** ** Learned weights as the scorer reads them *)

Lemma capped_log_range (cap x : R) :
  (0 <= cap)%R -> (0 <= x)%R -> (0 <= Rmin cap (ln (x + 1)) <= cap)%R.
Proof.
  intros Hcap Hx.
  assert (0 <= ln (x + 1))%R by (rewrite <- ln_1; apply ln_monotone; lra).
  split; [apply Rmin_glb; lra | apply Rmin_l].
Qed.

(** X5: on tables that obey the weight rule and hold no negative count,
    [get_rig_weight] answers within [0, 3] and the two condition lookups
    within [0, 4], for every key, present or not. *)
Theorem learned_weights_in_range (db : DB) (species zone_id : string)
    (rig_type : string) (rig : option string) (c : ConditionLearning.conditions) :
  learning_weights_ok db -> counts_nonneg db ->
  (0 <= RigLearning.get_rig_weight db species zone_id rig_type <= 3)%R
  /\ (0 <= ConditionLearning.get_zone_condition_weight db species zone_id c <= 4)%R
  /\ (0 <= ConditionLearning.get_rig_condition_weight db species rig c <= 4)%R.
Proof.
  intros (Hrig & Hzce & Hrce) (Nrig & Nzce & Nrce).
  rewrite Forall_forall in Hrig. rewrite Forall_forall in Hzce.
  rewrite Forall_forall in Hrce. rewrite Forall_forall in Nrig.
  rewrite Forall_forall in Nzce. rewrite Forall_forall in Nrce.
  split; [|split].
  - unfold RigLearning.get_rig_weight.
    destruct (find _ (rig_effects db)) as [r|] eqn:Hfind; [|lra].
    apply find_some in Hfind. destruct Hfind as [Hin _]. apply list_elem_of_In in Hin.
    rewrite (Hrig r Hin). apply capped_log_range; [lra|].
    apply IZR_le. exact (Nrig r Hin).
  - unfold ConditionLearning.get_zone_condition_weight.
    destruct (String.eqb _ "unknown"); [lra|].
    destruct (find _ (zone_condition_effects db)) as [r|] eqn:Hfind; [|lra].
    apply find_some in Hfind. destruct Hfind as [Hin _]. apply list_elem_of_In in Hin.
    rewrite (Hzce r Hin). apply capped_log_range; [lra|]. exact (Nzce r Hin).
  - unfold ConditionLearning.get_rig_condition_weight.
    destruct (negb _); [lra|]. destruct (String.eqb _ "unknown"); [lra|].
    destruct (find _ (rig_condition_effects db)) as [r|] eqn:Hfind; [|lra].
    apply find_some in Hfind. destruct Hfind as [Hin _]. apply list_elem_of_In in Hin.
    rewrite (Hrce r Hin). apply capped_log_range; [lra|]. exact (Nrce r Hin).
Qed.

(** The theorem on tables that hold one learned row each. *)
Lemma learned_weights_in_range_witness :
  let c := ConditionLearning.mkConditions (Some "incoming") (Some "clean") None None in
  (0 <= RigLearning.get_rig_weight db_learned "speckled_trout" "Zone 3" "jig" <= 3)%R
  /\ (0 <= ConditionLearning.get_zone_condition_weight db_learned "speckled_trout" "Zone 3" c
       <= 4)%R
  /\ (0 <= ConditionLearning.get_rig_condition_weight db_learned "speckled_trout"
             (Some "jig") c <= 4)%R.
Proof.
  apply (learned_weights_in_range db_learned "speckled_trout" "Zone 3" "jig" (Some "jig")
           (ConditionLearning.mkConditions (Some "incoming") (Some "clean") None None)).
  - unfold learning_weights_ok. simpl.
    repeat match goal with
           | |- _ /\ _ => split
           | |- Forall _ [_] => constructor; [|constructor]
           end; reflexivity.
  - unfold counts_nonneg. simpl.
    repeat match goal with
           | |- _ /\ _ => split
           | |- Forall _ [_] => constructor; [|constructor]
           end; simpl; try lia; lra.
Defined.

Lemma same_zone_condition_refl (species zone_id tide clarity wind current : string)
    (n w : R) :
  ConditionLearning.same_zone_condition species zone_id tide clarity wind current
    (ZoneConditionEffect.mk species zone_id tide clarity wind current n w) = true.
Proof.
  unfold ConditionLearning.same_zone_condition. simpl. now rewrite !String.eqb_refl.
Qed.

Lemma same_rig_condition_refl (species rig_type tide clarity : string) (n w : R) :
  ConditionLearning.same_rig_condition species rig_type tide clarity
    (RigConditionEffect.mk species rig_type tide clarity n w) = true.
Proof.
  unfold ConditionLearning.same_rig_condition. simpl. now rewrite !String.eqb_refl.
Qed.

(** One update of a zone-condition row at a known tide. *)
Lemma update_zone_condition_effect_known (db : DB) (species zone_id : string)
    (c : ConditionLearning.conditions) (m : R) :
  ConditionLearning.classify_tide (ConditionLearning.cond_tide_stage c) <> "unknown" ->
  (0 <= m)%R ->
  (0 <= prior_zone_count species zone_id c (zone_condition_effects db))%R ->
  exists row,
    ConditionLearning.update_zone_condition_effect false species zone_id c m db
    = (set_zone_condition_effects db
         (store (ConditionLearning.same_zone_condition species zone_id
                   (ConditionLearning.classify_tide (ConditionLearning.cond_tide_stage c))
                   (ConditionLearning.classify_clarity (ConditionLearning.cond_clarity c))
                   (ConditionLearning.classify_wind
                      (ConditionLearning.cond_wind_direction c) species)
                   (ConditionLearning.classify_current (ConditionLearning.cond_current_speed c)))
                row (zone_condition_effects db)),
       Ok (Some row))
    /\ ConditionLearning.same_zone_condition species zone_id
         (ConditionLearning.classify_tide (ConditionLearning.cond_tide_stage c))
         (ConditionLearning.classify_clarity (ConditionLearning.cond_clarity c))
         (ConditionLearning.classify_wind (ConditionLearning.cond_wind_direction c) species)
         (ConditionLearning.classify_current (ConditionLearning.cond_current_speed c))
         row = true
    /\ ZoneConditionEffect.success_count row
       = (prior_zone_count species zone_id c (zone_condition_effects db) + m)%R
    /\ ZoneConditionEffect.weight row
       = Rmin 4 (ln (ZoneConditionEffect.success_count row + 1)).
Proof.
  intros Htide Hm. unfold ConditionLearning.update_zone_condition_effect.
  apply String.eqb_neq in Htide. rewrite Htide.
  unfold prior_zone_count, ConditionLearning.zone_condition_upsert.
  destruct (find _ (zone_condition_effects db)) as [r|] eqn:Hfind; intros Hprior;
    cbn [ZoneConditionEffect.success_count].
  - rewrite math_log_pos by lra.
    eexists. split; [reflexivity|]. cbn.
    split; [exact (proj2 (find_some _ _ Hfind))|]. split; reflexivity.
  - rewrite math_log_pos by lra.
    eexists. split; [reflexivity|]. cbn.
    split; [apply same_zone_condition_refl|]. split; [lra | reflexivity].
Qed.

(** One update of a rig-condition row for a known rig at a known tide. *)
Lemma update_rig_condition_effect_known (db : DB) (species rig : string)
    (c : ConditionLearning.conditions) (m : R) :
  rig <> "" -> rig <> "unknown" ->
  ConditionLearning.classify_tide (ConditionLearning.cond_tide_stage c) <> "unknown" ->
  (0 <= m)%R ->
  (0 <= prior_rig_condition_count species rig c (rig_condition_effects db))%R ->
  exists row,
    ConditionLearning.update_rig_condition_effect false species (Some rig) c m db
    = (set_rig_condition_effects db
         (store (ConditionLearning.same_rig_condition species rig
                   (ConditionLearning.classify_tide (ConditionLearning.cond_tide_stage c))
                   (ConditionLearning.classify_clarity (ConditionLearning.cond_clarity c)))
                row (rig_condition_effects db)),
       Ok (Some row))
    /\ ConditionLearning.same_rig_condition species rig
         (ConditionLearning.classify_tide (ConditionLearning.cond_tide_stage c))
         (ConditionLearning.classify_clarity (ConditionLearning.cond_clarity c)) row = true
    /\ RigConditionEffect.success_count row
       = (prior_rig_condition_count species rig c (rig_condition_effects db) + m)%R
    /\ RigConditionEffect.weight row
       = Rmin 4 (ln (RigConditionEffect.success_count row + 1)).
Proof.
  intros Hne Hunk Htide Hm. unfold ConditionLearning.update_rig_condition_effect.
  rewrite (known_rig _ Hne Hunk).
  apply String.eqb_neq in Htide. rewrite Htide.
  unfold prior_rig_condition_count, ConditionLearning.rig_condition_upsert.
  destruct (find _ (rig_condition_effects db)) as [r|] eqn:Hfind; intros Hprior;
    cbn [RigConditionEffect.success_count].
  - rewrite math_log_pos by lra.
    eexists. split; [reflexivity|]. cbn.
    split; [exact (proj2 (find_some _ _ Hfind))|]. split; reflexivity.
  - rewrite math_log_pos by lra.
    eexists. split; [reflexivity|]. cbn.
    split; [apply same_rig_condition_refl|]. split; [lra | reflexivity].
Qed.

(** X6: what [update_zone_condition_effect] learns at a known tide is what
    [get_zone_condition_weight] reads back, for the conditions learned and
    for all conditions that fall into the same four bands: the capped
    logarithm of the old count plus the multiplier. *)
Theorem get_zone_condition_weight_after_update (db : DB) (species zone_id : string)
    (c c' : ConditionLearning.conditions) (m : R) :
  ConditionLearning.classify_tide (ConditionLearning.cond_tide_stage c) <> "unknown" ->
  (0 <= m)%R ->
  (0 <= prior_zone_count species zone_id c (zone_condition_effects db))%R ->
  zone_bands species c' = zone_bands species c ->
  ConditionLearning.get_zone_condition_weight
    (fst (ConditionLearning.update_zone_condition_effect false species zone_id c m db))
    species zone_id c'
  = Rmin 4 (ln (prior_zone_count species zone_id c (zone_condition_effects db) + m + 1)).
Proof.
  intros Htide Hm Hprior Hbands.
  destruct (update_zone_condition_effect_known db species zone_id c m Htide Hm Hprior)
    as (row & Hup & Hkey & Hcount & Hweight).
  rewrite Hup. unfold ConditionLearning.get_zone_condition_weight.
  unfold zone_bands in Hbands. injection Hbands as -> -> -> ->.
  apply String.eqb_neq in Htide. rewrite Htide.
  cbn [fst zone_condition_effects set_zone_condition_effects].
  rewrite (find_store _ _ _ Hkey). now rewrite Hweight, Hcount.
Qed.

(** A crab-trap catch at stage 'High' read back at stage 'slack'. *)
Lemma get_zone_condition_weight_after_update_witness :
  ConditionLearning.get_zone_condition_weight
    (fst (ConditionLearning.update_zone_condition_effect false "blue_crab" "Zone 1"
            (ConditionLearning.mkConditions (Some "High") (Some "clean") None None)
            0.15 empty_db))
    "blue_crab" "Zone 1"
    (ConditionLearning.mkConditions (Some "slack") None (Some "N") None)
  = Rmin 4 (ln (0 + 0.15 + 1)).
Proof.
  apply (get_zone_condition_weight_after_update empty_db "blue_crab" "Zone 1"
           (ConditionLearning.mkConditions (Some "High") (Some "clean") None None)
           (ConditionLearning.mkConditions (Some "slack") None (Some "N") None) 0.15).
  - discriminate.
  - lra.
  - unfold prior_zone_count. simpl. lra.
  - reflexivity.
Defined.

(** ** The best rig of a pair *)

Lemma heaviest_from (rows : list RigEffect.t) (b : RigEffect.t) :
  exists best,
    fold_left (fun best r =>
                 match best with
                 | None => Some r
                 | Some b => if Rlt_dec (RigEffect.weight b) (RigEffect.weight r)
                             then Some r else Some b
                 end) rows (Some b) = Some best
    /\ In best (b :: rows)
    /\ forall r, In r (b :: rows) -> (RigEffect.weight r <= RigEffect.weight best)%R.
Proof.
  revert b. induction rows as [|x rows IH]; intros b; simpl.
  - exists b. split; [reflexivity|]. split; [now left|]. intros r [<-|[]]. lra.
  - destruct (Rlt_dec (RigEffect.weight b) (RigEffect.weight x)) as [Hlt|Hge].
    + destruct (IH x) as (best & Hf & Hin & Hmax). exists best.
      split; [exact Hf|]. split.
      * simpl in Hin. tauto.
      * intros r [<-|[<-|Hr]].
        -- specialize (Hmax x (or_introl eq_refl)). lra.
        -- apply Hmax. now left.
        -- apply Hmax. now right.
    + destruct (IH b) as (best & Hf & Hin & Hmax). exists best.
      split; [exact Hf|]. split.
      * simpl in Hin. tauto.
      * intros r [<-|[<-|Hr]].
        -- apply Hmax. now left.
        -- specialize (Hmax b (or_introl eq_refl)). lra.
        -- apply Hmax. now right.
Qed.

Lemma heaviest_spec (rows : list RigEffect.t) :
  match RigLearning.heaviest rows with
  | None => rows = []
  | Some best =>
      In best rows
      /\ forall r, In r rows -> (RigEffect.weight r <= RigEffect.weight best)%R
  end.
Proof.
  unfold RigLearning.heaviest. destruct rows as [|b rows]; [reflexivity|].
  simpl. destruct (heaviest_from rows b) as (best & Hf & Hin & Hmax).
  rewrite Hf. now split.
Qed.

(** X7: [get_best_rig_for_zone] answers [None] exactly when no row of the
    pair has at least [min_uses] successes; otherwise it names the rig of
    such a row whose weight no other such row exceeds. *)
Theorem get_best_rig_for_zone_spec (db : DB) (species zone_id : string) (min_uses : Z) :
  match RigLearning.get_best_rig_for_zone db species zone_id min_uses with
  | None => forall r, In r (rig_effects db) -> ~ qualifies species zone_id min_uses r
  | Some rig =>
      exists best,
        In best (rig_effects db) /\ qualifies species zone_id min_uses best
        /\ RigEffect.rig_type best = rig
        /\ forall r, In r (rig_effects db) -> qualifies species zone_id min_uses r ->
             (RigEffect.weight r <= RigEffect.weight best)%R
  end.
Proof.
  unfold RigLearning.get_best_rig_for_zone.
  set (p := fun r : RigEffect.t => _).
  assert (Hp : forall r, p r = true <-> qualifies species zone_id min_uses r).
  { intros r. unfold p, qualifies.
    rewrite !andb_true_iff, !String.eqb_eq, Z.leb_le. tauto. }
  pose proof (heaviest_spec (List.filter p (rig_effects db))) as H.
  destruct (RigLearning.heaviest _) as [best|]; simpl.
  - destruct H as [Hin Hmax]. apply filter_In in Hin. destruct Hin as [Hin Hq].
    exists best. split; [exact Hin|]. split; [now apply Hp|]. split; [reflexivity|].
    intros r Hr Hqr. apply Hmax. apply filter_In. split; [exact Hr | now apply Hp].
  - intros r Hr Hq. apply Hp in Hq.
    assert (Hin : In r (List.filter p (rig_effects db))) by (apply filter_In; now split).
    rewrite H in Hin. destruct Hin.
Qed.

(** ** The score cache as a map from pairs to rows *)

Lemma same_pair_key (species zone_id : string) (b : BiteScore.t) :
  ScoreCache.same_pair species zone_id b = true <-> bite_key b = (species, zone_id).
Proof.
  unfold ScoreCache.same_pair, bite_key. rewrite andb_true_iff, !String.eqb_eq. split.
  - intros [-> ->]. reflexivity.
  - intros [= -> ->]. auto.
Qed.

Lemma same_pair_other (species zone_id species' zone_id' : string) (b : BiteScore.t) :
  (species', zone_id') <> (species, zone_id) ->
  ScoreCache.same_pair species zone_id b = true ->
  ScoreCache.same_pair species' zone_id' b = false.
Proof.
  intros Hne Hb. apply same_pair_key in Hb.
  destruct (ScoreCache.same_pair species' zone_id' b) eqn:Hb'; [|reflexivity].
  apply same_pair_key in Hb'. congruence.
Qed.

Lemma same_tip_key (species zone_id : string) (t : SpeciesZoneTip.t) :
  Tips.same_tip species zone_id t = true <-> tip_key t = (species, zone_id).
Proof.
  unfold Tips.same_tip, tip_key. rewrite andb_true_iff, !String.eqb_eq. split.
  - intros [-> ->]. reflexivity.
  - intros [= -> ->]. auto.
Qed.

Lemma same_tip_other (species zone_id species' zone_id' : string) (t : SpeciesZoneTip.t) :
  (species', zone_id') <> (species, zone_id) ->
  Tips.same_tip species zone_id t = true ->
  Tips.same_tip species' zone_id' t = false.
Proof.
  intros Hne Ht. apply same_tip_key in Ht.
  destruct (Tips.same_tip species' zone_id' t) eqn:Ht'; [|reflexivity].
  apply same_tip_key in Ht'. congruence.
Qed.

(** The row a recompute writes, in full. *)
Lemma recalculate_bite_score_writes (now : Z) (raw : DB -> string -> string -> R)
    (species zone_id : string) (force_recalc : bool) (db : DB) :
  exists row,
    ScoreCache.recalculate_bite_score false now raw species zone_id force_recalc db
    = (set_bite_scores db (store (ScoreCache.same_pair species zone_id) row (bite_scores db)),
       Ok (Recalculated.mk species zone_id (Hyperlocal.round1 (BiteScore.score row))
             (BiteScore.rating row) (BiteScore.confidence row)
             (Confidence.catch_count species zone_id (catches db))
             (Hyperlocal.round1 (raw db species zone_id))))
    /\ ScoreCache.same_pair species zone_id row = true
    /\ BiteScore.score row
       = ScoreCache.smoothed_score
           (find (ScoreCache.same_pair species zone_id) (bite_scores db)) force_recalc
           (Confidence.catch_count species zone_id (catches db)) (raw db species zone_id)
    /\ BiteScore.rating row = ScoreCache.get_score_rating (BiteScore.score row)
    /\ BiteScore.confidence row
       = ScoreCache.get_confidence_level (Confidence.catch_count species zone_id (catches db))
    /\ BiteScore.last_updated row = now.
Proof.
  unfold ScoreCache.recalculate_bite_score.
  destruct (find _ (bite_scores db)) as [old|] eqn:Hold;
    eexists; (split; [apply f_equal2; reflexivity|]); cbn.
  - split; [exact (proj2 (find_some _ _ Hold))|]. repeat split.
  - split; [apply same_pair_refl|]. repeat split.
Qed.

Lemma smoothed_score_range (old : option BiteScore.t) (force : bool) (n : Z) (raw : R) :
  (0 <= ScoreCache.smoothed_score old force n raw <= 100)%R.
Proof. unfold ScoreCache.smoothed_score. apply clamp_range. Qed.

(** X8: a recompute that does not raise stores one row for its pair, which
    [get_cached_bite_score] then finds; the stored score is within [0, 100]
    whatever the raw score, it is the clamped raw score when the pair had no
    row or the recompute is forced, and the cached row of every other pair
    is left as it was.  What the call returns is not the row but a
    dictionary with the rating and the confidence of the row, its score
    rounded to one decimal, the catch count and the rounded raw score. *)
Theorem recalculate_then_get_cached (now : Z) (raw : DB -> string -> string -> R)
    (species zone_id : string) (force_recalc : bool) (db : DB) :
  let db' := fst (ScoreCache.recalculate_bite_score false now raw species zone_id
                    force_recalc db) in
  exists row,
    snd (ScoreCache.recalculate_bite_score false now raw species zone_id force_recalc db)
    = Ok (Recalculated.mk species zone_id (Hyperlocal.round1 (BiteScore.score row))
            (BiteScore.rating row) (BiteScore.confidence row)
            (Confidence.catch_count species zone_id (catches db))
            (Hyperlocal.round1 (raw db species zone_id)))
    /\ ScoreCache.get_cached_bite_score db' species zone_id = Some row
    /\ (0 <= BiteScore.score row <= 100)%R
    /\ (ScoreCache.get_cached_bite_score db species zone_id = None \/ force_recalc = true ->
        BiteScore.score row = Rmax 0 (Rmin 100 (raw db species zone_id)))
    /\ forall species' zone_id',
         (species', zone_id') <> (species, zone_id) ->
         ScoreCache.get_cached_bite_score db' species' zone_id'
         = ScoreCache.get_cached_bite_score db species' zone_id'.
Proof.
  intros db'. subst db'.
  destruct (recalculate_bite_score_writes now raw species zone_id force_recalc db)
    as (row & Hrec & Hkey & Hscore & _).
  rewrite Hrec. exists row. cbn [fst snd]. unfold ScoreCache.get_cached_bite_score.
  cbn [bite_scores set_bite_scores].
  split; [reflexivity|]. split; [now apply find_store|].
  split; [rewrite Hscore; apply smoothed_score_range|]. split.
  - rewrite Hscore. unfold ScoreCache.smoothed_score.
    intros [->| ->]; [reflexivity|].
    destruct (find _ (bite_scores db)); reflexivity.
  - intros species' zone_id' Hother.
    rewrite (find_store_other (ScoreCache.same_pair species zone_id)); [reflexivity| |].
    + intros x. now apply same_pair_other.
    + now apply (same_pair_other species zone_id).
Qed.

(** X9: a recompute, forced or not, raising or not, keeps the cache with at
    most one row per pair and with all scores within [0, 100]. *)
Theorem cache_stays_sound (db_fails : bool) (now : Z) (raw : DB -> string -> string -> R)
    (species zone_id : string) (force_recalc : bool) (db : DB) :
  cache_sound db ->
  cache_sound (fst (ScoreCache.recalculate_bite_score db_fails now raw species zone_id
                      force_recalc db)).
Proof.
  intros [Hnd Hrange]. destruct db_fails; [now split|].
  destruct (recalculate_bite_score_writes now raw species zone_id force_recalc db)
    as (row & Hrec & Hkey & Hscore & _).
  rewrite Hrec. cbn [fst]. unfold cache_sound. cbn [bite_scores set_bite_scores]. split.
  - apply (NoDup_store bite_key _ (species, zone_id)); [apply same_pair_key| |exact Hnd].
    now apply same_pair_key.
  - apply Forall_store; [|exact Hrange]. rewrite Hscore. apply smoothed_score_range.
Qed.

(** The theorem at the empty cache. *)
Lemma cache_stays_sound_witness :
  cache_sound (fst (ScoreCache.recalculate_bite_score false 0 (fun _ _ _ => 250%R)
                      "speckled_trout" "Zone 3" false empty_db)).
Proof.
  apply cache_stays_sound. split; constructor.
Defined.

(** ** Smoothing as a contraction *)

Lemma get_smoothing_weight_bounds (n : Z) :
  0 <= n -> (0.1 <= ScoreCache.get_smoothing_weight n < 0.5)%R.
Proof.
  intros Hn. destruct (get_smoothing_weight_range n Hn) as (H1 & H2 & H3).
  destruct (Z_lt_le_dec n 10) as [Ha|Ha]; [specialize (H1 Ha); lra|].
  destruct (Z_lt_le_dec n 50) as [Hb|Hb]; [specialize (H2 (conj Ha Hb)); lra|].
  specialize (H3 Hb). lra.
Qed.

Lemma catch_count_nonneg (species zone_id : string) (tbl : list Catch.t) :
  0 <= Confidence.catch_count species zone_id tbl.
Proof. unfold Confidence.catch_count. lia. Qed.

(** One smoothing step moves the cached score towards the raw score and
    leaves at most nine tenths of the gap. *)
Lemma smoothed_score_contracts (old : BiteScore.t) (n : Z) (raw : R) :
  0 <= n ->
  (0 <= BiteScore.score old <= 100)%R -> (0 <= raw <= 100)%R ->
  let s := ScoreCache.smoothed_score (Some old) false n raw in
  (Rabs (s - raw) <= 0.9 * Rabs (BiteScore.score old - raw))%R
  /\ (Rmin (BiteScore.score old) raw <= s <= Rmax (BiteScore.score old) raw)%R.
Proof.
  intros Hn Hold Hraw s. subst s. unfold ScoreCache.smoothed_score. cbn [negb].
  pose proof (get_smoothing_weight_bounds n Hn) as Hw.
  set (w := ScoreCache.get_smoothing_weight n) in *.
  set (o := BiteScore.score old) in *.
  rewrite clamp_id by nra. split.
  - replace (o * (1 - w) + raw * w - raw)%R with ((1 - w) * (o - raw))%R by ring.
    rewrite Rabs_mult, (Rabs_pos_eq (1 - w)) by lra.
    apply Rmult_le_compat_r; [apply Rabs_pos | lra].
  - unfold Rmin, Rmax. destruct (Rle_dec o raw); split; nra.
Qed.

Lemma recomputes_S (n : nat) (now : Z) (raw : DB -> string -> string -> R)
    (species zone_id : string) (db : DB) :
  recomputes (S n) now raw species zone_id db
  = fst (ScoreCache.recalculate_bite_score false now raw species zone_id false
           (recomputes n now raw species zone_id db)).
Proof. reflexivity. Qed.

(** X10: recomputing a cached pair again and again while nothing else
    changes closes in on the raw score geometrically: after [n] recomputes
    the gap is at most 0.9^n of the first gap. *)
Theorem recomputes_converge (n : nat) (now : Z) (raw : DB -> string -> string -> R)
    (species zone_id : string) (db : DB) (old : BiteScore.t) :
  cache_blind raw ->
  ScoreCache.get_cached_bite_score db species zone_id = Some old ->
  (0 <= BiteScore.score old <= 100)%R ->
  (0 <= raw db species zone_id <= 100)%R ->
  exists row,
    ScoreCache.get_cached_bite_score (recomputes n now raw species zone_id db) species zone_id
    = Some row
    /\ (Rabs (BiteScore.score row - raw db species zone_id)
        <= 0.9 ^ n * Rabs (BiteScore.score old - raw db species zone_id))%R.
Proof.
  intros Hblind Hold Hs Hr.
  assert (H : exists row l,
             recomputes n now raw species zone_id db = set_bite_scores db l
             /\ find (ScoreCache.same_pair species zone_id) l = Some row
             /\ (0 <= BiteScore.score row <= 100)%R
             /\ (Rabs (BiteScore.score row - raw db species zone_id)
                 <= 0.9 ^ n * Rabs (BiteScore.score old - raw db species zone_id))%R).
  { induction n as [|n IH].
    - exists old, (bite_scores db). split; [destruct db; reflexivity|].
      split; [exact Hold|]. split; [exact Hs|]. simpl. lra.
    - destruct IH as (row & l & Hdb & Hfind & Hrow & Hgap).
      rewrite recomputes_S, Hdb.
      destruct (recalculate_bite_score_writes now raw species zone_id false
                  (set_bite_scores db l)) as (row' & Hrec & Hkey & Hscore & _).
      rewrite Hrec. cbn [fst bite_scores set_bite_scores catches] in *.
      rewrite Hfind, Hblind in Hscore.
      destruct (smoothed_score_contracts row
                  (Confidence.catch_count species zone_id (catches db))
                  (raw db species zone_id) (catch_count_nonneg _ _ _) Hrow Hr)
        as [Hstep _].
      rewrite <- Hscore in Hstep.
      exists row', (store (ScoreCache.same_pair species zone_id) row' l).
      split; [reflexivity|]. split; [now apply find_store|].
      split; [rewrite Hscore; apply smoothed_score_range|].
      simpl pow. pose proof (Rabs_pos (BiteScore.score old - raw db species zone_id)).
      assert (0 <= 0.9 ^ n)%R by (apply pow_le; lra). nra. }
  destruct H as (row & l & Hdb & Hfind & _ & Hgap).
  exists row. split; [|exact Hgap].
  rewrite Hdb. exact Hfind.
Qed.

(** Ten recomputes of the pair cached at 40 towards a raw score of 70. *)
Lemma recomputes_converge_witness :
  exists row,
    ScoreCache.get_cached_bite_score
      (recomputes 10 0 (fun _ _ _ => 70%R) "speckled_trout" "Zone 3" db_fifty)
      "speckled_trout" "Zone 3" = Some row
    /\ (Rabs (BiteScore.score row - 70) <= 0.9 ^ 10 * Rabs (40 - 70))%R.
Proof.
  apply (recomputes_converge 10 0 (fun _ _ _ => 70%R) "speckled_trout" "Zone 3" db_fifty
           cached_forty).
  - intros d l sp zn. reflexivity.
  - reflexivity.
  - simpl. lra.
  - lra.
Defined.

(** X11: the rating never goes down when the score goes up. *)
Theorem get_score_rating_monotone (s1 s2 : R) :
  (s1 <= s2)%R ->
  rating_rank (ScoreCache.get_score_rating s1) <= rating_rank (ScoreCache.get_score_rating s2).
Proof.
  intros Hle. unfold ScoreCache.get_score_rating.
  destruct (Rle_dec s1 20), (Rle_dec s1 40), (Rle_dec s1 60), (Rle_dec s1 80),
    (Rle_dec s2 20), (Rle_dec s2 40), (Rle_dec s2 60), (Rle_dec s2 80);
    try lra; vm_compute; discriminate.
Qed.

(** The theorem across the boundary at 60. *)
Lemma get_score_rating_monotone_witness :
  rating_rank (ScoreCache.get_score_rating 60) <= rating_rank (ScoreCache.get_score_rating 60.5).
Proof.
  apply get_score_rating_monotone. lra.
Defined.


(** ** Tips follow the cached score *)

Section KeyedDelete.
Context {A K : Type} (k : A -> K) (key : A -> bool) (k0 : K).
Hypothesis key_spec : forall x, key x = true <-> k x = k0.

Lemma In_delete_first (x : A) (tbl : list A) :
  In x (delete_first key tbl) -> In x tbl.
Proof.
  induction tbl as [|y tbl IH]; simpl; [tauto|].
  destruct (key y); simpl; tauto.
Qed.

Lemma NoDup_delete_first (tbl : list A) :
  NoDup (map k tbl) -> NoDup (map k (delete_first key tbl)).
Proof.
  induction tbl as [|y tbl IH]; simpl; intros Hnd; [constructor|].
  inversion Hnd as [|? ? Hnin Hnd']; subst.
  destruct (key y); [exact Hnd'|]. simpl. constructor; [|now apply IH].
  intros Hin. apply Hnin. apply list_elem_of_In in Hin. apply list_elem_of_In.
  apply in_map_iff in Hin as (x & Hx & Hin).
  apply in_map_iff. exists x. split; [exact Hx|]. now apply In_delete_first.
Qed.

Lemma find_delete_first (tbl : list A) :
  NoDup (map k tbl) -> find key (delete_first key tbl) = None.
Proof.
  induction tbl as [|y tbl IH]; simpl; intros Hnd; [reflexivity|].
  inversion Hnd as [|? ? Hnin Hnd']; subst.
  destruct (key y) eqn:Hy.
  - apply key_spec in Hy. destruct (find key tbl) as [x|] eqn:Hfind; [|reflexivity].
    apply find_some in Hfind as [Hin Hx]. apply key_spec in Hx.
    exfalso. apply Hnin. apply list_elem_of_In. rewrite Hy, <- Hx. now apply in_map.
  - simpl. rewrite Hy. now apply IH.
Qed.

Lemma find_delete_first_other (key' : A -> bool) (tbl : list A) :
  (forall x, key x = true -> key' x = false) ->
  find key' (delete_first key tbl) = find key' tbl.
Proof.
  intros Hother. induction tbl as [|y tbl IH]; simpl; [reflexivity|].
  destruct (key y) eqn:Hy.
  - now rewrite (Hother y Hy).
  - simpl. now rewrite IH.
Qed.

End KeyedDelete.

Lemma same_tip_refl (species zone_id text : string) (now : Z) :
  Tips.same_tip species zone_id (SpeciesZoneTip.mk species zone_id text now) = true.
Proof. unfold Tips.same_tip. simpl. now rewrite !String.eqb_refl. Qed.

Lemma generate_tip_due (sentence : DB -> string -> string -> string) (db : DB)
    (species zone_id : string) :
  Tips.generate_tip sentence db species zone_id = tip_due sentence db species zone_id.
Proof. reflexivity. Qed.

(** The tip table after one tip update. *)
Lemma tip_follows_cached_score_aux (now : Z) (sentence : DB -> string -> string -> string)
    (species zone_id : string) (db : DB) :
  tips_unique db ->
  sentence db species zone_id <> "" ->
  let db' := fst (Tips.update_species_zone_tip false now sentence species zone_id db) in
  Tips.get_tip_for_zone db' species zone_id = tip_due sentence db species zone_id
  /\ (forall species' zone_id',
        (species', zone_id') <> (species, zone_id) ->
        Tips.get_tip_for_zone db' species' zone_id'
        = Tips.get_tip_for_zone db species' zone_id')
  /\ tips_unique db'.
Proof.
  intros Hnd Hsentence db'. subst db'.
  unfold Tips.update_species_zone_tip. rewrite generate_tip_due.
  unfold Tips.get_tip_for_zone, tips_unique in *.
  destruct (tip_due sentence db species zone_id) as [text|] eqn:Hdue.
  - assert (Htext : text = sentence db species zone_id).
    { unfold tip_due in Hdue. destruct (ScoreCache.get_cached_bite_score _ _ _); [|discriminate].
      destruct (Rlt_dec _ _); [discriminate|]. now injection Hdue. }
    rewrite (truthy_Some text) by (rewrite Htext; exact Hsentence).
    cbn [negb fst species_zone_tips set_species_zone_tips default].
    set (tip := match find _ (species_zone_tips db) with
                | Some t => _ | None => _ end).
    assert (Hkey : Tips.same_tip species zone_id tip = true
                   /\ SpeciesZoneTip.tip_text tip = text).
    { subst tip. destruct (find _ (species_zone_tips db)) as [t|] eqn:Hfind.
      - split; [|reflexivity]. apply find_some in Hfind as [_ Ht]. exact Ht.
      - split; [apply same_tip_refl | reflexivity]. }
    destruct Hkey as [Hkey Htip]. split; [|split].
    + rewrite (find_store _ _ _ Hkey). now rewrite Htip.
    + intros species' zone_id' Hother.
      rewrite (find_store_other (Tips.same_tip species zone_id)); [reflexivity| |].
      * intros x. now apply same_tip_other.
      * now apply (same_tip_other species zone_id).
    + apply (NoDup_store tip_key _ (species, zone_id)); [apply same_tip_key| |exact Hnd].
      now apply same_tip_key.
  - cbn [Py.truthy negb fst species_zone_tips set_species_zone_tips]. split; [|split].
    + rewrite (find_delete_first tip_key _ (species, zone_id)); [reflexivity| |exact Hnd].
      apply same_tip_key.
    + intros species' zone_id' Hother.
      rewrite find_delete_first_other; [reflexivity|].
      intros x. now apply same_tip_other.
    + now apply NoDup_delete_first.
Qed.

(** X12: after [update_species_zone_tip] the tip of the pair is the one its
    cached score calls for - the sentence when the score is at least 50, no
    tip at all below 50 or without a cached score, an older tip being
    deleted - and the tips of all other pairs are as before; the tip table
    still holds at most one row per pair. *)
Theorem tip_follows_cached_score (now : Z) (sentence : DB -> string -> string -> string)
    (species zone_id : string) (db : DB) :
  tips_unique db ->
  sentence db species zone_id <> "" ->
  let db' := fst (Tips.update_species_zone_tip false now sentence species zone_id db) in
  Tips.get_tip_for_zone db' species zone_id = tip_due sentence db species zone_id
  /\ (forall species' zone_id',
        (species', zone_id') <> (species, zone_id) ->
        Tips.get_tip_for_zone db' species' zone_id'
        = Tips.get_tip_for_zone db species' zone_id')
  /\ tips_unique db'.
Proof.
  exact (tip_follows_cached_score_aux now sentence species zone_id db).
Qed.

(** The theorem on the pair cached at 40, whose older tip is deleted. *)
Lemma tip_follows_cached_score_witness :
  let db' := fst (Tips.update_species_zone_tip false 0 (fun _ _ _ => "Try Zone 3.")
                    "speckled_trout" "Zone 3" db_learned) in
  Tips.get_tip_for_zone db' "speckled_trout" "Zone 3"
  = tip_due (fun _ _ _ => "Try Zone 3.") db_learned "speckled_trout" "Zone 3"
  /\ (forall species' zone_id',
        (species', zone_id') <> ("speckled_trout", "Zone 3") ->
        Tips.get_tip_for_zone db' species' zone_id'
        = Tips.get_tip_for_zone db_learned species' zone_id')
  /\ tips_unique db'.
Proof.
  apply (tip_follows_cached_score 0 (fun _ _ _ => "Try Zone 3.") "speckled_trout" "Zone 3"
           db_learned).
  - unfold tips_unique. simpl. apply NoDup_singleton.
  - discriminate.
Defined.

(** ** GET /api/zone-bite-scores *)

(** X13: the endpoint answers from the cache without writing when the pair
    is cached; on a miss it stores the clamped raw score and answers with
    it (or answers 500, leaving the database as it was, when the recompute
    raises), and asking again gives the same answer from the cache. *)
Theorem get_zone_bite_scores_spec (env : Env) (species zone_id : string) (db : DB) :
  match ScoreCache.get_cached_bite_score db species zone_id with
  | Some cached =>
      Main.get_zone_bite_scores env species zone_id db
      = (db, Main.Score (BiteScore.score cached) (BiteScore.rating cached)
               (BiteScore.confidence cached) (Tips.get_tip_for_zone db species zone_id)
               (BiteScore.last_updated cached))
  | None =>
      if db_fails env BiteScoreStep species zone_id
      then Main.get_zone_bite_scores env species zone_id db = (db, Main.ScoreError 500)
      else
        let score := Rmax 0 (Rmin 100 (calculate_zone_bite_score env db species zone_id)) in
        let answer :=
          Main.Score score (ScoreCache.get_score_rating score)
            (ScoreCache.get_confidence_level
               (Confidence.catch_count species zone_id (catches db)))
            (Tips.get_tip_for_zone db species zone_id) (utcnow env) in
        exists db',
          Main.get_zone_bite_scores env species zone_id db = (db', answer)
          /\ Main.get_zone_bite_scores env species zone_id db' = (db', answer)
  end.
Proof.
  unfold Main.get_zone_bite_scores.
  destruct (ScoreCache.get_cached_bite_score db species zone_id) as [cached|] eqn:Hcached;
    [reflexivity|].
  destruct (db_fails env BiteScoreStep species zone_id); [reflexivity|].
  destruct (recalculate_bite_score_writes (utcnow env) (calculate_zone_bite_score env)
              species zone_id false db) as (row & Hrec & Hkey & Hscore & Hrating & Hconf & Hnow).
  rewrite Hrec. unfold ScoreCache.get_cached_bite_score in *.
  rewrite Hcached in Hscore. unfold ScoreCache.smoothed_score in Hscore.
  exists (set_bite_scores db
            (store (ScoreCache.same_pair species zone_id) row (bite_scores db))).
  cbn [bite_scores set_bite_scores]. rewrite (find_store _ _ _ Hkey).
  rewrite Hrating, Hconf, Hnow, Hscore.
  unfold Tips.get_tip_for_zone. cbn [species_zone_tips set_bite_scores].
  split; reflexivity.
Qed.


(** ** The triggers of a catch, step by step *)

Lemma when_truthy_rig_effect (fails : bool) (now : Z) (species zone_id : string)
    (rig_type : option string) (db : DB) :
  when (Py.truthy rig_type)
    (ignore (RigLearning.update_rig_effect fails now species zone_id rig_type)) db
  = ignore (RigLearning.update_rig_effect fails now species zone_id rig_type) db.
Proof.
  destruct rig_type as [rig|]; [|reflexivity].
  unfold Py.truthy. destruct (String.eqb rig "") eqn:Hrig; [|reflexivity].
  unfold when, ignore, bind, ret, RigLearning.update_rig_effect. cbn [negb].
  now rewrite Hrig.
Qed.

Lemma when_truthy_rig_condition (fails : bool) (species : string) (rig_type : option string)
    (c : ConditionLearning.conditions) (m : R) (db : DB) :
  when (Py.truthy rig_type)
    (ignore (ConditionLearning.update_rig_condition_effect fails species rig_type c m)) db
  = ignore (ConditionLearning.update_rig_condition_effect fails species rig_type c m) db.
Proof.
  destruct rig_type as [rig|]; [|reflexivity].
  unfold Py.truthy. destruct (String.eqb rig "") eqn:Hrig; [|reflexivity].
  unfold when, ignore, bind, ret, ConditionLearning.update_rig_condition_effect. cbn [negb].
  now rewrite Hrig.
Qed.

Lemma ignore_run {A : Type} (m : M A) (db : DB) :
  returns m db -> ignore m db = (fst (m db), Ok tt).
Proof.
  intros Hm. destruct (ignore_returns m db Hm) as [Hs Hf].
  rewrite <- Hs, <- Hf. now destruct (ignore m db).
Qed.

Lemma bind_run {A B : Type} (m : M A) (k : A -> M B) (db db' : DB) (a : A) :
  m db = (db', Ok a) -> bind m k db = k a db'.
Proof. unfold bind. now intros ->. Qed.

(** With no failing step and sound counts the five triggers run one after
    the other, each on the state the one before left. *)
Lemma event_triggers_pipeline (env : Env) (catch : Catch.t) (rig_type : option string)
    (db : DB) :
  healthy env ->
  counts_nonneg db ->
  let sp := Catch.species catch in
  let zn := Catch.zone_id catch in
  let m := (if Main.is_crab_trap sp rig_type then 0.15 else 1)%R in
  let c := ConditionLearning.mkConditions (Catch.tide_stage catch) (Some "clean")
             (Catch.wind_direction catch) (Catch.current_speed catch) in
  let db1 := fst (RigLearning.update_rig_effect false (utcnow env) sp zn rig_type db) in
  let db2 := fst (ConditionLearning.update_zone_condition_effect false sp zn c m db1) in
  let db3 := fst (ConditionLearning.update_rig_condition_effect false sp rig_type c m db2) in
  let db4 := fst (ScoreCache.recalculate_bite_score false (utcnow env)
                    (calculate_zone_bite_score env) sp zn false db3) in
  let db5 := fst (Tips.update_species_zone_tip false (utcnow env) (tip_sentence env)
                    sp zn db4) in
  Main.event_triggers env catch rig_type db = (db5, Ok tt).
Proof.
  intros Hh (Hrig & Hzce & Hrce) sp zn m c db1 db2 db3 db4 db5.
  assert (Hm : (0 <= m)%R) by (subst m; destruct (Main.is_crab_trap sp rig_type); lra).
  unfold Main.event_triggers. cbv zeta. fold sp zn m c. rewrite !Hh.
  assert (H1 : when (Py.truthy rig_type)
                 (ignore (RigLearning.update_rig_effect false (utcnow env) sp zn rig_type)) db
               = (db1, Ok tt)).
  { rewrite when_truthy_rig_effect. apply ignore_run.
    now apply update_rig_effect_returns. }
  rewrite (bind_run _ _ _ _ _ H1).
  assert (F1z : zone_condition_effects db1 = zone_condition_effects db)
    by (apply update_rig_effect_frames; reflexivity).
  assert (F1r : rig_condition_effects db1 = rig_condition_effects db)
    by (apply update_rig_effect_frames; reflexivity).
  assert (H2 : ignore (ConditionLearning.update_zone_condition_effect false sp zn c m) db1
               = (db2, Ok tt)).
  { apply ignore_run. apply update_zone_condition_effect_returns; [exact Hm|].
    now rewrite F1z. }
  rewrite (bind_run _ _ _ _ _ H2).
  assert (F2r : rig_condition_effects db2 = rig_condition_effects db)
    by (rewrite <- F1r; apply update_zone_condition_effect_frames; reflexivity).
  assert (H3 : when (Py.truthy rig_type)
                 (ignore (ConditionLearning.update_rig_condition_effect false sp rig_type c m))
                 db2
               = (db3, Ok tt)).
  { rewrite when_truthy_rig_condition. apply ignore_run.
    apply update_rig_condition_effect_returns; [exact Hm|]. now rewrite F2r. }
  rewrite (bind_run _ _ _ _ _ H3).
  assert (H4 : ignore (ScoreCache.recalculate_bite_score false (utcnow env)
                         (calculate_zone_bite_score env) sp zn false) db3
               = (db4, Ok tt)).
  { apply ignore_run. eexists. reflexivity. }
  rewrite (bind_run _ _ _ _ _ H4).
  apply ignore_run. unfold returns, Tips.update_species_zone_tip.
  destruct (negb _); eexists; reflexivity.
Qed.

Lemma prior_zone_count_nonneg (species zone_id : string) (c : ConditionLearning.conditions)
    (tbl : list ZoneConditionEffect.t) :
  Forall (fun r => (0 <= ZoneConditionEffect.success_count r)%R) tbl ->
  (0 <= prior_zone_count species zone_id c tbl)%R.
Proof.
  intros Hpos. unfold prior_zone_count. destruct (find _ tbl) as [r|] eqn:Hfind; [|lra].
  rewrite Forall_forall in Hpos. apply Hpos, list_elem_of_In.
  exact (proj1 (find_some _ _ Hfind)).
Qed.

Lemma prior_rig_condition_count_nonneg (species rig : string)
    (c : ConditionLearning.conditions) (tbl : list RigConditionEffect.t) :
  Forall (fun r => (0 <= RigConditionEffect.success_count r)%R) tbl ->
  (0 <= prior_rig_condition_count species rig c tbl)%R.
Proof.
  intros Hpos. unfold prior_rig_condition_count.
  destruct (find _ tbl) as [r|] eqn:Hfind; [|lra].
  rewrite Forall_forall in Hpos. apply Hpos, list_elem_of_In.
  exact (proj1 (find_some _ _ Hfind)).
Qed.

(** X14: a catch with a rig, logged at a known tide while no step fails,
    teaches both condition tables the multiplier of the catch - 0.15 for a
    crab trap, 1 otherwise: afterwards the weights the scorer reads for the
    conditions of the catch are the capped logarithms of the old counts
    plus the multiplier. *)
Theorem log_catch_learns_conditions (env : Env) (catch_data : Main.CatchCreate) (db : DB)
    (rig : string) :
  let sp := Main.species catch_data in
  let zn := Main.zone_id catch_data in
  let c := conditions_for_learning env catch_data in
  let m := (if Main.is_crab_trap sp (Some rig) then 0.15 else 1)%R in
  Main.presentation catch_data = Some rig ->
  rig <> "" -> rig <> "unknown" ->
  ConditionLearning.classify_tide (ConditionLearning.cond_tide_stage c) <> "unknown" ->
  healthy env ->
  counts_nonneg db ->
  let db' := fst (Main.log_catch env catch_data db) in
  ConditionLearning.get_zone_condition_weight db' sp zn c
  = Rmin 4 (ln (prior_zone_count sp zn c (zone_condition_effects db) + m + 1))
  /\ ConditionLearning.get_rig_condition_weight db' sp (Some rig) c
     = Rmin 4 (ln (prior_rig_condition_count sp rig c (rig_condition_effects db) + m + 1)).
Proof.
  intros sp zn c m Hrig Hne Hunk Htide Hh Hcounts db'. subst db'.
  assert (Hm : (0 <= m)%R) by (subst m; destruct (Main.is_crab_trap sp (Some rig)); lra).
  rewrite (log_catch_committed _ _ _ (Hh _ _ _)). cbn [fst].
  rewrite event_triggers_pipeline; [|exact Hh|exact Hcounts]. cbv zeta. cbn [fst].
  rewrite Hrig.
  change (Catch.species (new_catch env catch_data db)) with sp.
  change (Catch.zone_id (new_catch env catch_data db)) with zn.
  change (ConditionLearning.mkConditions (Catch.tide_stage (new_catch env catch_data db))
            (Some "clean") (Catch.wind_direction (new_catch env catch_data db))
            (Catch.current_speed (new_catch env catch_data db))) with c.
  fold m.
  set (db0 := set_catches db _).
  set (db1 := fst (RigLearning.update_rig_effect false (utcnow env) sp zn (Some rig) db0)).
  assert (F1z : zone_condition_effects db1 = zone_condition_effects db)
    by (subst db1; rewrite update_rig_effect_frames; reflexivity).
  assert (F1r : rig_condition_effects db1 = rig_condition_effects db)
    by (subst db1; rewrite update_rig_effect_frames; reflexivity).
  destruct Hcounts as (_ & Hzce & Hrce).
  destruct (update_zone_condition_effect_known db1 sp zn c m Htide Hm)
    as (zrow & Hzup & Hzkey & Hzcount & Hzweight).
  { rewrite F1z. now apply prior_zone_count_nonneg. }
  set (db2 := fst (ConditionLearning.update_zone_condition_effect false sp zn c m db1)).
  assert (E2 : db2 = set_zone_condition_effects db1
                       (store (ConditionLearning.same_zone_condition sp zn
                                 (ConditionLearning.classify_tide
                                    (ConditionLearning.cond_tide_stage c))
                                 (ConditionLearning.classify_clarity
                                    (ConditionLearning.cond_clarity c))
                                 (ConditionLearning.classify_wind
                                    (ConditionLearning.cond_wind_direction c) sp)
                                 (ConditionLearning.classify_current
                                    (ConditionLearning.cond_current_speed c)))
                              zrow (zone_condition_effects db1)))
    by (subst db2; now rewrite Hzup).
  assert (F2r : rig_condition_effects db2 = rig_condition_effects db)
    by (rewrite E2; exact F1r).
  destruct (update_rig_condition_effect_known db2 sp rig c m Hne Hunk Htide Hm)
    as (rrow & Hrup & Hrkey & Hrcount & Hrweight).
  { rewrite F2r. now apply prior_rig_condition_count_nonneg. }
  set (db3 := fst (ConditionLearning.update_rig_condition_effect false sp (Some rig) c m db2)).
  assert (E3 : db3 = set_rig_condition_effects db2
                       (store (ConditionLearning.same_rig_condition sp rig
                                 (ConditionLearning.classify_tide
                                    (ConditionLearning.cond_tide_stage c))
                                 (ConditionLearning.classify_clarity
                                    (ConditionLearning.cond_clarity c)))
                              rrow (rig_condition_effects db2)))
    by (subst db3; now rewrite Hrup).
  set (db4 := fst (ScoreCache.recalculate_bite_score _ _ _ _ _ _ db3)).
  set (db5 := fst (Tips.update_species_zone_tip _ _ _ _ _ db4)).
  assert (F5z : zone_condition_effects db5 = zone_condition_effects db2).
  { subst db5. rewrite update_species_zone_tip_frames by reflexivity.
    subst db4. rewrite recalculate_bite_score_frames by reflexivity.
    rewrite E3. reflexivity. }
  assert (F5r : rig_condition_effects db5 = rig_condition_effects db3).
  { subst db5. rewrite update_species_zone_tip_frames by reflexivity.
    subst db4. now rewrite recalculate_bite_score_frames by reflexivity. }
  apply String.eqb_neq in Htide.
  unfold ConditionLearning.get_zone_condition_weight,
    ConditionLearning.get_rig_condition_weight.
  rewrite (truthy_Some _ Hne), Htide, F5z, F5r, E2, E3. cbn [negb default].
  cbn [zone_condition_effects rig_condition_effects set_zone_condition_effects
       set_rig_condition_effects].
  rewrite (find_store _ _ _ Hzkey), (find_store _ _ _ Hrkey).
  rewrite Hzweight, Hzcount, Hrweight, Hrcount, F1z, F2r. split; reflexivity.
Qed.

(** The theorem at the first crab-trap catch. *)
Lemma log_catch_learns_conditions_witness :
  let c := conditions_for_learning quiet_env crab_trap_catch in
  let db' := fst (Main.log_catch quiet_env crab_trap_catch empty_db) in
  ConditionLearning.get_zone_condition_weight db' "blue_crab" "Zone 1" c
  = Rmin 4 (ln (0 + 0.15 + 1))
  /\ ConditionLearning.get_rig_condition_weight db' "blue_crab" (Some "crab_trap") c
     = Rmin 4 (ln (0 + 0.15 + 1)).
Proof.
  apply (log_catch_learns_conditions quiet_env crab_trap_catch empty_db "crab_trap").
  - reflexivity.
  - discriminate.
  - discriminate.
  - discriminate.
  - intros s sp zn. reflexivity.
  - repeat split; constructor.
Defined.

(** ** A trigger that raises *)

Lemma bind_raises {A B : Type} (m : M A) (k : A -> M B) (db : DB) (e : exn) :
  m db = (db, Raised e) -> bind m k db = (db, Raised e).
Proof. unfold bind. now intros ->. Qed.

(** X15: the triggers of a catch share one [try]: when the zone-condition
    update raises (at a known tide), the catch is logged all the same, and
    the rig-condition table, the score cache and the tips are left as they
    were - the cached score of the pair does not see the new catch. *)
Theorem failed_trigger_skips_the_rest (env : Env) (catch_data : Main.CatchCreate) (db : DB) :
  let sp := Main.species catch_data in
  let zn := Main.zone_id catch_data in
  db_fails env CommitStep sp zn = false ->
  db_fails env ZoneConditionStep sp zn = true ->
  ConditionLearning.classify_tide (tide_stage_for_timestamp env (catch_time env catch_data))
  <> "unknown" ->
  let db' := fst (Main.log_catch env catch_data db) in
  snd (Main.log_catch env catch_data db)
  = Main.Logged (Main.next_id (catches db)) sp zn (catch_time env catch_data)
  /\ catches db' = (catches db ++ [new_catch env catch_data db])%list
  /\ zone_condition_effects db' = zone_condition_effects db
  /\ rig_condition_effects db' = rig_condition_effects db
  /\ bite_scores db' = bite_scores db
  /\ species_zone_tips db' = species_zone_tips db.
Proof.
  intros sp zn Hcommit Hfail Htide db'. subst db'.
  rewrite (log_catch_committed _ _ _ Hcommit). cbn [fst snd].
  split; [reflexivity|]. split; [now rewrite event_triggers_frames_catches|].
  assert (Hrest : forall {X : Type} (f : DB -> X),
             (forall d l, f (set_rig_effects d l) = f d) ->
             forall d, f (fst (Main.event_triggers env (new_catch env catch_data db)
                                 (Main.presentation catch_data) d)) = f d).
  { intros X f Hf d. unfold Main.event_triggers. cbv zeta.
    apply (frames_bind f); [auto with frames|]. intros _ d1.
    cbn [new_catch Catch.species Catch.zone_id Catch.tide_stage]. fold sp zn.
    rewrite Hfail.
    erewrite bind_raises; [reflexivity|].
    unfold ignore. erewrite bind_raises; [reflexivity|].
    unfold ConditionLearning.update_zone_condition_effect.
    cbn [ConditionLearning.cond_tide_stage].
    apply String.eqb_neq in Htide. rewrite Htide. reflexivity. }
  repeat split; now rewrite Hrest.
Qed.

(** The theorem in the environment where only the zone-condition update
    raises, on the database that holds a cached score and a tip. *)
Lemma failed_trigger_skips_the_rest_witness :
  let db' := fst (Main.log_catch zone_step_failing_env jig_catch db_learned) in
  snd (Main.log_catch zone_step_failing_env jig_catch db_learned)
  = Main.Logged 2 "speckled_trout" "Zone 3" 0
  /\ catches db' = [ten_trout; new_catch zone_step_failing_env jig_catch db_learned]
  /\ zone_condition_effects db' = [learned_zone_condition]
  /\ rig_condition_effects db' = [learned_rig_condition]
  /\ bite_scores db' = [cached_forty]
  /\ species_zone_tips db' = [old_tip].
Proof.
  apply (failed_trigger_skips_the_rest zone_step_failing_env jig_catch db_learned).
  - reflexivity.
  - reflexivity.
  - discriminate.
Defined.


(** ** The seasonal baseline and its two labellings *)

Ltac split_Rle_dec :=
  repeat match goal with
         | |- context [Rle_dec ?a ?b] => destruct (Rle_dec a b); try lra
         end.

(** X16: the baseline of a running factor is one of the steps from 0 to 90
    and never decreases with the factor; on every baseline the calendar
    produces, the label the scorer reports ([get_baseline_label]) is the
    label of the calendar ([baseline_to_rating_label]), although the two
    disagree elsewhere (at a baseline of 10, for one). *)
Theorem baseline_labels_agree (running_factor : R) :
  let baseline := Calendar.running_factor_to_baseline running_factor in
  (0 <= baseline <= 90)%R
  /\ Hyperlocal.get_baseline_label baseline = Calendar.baseline_to_rating_label baseline
  /\ (forall smaller, (smaller <= running_factor)%R ->
        (Calendar.running_factor_to_baseline smaller <= baseline)%R)
  /\ Hyperlocal.get_baseline_label 10 <> Calendar.baseline_to_rating_label 10.
Proof.
  cbv zeta. split; [|split; [|split]].
  - unfold Calendar.running_factor_to_baseline. split_Rle_dec.
  - unfold Calendar.running_factor_to_baseline.
    destruct (Rle_dec running_factor 0);
      [|destruct (Rle_dec running_factor 0.2);
        [|destruct (Rle_dec running_factor 0.3);
          [|destruct (Rle_dec running_factor 0.4);
            [|destruct (Rle_dec running_factor 0.5);
              [|destruct (Rle_dec running_factor 0.6);
                [|destruct (Rle_dec running_factor 0.7);
                  [|destruct (Rle_dec running_factor 0.8);
                    [|destruct (Rle_dec running_factor 0.9)]]]]]]]];
      unfold Hyperlocal.get_baseline_label, Calendar.baseline_to_rating_label;
      split_Rle_dec; reflexivity.
  - intros smaller Hle. unfold Calendar.running_factor_to_baseline. split_Rle_dec.
  - unfold Hyperlocal.get_baseline_label, Calendar.baseline_to_rating_label.
    split_Rle_dec. discriminate.
Qed.

(** ** Rounding to tenths *)

Lemma Int_part_bounds (x : R) : (IZR (Int_part x) <= x < IZR (Int_part x) + 1)%R.
Proof. destruct (base_Int_part x). lra. Qed.

Lemma Int_part_mono (x y : R) : (x <= y)%R -> Int_part x <= Int_part y.
Proof.
  intros Hxy. pose proof (Int_part_bounds x). pose proof (Int_part_bounds y).
  apply Z.lt_succ_r. apply lt_IZR. rewrite succ_IZR. lra.
Qed.

Lemma Int_part_IZR (n : Z) : Int_part (IZR n) = n.
Proof.
  pose proof (Int_part_bounds (IZR n)) as [Hlo Hhi].
  apply le_IZR in Hlo.
  assert (n < Int_part (IZR n) + 1) by (apply lt_IZR; rewrite plus_IZR; exact Hhi).
  lia.
Qed.

Lemma round_half_even_cases (x : R) :
  (Hyperlocal.round_half_even x = Int_part x /\ (x - IZR (Int_part x) <= 1 / 2)%R)
  \/ (Hyperlocal.round_half_even x = Int_part x + 1 /\ (1 / 2 <= x - IZR (Int_part x))%R).
Proof.
  unfold Hyperlocal.round_half_even. cbv zeta.
  destruct (Rlt_dec _ _); [left; split; [reflexivity | lra]|].
  destruct (Rlt_dec _ _); [right; split; [reflexivity | lra]|].
  destruct (Z.even _); [left | right]; split; try reflexivity; lra.
Qed.

Lemma round_half_even_mono (x y : R) :
  (x <= y)%R -> Hyperlocal.round_half_even x <= Hyperlocal.round_half_even y.
Proof.
  intros Hxy. pose proof (Int_part_mono x y Hxy) as Hn.
  destruct (Z.eq_dec (Int_part x) (Int_part y)) as [Heq|Hne].
  - unfold Hyperlocal.round_half_even. cbv zeta. rewrite Heq.
    repeat match goal with
           | |- context [Rlt_dec ?a ?b] => destruct (Rlt_dec a b); try lra
           end;
      try lia; destruct (Z.even (Int_part y)); lia.
  - destruct (round_half_even_cases x) as [[-> _]|[-> _]],
             (round_half_even_cases y) as [[-> _]|[-> _]]; lia.
Qed.

Lemma round_half_even_IZR (n : Z) : Hyperlocal.round_half_even (IZR n) = n.
Proof.
  unfold Hyperlocal.round_half_even. cbv zeta. rewrite Int_part_IZR.
  destruct (Rlt_dec _ _); [reflexivity | lra].
Qed.

Lemma round1_mono (x y : R) : (x <= y)%R -> (Hyperlocal.round1 x <= Hyperlocal.round1 y)%R.
Proof.
  intros Hxy. unfold Hyperlocal.round1.
  assert (H : Hyperlocal.round_half_even (x * 10) <= Hyperlocal.round_half_even (y * 10))
    by (apply round_half_even_mono; lra).
  apply IZR_le in H. lra.
Qed.

Lemma round1_range (x : R) :
  (0 <= x <= 100)%R -> (0 <= Hyperlocal.round1 x <= 100)%R.
Proof.
  intros [H0 H100]. unfold Hyperlocal.round1.
  assert (Hlo : Hyperlocal.round_half_even (IZR 0) <= Hyperlocal.round_half_even (x * 10))
    by (apply round_half_even_mono; lra).
  assert (Hhi : Hyperlocal.round_half_even (x * 10) <= Hyperlocal.round_half_even (IZR 1000))
    by (apply round_half_even_mono; lra).
  rewrite round_half_even_IZR in Hlo, Hhi.
  apply IZR_le in Hlo. apply IZR_le in Hhi. lra.
Qed.

Lemma round1_near (x : R) : (Rabs (Hyperlocal.round1 x - x) <= 0.05)%R.
Proof.
  unfold Hyperlocal.round1. pose proof (Int_part_bounds (x * 10)).
  apply Rabs_le.
  destruct (round_half_even_cases (x * 10)) as [[-> Hr]|[-> Hr]];
    [|rewrite plus_IZR]; lra.
Qed.

Lemma clamp_mono (x y : R) : (x <= y)%R -> (Rmax 0 (Rmin 100 x) <= Rmax 0 (Rmin 100 y))%R.
Proof.
  intros Hxy. unfold Rmax, Rmin.
  destruct (Rle_dec 100 x), (Rle_dec 100 y); try lra;
    destruct (Rle_dec 0 _), (Rle_dec 0 _); lra.
Qed.

(** ** The raw score of a pair *)

Lemma str_in_In (x : string) (l : list string) : Py.str_in x l = true <-> In x l.
Proof.
  unfold Py.str_in. rewrite existsb_exists. split.
  - intros [y [Hy Heq]]. apply String.eqb_eq in Heq. now subst.
  - intros Hx. exists x. split; [exact Hx | apply String.eqb_refl].
Qed.

(** Speckled trout is the one species that is both scored in full and prey. *)
Lemma full_scoring_prey (species : string) :
  SpeciesTiers.should_use_full_scoring species = true ->
  Hyperlocal.is_prey_species species = true ->
  species = "speckled_trout".
Proof.
  unfold SpeciesTiers.should_use_full_scoring, SpeciesTiers.get_species_tier,
    Hyperlocal.is_prey_species.
  destruct (Py.str_in species SpeciesTiers.TIER_1_SPECIES) eqn:Htier.
  - intros _ Hprey. apply str_in_In in Htier. apply str_in_In in Hprey.
    simpl in Htier, Hprey.
    destruct Htier as [<-|[<-|[<-|[<-|[<-|[]]]]]];
      destruct Hprey as [H|[H|[H|[H|[H|[]]]]]]; try discriminate H; reflexivity.
  - destruct (Py.str_in species SpeciesTiers.TIER_2_SPECIES); discriminate.
Qed.

(** X17: the raw score of a pair is a whole number of tenths within
    [0, 100], whatever the helpers return; for a species outside Tier 1 it
    reads no table, so that no catch and no predator sighting moves it. *)
Theorem zone_score_range (h : Hyperlocal.helpers) (f : Hyperlocal.faults) (now : Z) (db : DB)
    (species zone_id : string) :
  (0 <= Hyperlocal.calculate_zone_bite_score h f now db species zone_id <= 100)%R
  /\ (exists tenths : Z,
        0 <= tenths <= 1000
        /\ Hyperlocal.calculate_zone_bite_score h f now db species zone_id
           = (IZR tenths / 10)%R)
  /\ (SpeciesTiers.get_species_tier species <> 1 ->
      forall f' now' db',
        Hyperlocal.calculate_zone_bite_score h f' now' db' species zone_id
        = Hyperlocal.calculate_zone_bite_score h f now db species zone_id).
Proof.
  unfold Hyperlocal.calculate_zone_bite_score. cbv zeta.
  set (final := if SpeciesTiers.should_use_full_scoring species then _ else _).
  pose proof (clamp_range final) as Hclamp.
  pose proof (round1_range _ Hclamp) as Hround.
  split; [exact Hround|]. split.
  - exists (Hyperlocal.round_half_even (Rmax 0 (Rmin 100 final) * 10)).
    split; [|reflexivity].
    unfold Hyperlocal.round1 in Hround.
    split; [apply le_IZR | apply le_IZR]; lra.
  - intros Htier f' now' db'. subst final.
    unfold SpeciesTiers.should_use_full_scoring.
    destruct (Z.eqb_spec (SpeciesTiers.get_species_tier species) 1) as [Heq|_];
      [contradiction | reflexivity].
Qed.


Lemma catch_count_app (species zone_id : string) (l1 l2 : list Catch.t) :
  Confidence.catch_count species zone_id (l1 ++ l2)
  = Confidence.catch_count species zone_id l1 + Confidence.catch_count species zone_id l2.
Proof.
  unfold Confidence.catch_count. rewrite List.filter_app, length_app. lia.
Qed.









(** ** Predator sightings and the raw score *)

Lemma hours_ago_antitone (now t1 t2 : Z) :
  t1 <= t2 -> (hours_ago now t2 <= hours_ago now t1)%R.
Proof.
  intros Ht. unfold hours_ago, total_seconds.
  assert (IZR (now - t2) <= IZR (now - t1))%R by (apply IZR_le; lia). lra.
Qed.

Lemma max_by_time_snoc (p q : PredatorLog.t) (l : list PredatorLog.t) :
  Hyperlocal.max_by_time p (l ++ [q])
  = if PredatorLog.time (Hyperlocal.max_by_time p l) <? PredatorLog.time q
    then q else Hyperlocal.max_by_time p l.
Proof. unfold Hyperlocal.max_by_time. now rewrite fold_left_app. Qed.

Lemma predator_penalty_nonpos (h : R) : (-8 * Rmax 0 (1 - h / 4) <= 0)%R.
Proof. pose proof (Rmax_l 0 (1 - h / 4)). lra. Qed.

Lemma predator_penalty_antitone (h h' : R) :
  (h' <= h)%R -> (-8 * Rmax 0 (1 - h' / 4) <= -8 * Rmax 0 (1 - h / 4))%R.
Proof.
  intros Hh.
  assert (Rmax 0 (1 - h / 4) <= Rmax 0 (1 - h' / 4))%R
    by (apply Rle_max_compat_l; lra).
  lra.
Qed.

(** One more sighting never raises the predator modifier. *)
Lemma predator_modifier_sinks (fails : bool) (now : Z) (db : DB) (species zone_id : string)
    (p : PredatorLog.t) :
  (Hyperlocal.calculate_predator_modifier fails now
     (set_predator_logs db (predator_logs db ++ [p])) species zone_id
   <= Hyperlocal.calculate_predator_modifier fails now db species zone_id)%R.
Proof.
  unfold Hyperlocal.calculate_predator_modifier.
  destruct (negb _); [lra|]. destruct fails; [lra|]. cbv zeta.
  cbn [predator_logs set_predator_logs].
  unfold Hyperlocal.recent_predators. rewrite List.filter_app.
  fold (Hyperlocal.recent_predators (now - timedelta_hours 4) zone_id (predator_logs db)).
  simpl List.filter.
  destruct (_ && _)%bool; [|rewrite app_nil_r; lra].
  destruct (Hyperlocal.recent_predators _ _ _) as [|q l]; simpl app.
  - apply predator_penalty_nonpos.
  - cbv beta iota. rewrite max_by_time_snoc.
    destruct (Z.ltb_spec (PredatorLog.time (Hyperlocal.max_by_time q l)) (PredatorLog.time p))
      as [Hlt|Hge]; [|lra].
    apply predator_penalty_antitone, hours_ago_antitone. lia.
Qed.

(** X19: logging a predator sighting never raises the raw score of any
    pair, and it leaves the raw score as it was for every species but
    speckled trout (the one prey species scored in full) and for every
    other zone. *)
Theorem predator_never_raises_zone_score (h : Hyperlocal.helpers) (f : Hyperlocal.faults)
    (now : Z) (db : DB) (p : PredatorLog.t) (species zone_id : string) :
  let db' := set_predator_logs db (predator_logs db ++ [p]) in
  (Hyperlocal.calculate_zone_bite_score h f now db' species zone_id
   <= Hyperlocal.calculate_zone_bite_score h f now db species zone_id)%R
  /\ (species <> "speckled_trout" \/ zone_id <> PredatorLog.zone p ->
      Hyperlocal.calculate_zone_bite_score h f now db' species zone_id
      = Hyperlocal.calculate_zone_bite_score h f now db species zone_id).
Proof.
  intros db'.
  assert (Hact : Hyperlocal.calculate_recent_activity_modifier
                   (Hyperlocal.activity_fails f) now db' species zone_id
                   (Confidence.calculate_species_zone_confidence
                      (Hyperlocal.confidence_fails f) db' species zone_id)
                 = Hyperlocal.calculate_recent_activity_modifier
                     (Hyperlocal.activity_fails f) now db species zone_id
                     (Confidence.calculate_species_zone_confidence
                        (Hyperlocal.confidence_fails f) db species zone_id))
    by reflexivity.
  split.
  - unfold Hyperlocal.calculate_zone_bite_score. cbv zeta. rewrite Hact.
    destruct (SpeciesTiers.should_use_full_scoring species); [|lra].
    apply round1_mono, clamp_mono.
    pose proof (predator_modifier_sinks (Hyperlocal.predator_fails f) now db species
                  zone_id p) as Hsink.
    fold db' in Hsink. lra.
  - intros Hother. unfold Hyperlocal.calculate_zone_bite_score. cbv zeta. rewrite Hact.
    destruct (SpeciesTiers.should_use_full_scoring species) eqn:Hfull; [|reflexivity].
    assert (Hpred : Hyperlocal.calculate_predator_modifier (Hyperlocal.predator_fails f)
                      now db' species zone_id
                    = Hyperlocal.calculate_predator_modifier (Hyperlocal.predator_fails f)
                        now db species zone_id).
    { unfold Hyperlocal.calculate_predator_modifier.
      destruct (Hyperlocal.is_prey_species species) eqn:Hprey; [|reflexivity].
      cbn [negb]. destruct (Hyperlocal.predator_fails f); [reflexivity|]. cbv zeta.
      subst db'. cbn [predator_logs set_predator_logs].
      unfold Hyperlocal.recent_predators. rewrite List.filter_app. simpl List.filter.
      destruct Hother as [Hsp|Hzn]; [destruct Hsp; now apply full_scoring_prey|].
      destruct (String.eqb_spec (PredatorLog.zone p) zone_id) as [Heq|_];
        [now destruct Hzn|].
      cbn [andb]. now rewrite app_nil_r. }
    now rewrite Hpred.
Qed.

(** ** POST /api/predator-logs and the periodic job: which scores they refresh *)

Section RecalcFold.

Context (env : Env) (run : DB -> string * string -> DB).
Hypothesis run_cache :
  forall d p,
    bite_scores (run d p)
    = bite_scores
        (fst (ScoreCache.recalculate_bite_score
                (db_fails env BiteScoreStep (fst p) (snd p)) (utcnow env)
                (calculate_zone_bite_score env) (fst p) (snd p) false d)).

(** A pair that is not recomputed, or whose recompute raises, keeps its
    cached row. *)
Lemma fold_recalc_keeps (l : list (string * string)) (d : DB) (species zone_id : string) :
  ~ In (species, zone_id) l \/ db_fails env BiteScoreStep species zone_id = true ->
  find (ScoreCache.same_pair species zone_id) (bite_scores (fold_left run l d))
  = find (ScoreCache.same_pair species zone_id) (bite_scores d).
Proof.
  revert d. induction l as [|[sp zn] l IH]; intros d Hcase; [reflexivity|].
  simpl fold_left. rewrite IH by (simpl in Hcase; tauto).
  rewrite run_cache. cbn [fst snd].
  destruct (db_fails env BiteScoreStep sp zn) eqn:Hfails; [reflexivity|].
  destruct (recalculate_bite_score_writes (utcnow env) (calculate_zone_bite_score env)
              sp zn false d) as (row & Hrec & Hkey & _).
  rewrite Hrec. cbn [fst bite_scores set_bite_scores].
  assert (Hne : (species, zone_id) <> (sp, zn)).
  { intros [= -> ->]. destruct Hcase as [Hnin|Hf]; [|congruence].
    apply Hnin. now left. }
  rewrite (find_store_other (ScoreCache.same_pair sp zn)); [reflexivity| |].
  - intros x. now apply same_pair_other.
  - now apply (same_pair_other sp zn).
Qed.

(** A pair that is recomputed without raising ends with a row of this run. *)
Lemma fold_recalc_fresh (l : list (string * string)) (d : DB) (species zone_id : string) :
  In (species, zone_id) l ->
  db_fails env BiteScoreStep species zone_id = false ->
  exists row,
    find (ScoreCache.same_pair species zone_id) (bite_scores (fold_left run l d)) = Some row
    /\ BiteScore.last_updated row = utcnow env
    /\ (0 <= BiteScore.score row <= 100)%R.
Proof.
  intros Hin Hok. revert d. induction l as [|p l IH]; intros d; [destruct Hin|].
  simpl fold_left.
  destruct (decide ((species, zone_id) ∈ l)) as [Hl|Hl]; rewrite list_elem_of_In in Hl;
    [now apply IH|].
  destruct Hin as [->|Hin]; [|contradiction].
  rewrite fold_recalc_keeps by now left.
  rewrite run_cache. cbn [fst snd]. rewrite Hok.
  destruct (recalculate_bite_score_writes (utcnow env) (calculate_zone_bite_score env)
              species zone_id false d) as (row & Hrec & Hkey & Hscore & _ & _ & Hnow).
  rewrite Hrec. cbn [fst bite_scores set_bite_scores].
  exists row. split; [now apply find_store|]. split; [exact Hnow|].
  rewrite Hscore. apply smoothed_score_range.
Qed.

End RecalcFold.

Lemma log_predator_run (env : Env) (zone : string) (l : list string) (d : DB) :
  fold_left (Main.recalc_prey env zone) l d
  = fold_left (fun d p => Main.recalc_prey env (snd p) d (fst p))
      (map (fun prey => (prey, zone)) l) d.
Proof.
  revert d. induction l as [|prey l IH]; intros d; [reflexivity|].
  simpl. apply IH.
Qed.

Lemma recalc_prey_cache (env : Env) (d : DB) (p : string * string) :
  bite_scores (Main.recalc_prey env (snd p) d (fst p))
  = bite_scores
      (fst (ScoreCache.recalculate_bite_score
              (db_fails env BiteScoreStep (fst p) (snd p)) (utcnow env)
              (calculate_zone_bite_score env) (fst p) (snd p) false d)).
Proof.
  unfold Main.recalc_prey, try_except_log.
  now destruct (ScoreCache.recalculate_bite_score _ _ _ _ _ _ d).
Qed.

Lemma recalc_prey_frames {X : Type} (f : DB -> X) (env : Env) (zone : string)
    (l : list string) (d : DB) :
  (forall d l, f (set_bite_scores d l) = f d) ->
  f (fold_left (Main.recalc_prey env zone) l d) = f d.
Proof.
  intros Hf. revert d. induction l as [|prey l IH]; intros d; [reflexivity|].
  simpl. rewrite IH. unfold Main.recalc_prey.
  apply frames_try_except_log. auto with frames.
Qed.

(** X20: a committed predator sighting is appended to the log, and the
    cached scores of the four prey species in its zone are recomputed, each
    in its own [try]: every prey species whose recompute does not raise has
    a row of this request with a score within [0, 100], a recompute that
    raises leaves the old row, and the cached rows of all other pairs, the
    catches and the tips are untouched. *)
Theorem log_predator_refreshes_prey (env : Env) (predator_data : Main.PredatorLogCreate)
    (db : DB) :
  db_fails env CommitStep (Main.predator predator_data) (Main.zone predator_data) = false ->
  let db' := fst (Main.log_predator env predator_data db) in
  let zone := Main.zone predator_data in
  (exists sighting_time,
     snd (Main.log_predator env predator_data db)
     = Main.PredatorLogged (Main.predator predator_data) zone sighting_time
     /\ predator_logs db'
        = (predator_logs db
           ++ [PredatorLog.mk sighting_time (Main.predator predator_data) zone])%list)
  /\ (forall prey,
        In prey Main.prey_species ->
        db_fails env BiteScoreStep prey zone = false ->
        exists row,
          ScoreCache.get_cached_bite_score db' prey zone = Some row
          /\ BiteScore.last_updated row = utcnow env
          /\ (0 <= BiteScore.score row <= 100)%R)
  /\ (forall species zone_id,
        ~ (In species Main.prey_species /\ zone_id = zone)
        \/ db_fails env BiteScoreStep species zone_id = true ->
        ScoreCache.get_cached_bite_score db' species zone_id
        = ScoreCache.get_cached_bite_score db species zone_id)
  /\ catches db' = catches db
  /\ species_zone_tips db' = species_zone_tips db.
Proof.
  intros Hcommit db' zone. subst db'. unfold Main.log_predator. rewrite Hcommit.
  cbv zeta. cbn [fst snd PredatorLog.zone PredatorLog.predator PredatorLog.time].
  fold zone.
  set (sighting_time := match Main.time predator_data with
                        | Some t => central_to_utc env t
                        | None => central_to_utc env (central_now env)
                        end).
  set (db1 := set_predator_logs db _).
  split; [|split; [|split; [|split]]].
  - exists sighting_time. split; [reflexivity|].
    now rewrite (recalc_prey_frames predator_logs).
  - intros prey Hprey Hok. unfold ScoreCache.get_cached_bite_score.
    rewrite log_predator_run.
    apply (fold_recalc_fresh env _ (recalc_prey_cache env)); [|exact Hok].
    apply in_map_iff. now exists prey.
  - intros species zone_id Hcase. unfold ScoreCache.get_cached_bite_score.
    rewrite log_predator_run.
    rewrite (fold_recalc_keeps env _ (recalc_prey_cache env)); [reflexivity|].
    destruct Hcase as [Hnot|Hf]; [left|now right].
    intros Hin. apply in_map_iff in Hin as (prey & [= <- <-] & Hprey). now apply Hnot.
  - now rewrite (recalc_prey_frames catches).
  - now rewrite (recalc_prey_frames species_zone_tips).
Qed.

(** A dolphin in Zone 3 while every recompute succeeds: the cached score of
    speckled trout is refreshed, the tip and the catches stay. *)
Lemma log_predator_refreshes_prey_witness :
  let db' := fst (Main.log_predator quiet_env
                    (Main.mkPredatorLogCreate "dolphin" "Zone 3" None) db_learned) in
  (exists sighting_time,
     snd (Main.log_predator quiet_env (Main.mkPredatorLogCreate "dolphin" "Zone 3" None)
            db_learned)
     = Main.PredatorLogged "dolphin" "Zone 3" sighting_time
     /\ predator_logs db' = [PredatorLog.mk sighting_time "dolphin" "Zone 3"])
  /\ (exists row,
        ScoreCache.get_cached_bite_score db' "speckled_trout" "Zone 3" = Some row
        /\ BiteScore.last_updated row = 0
        /\ (0 <= BiteScore.score row <= 100)%R)
  /\ catches db' = [ten_trout]
  /\ species_zone_tips db' = [old_tip].
Proof.
  destruct (log_predator_refreshes_prey quiet_env
              (Main.mkPredatorLogCreate "dolphin" "Zone 3" None) db_learned eq_refl)
    as (Hlog & Hprey & _ & Hcatches & Htips).
  split; [exact Hlog|]. split; [|split; [exact Hcatches | exact Htips]].
  apply (Hprey "speckled_trout"); [now left | reflexivity].
Defined.

Lemma recalc_pair_cache (env : Env) (d : DB) (p : string * string) :
  bite_scores (fst (Scheduler.recalc_pair env p d))
  = bite_scores
      (fst (ScoreCache.recalculate_bite_score
              (db_fails env BiteScoreStep (fst p) (snd p)) (utcnow env)
              (calculate_zone_bite_score env) (fst p) (snd p) false d)).
Proof.
  destruct p as [sp zone]. unfold Scheduler.recalc_pair. cbn [fst snd].
  assert (Htry : forall (m : M unit), fst (try_except_log m d) = fst (m d))
    by (intros m; unfold try_except_log; now destruct (m d)).
  rewrite Htry.
  rewrite (bind_frames_rest bite_scores) by (intros _; auto with frames).
  unfold ignore. apply (bind_frames_rest bite_scores). intros a. apply frames_ret.
Qed.

(** X21: after the periodic job every selected pair whose recompute does
    not raise has a cached row written by this run, with a score within
    [0, 100]; a pair that is not selected, or whose recompute raises, keeps
    the row it had: one failing pair does not stop the others. *)
Theorem periodic_job_refreshes_selection (env : Env) (db : DB) (species zone_id : string) :
  let db' := Scheduler.periodic_score_recalculation env db in
  ((species, zone_id) ∈ Scheduler.pairs_to_recalc (utcnow env) db ->
   db_fails env BiteScoreStep species zone_id = false ->
   exists row,
     ScoreCache.get_cached_bite_score db' species zone_id = Some row
     /\ BiteScore.last_updated row = utcnow env
     /\ (0 <= BiteScore.score row <= 100)%R)
  /\ ((species, zone_id) ∉ Scheduler.pairs_to_recalc (utcnow env) db
      \/ db_fails env BiteScoreStep species zone_id = true ->
      ScoreCache.get_cached_bite_score db' species zone_id
      = ScoreCache.get_cached_bite_score db species zone_id).
Proof.
  intros db'. subst db'. unfold Scheduler.periodic_score_recalculation,
    ScoreCache.get_cached_bite_score.
  split.
  - intros Hin Hok.
    apply (fold_recalc_fresh env (fun d p => fst (Scheduler.recalc_pair env p d))
             (recalc_pair_cache env)); [|exact Hok].
    apply list_elem_of_In. now apply elem_of_elements.
  - intros Hcase.
    apply (fold_recalc_keeps env (fun d p => fst (Scheduler.recalc_pair env p d))
             (recalc_pair_cache env)).
    destruct Hcase as [Hnot|Hf]; [left|now right].
    intros Hin. apply Hnot. apply elem_of_elements. now apply list_elem_of_In.
Qed.


(** ** DELETE /api/catches/{catch_id} *)

Lemma next_id_above (tbl : list Catch.t) :
  Forall (fun c => Catch.id c < Main.next_id tbl) tbl.
Proof.
  unfold Main.next_id. induction tbl as [|c l IH]; constructor.
  - simpl. lia.
  - eapply Forall_impl; [exact IH|]. simpl. intros a Ha. lia.
Qed.

Lemma find_fresh_snoc {A : Type} (key : A -> bool) (tbl : list A) (row : A) :
  (forall x, In x tbl -> key x = false) -> key row = true ->
  find key (tbl ++ [row]) = Some row
  /\ delete_first key (tbl ++ [row]) = tbl
  /\ find key tbl = None.
Proof.
  intros Hfresh Hrow. induction tbl as [|x tbl IH]; simpl.
  - rewrite Hrow. auto.
  - rewrite (Hfresh x (or_introl eq_refl)).
    destruct IH as (H1 & H2 & H3); [intros y Hy; apply Hfresh; now right|].
    now rewrite H1, H2, H3.
Qed.

(** X22: deleting the catch that was just logged restores the catch table
    and answers success, but it takes nothing back from what the catch
    taught: the learning tables, the score cache and the tips stay as the
    logging left them, the RigEffect count of the rig still one higher than
    before the catch; deleting the same id again answers 404. *)
Theorem delete_catch_does_not_unlearn (env : Env) (catch_data : Main.CatchCreate) (db : DB)
    (rig : string) :
  let sp := Main.species catch_data in
  let zn := Main.zone_id catch_data in
  Main.presentation catch_data = Some rig ->
  rig <> "" -> rig <> "unknown" ->
  db_fails env CommitStep sp zn = false ->
  db_fails env RigEffectStep sp zn = false ->
  0 <= prior_count sp zn rig (rig_effects db) ->
  let db1 := fst (Main.log_catch env catch_data db) in
  let catch_id := Main.next_id (catches db) in
  let db2 := fst (Main.delete_catch false catch_id db1) in
  snd (Main.delete_catch false catch_id db1) = Main.Deleted
  /\ catches db2 = catches db
  /\ rig_effects db2 = rig_effects db1
  /\ zone_condition_effects db2 = zone_condition_effects db1
  /\ rig_condition_effects db2 = rig_condition_effects db1
  /\ bite_scores db2 = bite_scores db1
  /\ species_zone_tips db2 = species_zone_tips db1
  /\ prior_count sp zn rig (rig_effects db2) = prior_count sp zn rig (rig_effects db) + 1
  /\ Main.delete_catch false catch_id db2 = (db2, Main.DeleteError 404).
Proof.
  intros sp zn Hrig Hne Hunk Hcommit Hstep Hprior db1 catch_id db2.
  destruct (log_catch_rig_effect env catch_data db rig Hrig Hne Hunk Hcommit Hstep Hprior)
    as (row & Hfind & Hcount & _).
  fold db1 sp zn in Hfind, Hcount.
  assert (Hcatches : catches db1 = (catches db ++ [new_catch env catch_data db])%list).
  { subst db1. rewrite (log_catch_committed _ _ _ Hcommit). cbn [fst].
    now rewrite event_triggers_frames_catches. }
  destruct (find_fresh_snoc (fun c => Catch.id c =? catch_id) (catches db)
              (new_catch env catch_data db)) as (Hnew & Hdel & Hold).
  { intros x Hx. pose proof (next_id_above (catches db)) as Habove.
    rewrite Forall_forall in Habove. apply list_elem_of_In, Habove in Hx.
    apply Z.eqb_neq. subst catch_id. lia. }
  { apply Z.eqb_refl. }
  assert (Hrun : Main.delete_catch false catch_id db1
                 = (set_catches db1 (catches db), Main.Deleted)).
  { unfold Main.delete_catch. now rewrite Hcatches, Hnew, Hdel. }
  subst db2. rewrite Hrun. cbn [fst snd catches set_catches rig_effects
    zone_condition_effects rig_condition_effects bite_scores species_zone_tips].
  repeat (split; [reflexivity|]). split.
  - unfold prior_count at 1. now rewrite Hfind.
  - unfold Main.delete_catch. cbn [catches set_catches]. now rewrite Hold.
Qed.

(** The theorem at the first jig catch. *)
Lemma delete_catch_does_not_unlearn_witness :
  let db1 := fst (Main.log_catch quiet_env jig_catch empty_db) in
  let db2 := fst (Main.delete_catch false 1 db1) in
  snd (Main.delete_catch false 1 db1) = Main.Deleted
  /\ catches db2 = []
  /\ prior_count "speckled_trout" "Zone 3" "jig" (rig_effects db2) = 0 + 1.
Proof.
  destruct (delete_catch_does_not_unlearn quiet_env jig_catch empty_db "jig")
    as (Hresp & Hcatches & _ & _ & _ & _ & _ & Hcount & _);
    [reflexivity | discriminate | discriminate | reflexivity | reflexivity
    | unfold prior_count; simpl; lia |].
  split; [exact Hresp|]. split; [exact Hcatches | exact Hcount].
Defined.

(** ** The two confidence scales *)

(** X23: the confidence label cached with a score is the lower-case form
    of the confidence level that weights the recent activity of the same
    pair: 'low' goes with weight 0.3, 'medium' with 0.6, 'high' with 1. *)
Theorem confidence_scales_agree (db : DB) (species zone_id : string) :
  let confidence := Confidence.calculate_species_zone_confidence false db species zone_id in
  let label :=
    ScoreCache.get_confidence_level (Confidence.catch_count species zone_id (catches db)) in
  Py.lower (Confidence.level confidence) = label
  /\ Confidence.sample_count confidence = Confidence.catch_count species zone_id (catches db)
  /\ (label = "low" /\ Confidence.recent_activity_weight confidence = 0.3%R
      \/ label = "medium" /\ Confidence.recent_activity_weight confidence = 0.6%R
      \/ label = "high" /\ Confidence.recent_activity_weight confidence = 1%R).
Proof.
  cbv zeta. unfold Confidence.calculate_species_zone_confidence,
    ScoreCache.get_confidence_level.
  destruct (_ <? 10); [|destruct (_ <? 50)]; cbn [Confidence.level
    Confidence.sample_count Confidence.recent_activity_weight];
    (split; [reflexivity|]); (split; [reflexivity|]); tauto.
Qed.

(** ** A catch, then the score endpoint *)

(** X24: after a catch is logged with no failing step, the score endpoint
    answers for the pair of the catch with the score the triggers cached,
    stamped with the time of the triggers, under the confidence of the
    catch count that includes the new catch; the answer carries a tip
    exactly when that score is at least 50. *)
Theorem score_endpoint_after_catch (env : Env) (catch_data : Main.CatchCreate) (db : DB) :
  let sp := Main.species catch_data in
  let zn := Main.zone_id catch_data in
  healthy env ->
  counts_nonneg db ->
  tips_unique db ->
  (forall d, tip_sentence env d sp zn <> "") ->
  let db' := fst (Main.log_catch env catch_data db) in
  exists score tip,
    Main.get_zone_bite_scores env sp zn db'
    = (db', Main.Score score (ScoreCache.get_score_rating score)
              (ScoreCache.get_confidence_level
                 (Confidence.catch_count sp zn (catches db) + 1))
              tip (utcnow env))
    /\ (0 <= score <= 100)%R
    /\ (tip = None <-> (score < 50)%R).
Proof.
  intros sp zn Hh Hcounts Htips Hsentence db'. subst db'.
  rewrite (log_catch_committed _ _ _ (Hh _ _ _)). cbn [fst].
  rewrite event_triggers_pipeline; [|exact Hh|apply Hcounts]. cbv zeta. cbn [fst].
  change (Catch.species (new_catch env catch_data db)) with sp.
  change (Catch.zone_id (new_catch env catch_data db)) with zn.
  set (db0 := set_catches db _).
  set (db1 := fst (RigLearning.update_rig_effect _ _ _ _ _ db0)).
  set (db2 := fst (ConditionLearning.update_zone_condition_effect _ _ _ _ _ db1)).
  set (db3 := fst (ConditionLearning.update_rig_condition_effect _ _ _ _ _ db2)).
  assert (F3 : forall {X : Type} (f : DB -> X),
             (forall d l, f (set_rig_effects d l) = f d) ->
             (forall d l, f (set_zone_condition_effects d l) = f d) ->
             (forall d l, f (set_rig_condition_effects d l) = f d) ->
             f db3 = f db0).
  { intros X f H1 H2 H3. subst db3 db2 db1.
    rewrite update_rig_condition_effect_frames, update_zone_condition_effect_frames,
      update_rig_effect_frames by assumption. reflexivity. }
  destruct (recalculate_bite_score_writes (utcnow env) (calculate_zone_bite_score env)
              sp zn false db3) as (row & Hrec & Hkey & Hscore & Hrating & Hconf & Hnow).
  rewrite Hrec. cbn [fst].
  set (db4 := set_bite_scores db3 _).
  assert (Hcached : ScoreCache.get_cached_bite_score db4 sp zn = Some row).
  { unfold ScoreCache.get_cached_bite_score. subst db4. cbn [bite_scores set_bite_scores].
    now apply find_store. }
  assert (Htips4 : tips_unique db4).
  { unfold tips_unique. subst db4. cbn [species_zone_tips set_bite_scores].
    rewrite (F3 _ species_zone_tips) by reflexivity. exact Htips. }
  destruct (tip_follows_cached_score_aux (utcnow env) (tip_sentence env) sp zn db4 Htips4
              (Hsentence db4)) as (Htip & _).
  set (db5 := fst (Tips.update_species_zone_tip _ _ _ _ _ db4)) in *.
  assert (Hcached5 : ScoreCache.get_cached_bite_score db5 sp zn = Some row).
  { unfold ScoreCache.get_cached_bite_score. subst db5.
    rewrite update_species_zone_tip_frames by reflexivity. exact Hcached. }
  exists (BiteScore.score row), (Tips.get_tip_for_zone db5 sp zn).
  split; [|split].
  - unfold Main.get_zone_bite_scores. rewrite Hcached5, Hrating, Hconf, Hnow.
    rewrite (F3 _ catches) by reflexivity. subst db0. cbn [catches set_catches].
    rewrite catch_count_app.
    replace (Confidence.catch_count sp zn [new_catch env catch_data db]) with 1;
      [reflexivity|].
    unfold Confidence.catch_count. simpl. subst sp zn. now rewrite !String.eqb_refl.
  - rewrite Hscore. apply smoothed_score_range.
  - rewrite Htip. unfold tip_due. rewrite Hcached.
    destruct (Rlt_dec (BiteScore.score row) 50); split; intros H;
      [assumption | reflexivity | discriminate | lra].
Qed.

(** The theorem at the first jig catch on the empty database. *)
Lemma score_endpoint_after_catch_witness :
  let db' := fst (Main.log_catch quiet_env jig_catch empty_db) in
  exists score tip,
    Main.get_zone_bite_scores quiet_env "speckled_trout" "Zone 3" db'
    = (db', Main.Score score (ScoreCache.get_score_rating score)
              (ScoreCache.get_confidence_level (0 + 1)) tip 0)
    /\ (0 <= score <= 100)%R
    /\ (tip = None <-> (score < 50)%R).
Proof.
  apply (score_endpoint_after_catch quiet_env jig_catch empty_db).
  - intros s sp zn. reflexivity.
  - repeat split; constructor.
  - unfold tips_unique. simpl. constructor.
  - intros d. discriminate.
Defined.


(** ** The tide stage of a catch *)

Lemma latest_from (rows : list TideData.t) (b : TideData.t) :
  exists best,
    fold_left (fun best r =>
                 match best with
                 | None => Some r
                 | Some b => if TideData.timestamp b <=? TideData.timestamp r
                             then Some r else Some b
                 end) rows (Some b) = Some best
    /\ In best (b :: rows)
    /\ forall r, In r (b :: rows) -> TideData.timestamp r <= TideData.timestamp best.
Proof.
  revert b. induction rows as [|x rows IH]; intros b; simpl.
  - exists b. split; [reflexivity|]. split; [now left|]. intros r [<-|[]]. lia.
  - destruct (Z.leb_spec (TideData.timestamp b) (TideData.timestamp x)) as [Hlt|Hge].
    + destruct (IH x) as (best & Hf & Hin & Hmax). exists best.
      split; [exact Hf|]. split; [simpl in Hin; tauto|].
      intros r [<-|[<-|Hr]].
      * specialize (Hmax x (or_introl eq_refl)). lia.
      * apply Hmax. now left.
      * apply Hmax. now right.
    + destruct (IH b) as (best & Hf & Hin & Hmax). exists best.
      split; [exact Hf|]. split; [simpl in Hin; tauto|].
      intros r [<-|[<-|Hr]].
      * apply Hmax. now left.
      * specialize (Hmax b (or_introl eq_refl)). lia.
      * apply Hmax. now right.
Qed.

Lemma latest_spec (rows : list TideData.t) :
  match TideService.latest rows with
  | None => rows = []
  | Some best =>
      In best rows /\ forall r, In r rows -> TideData.timestamp r <= TideData.timestamp best
  end.
Proof.
  unfold TideService.latest. destruct rows as [|b rows]; [reflexivity|].
  simpl. destruct (latest_from rows b) as (best & Hf & Hin & Hmax).
  rewrite Hf. now split.
Qed.

Lemma earliest_from (rows : list TideData.t) (b : TideData.t) :
  exists best,
    fold_left (fun best r =>
                 match best with
                 | None => Some r
                 | Some b => if TideData.timestamp r <? TideData.timestamp b
                             then Some r else Some b
                 end) rows (Some b) = Some best
    /\ In best (b :: rows)
    /\ forall r, In r (b :: rows) -> TideData.timestamp best <= TideData.timestamp r.
Proof.
  revert b. induction rows as [|x rows IH]; intros b; simpl.
  - exists b. split; [reflexivity|]. split; [now left|]. intros r [<-|[]]. lia.
  - destruct (Z.ltb_spec (TideData.timestamp x) (TideData.timestamp b)) as [Hlt|Hge].
    + destruct (IH x) as (best & Hf & Hin & Hmin). exists best.
      split; [exact Hf|]. split; [simpl in Hin; tauto|].
      intros r [<-|[<-|Hr]].
      * specialize (Hmin x (or_introl eq_refl)). lia.
      * apply Hmin. now left.
      * apply Hmin. now right.
    + destruct (IH b) as (best & Hf & Hin & Hmin). exists best.
      split; [exact Hf|]. split; [simpl in Hin; tauto|].
      intros r [<-|[<-|Hr]].
      * apply Hmin. now left.
      * specialize (Hmin b (or_introl eq_refl)). lia.
      * apply Hmin. now right.
Qed.

Lemma earliest_spec (rows : list TideData.t) :
  match TideService.earliest rows with
  | None => rows = []
  | Some best =>
      In best rows /\ forall r, In r rows -> TideData.timestamp best <= TideData.timestamp r
  end.
Proof.
  unfold TideService.earliest. destruct rows as [|b rows]; [reflexivity|].
  simpl. destruct (earliest_from rows b) as (best & Hf & Hin & Hmin).
  rewrite Hf. now split.
Qed.

Lemma recent_tides_In (timestamp : Z) (tide_data : list TideData.t) (r : TideData.t) :
  In r (TideService.recent_tides timestamp tide_data)
  <-> In r tide_data /\ TideData.timestamp r <= timestamp /\ TideData.is_prediction r = true.
Proof.
  unfold TideService.recent_tides. rewrite filter_In, andb_true_iff, Z.leb_le. tauto.
Qed.

Lemma upcoming_tides_In (timestamp : Z) (tide_data : list TideData.t) (r : TideData.t) :
  In r (TideService.upcoming_tides timestamp tide_data)
  <-> In r tide_data /\ timestamp <= TideData.timestamp r /\ TideData.is_prediction r = true.
Proof.
  unfold TideService.upcoming_tides. rewrite filter_In, andb_true_iff, Z.leb_le. tauto.
Qed.

(** The latest row is the last row of greatest timestamp, the earliest row
    the first row of least timestamp. *)
Lemma latest_from_split (rows : list TideData.t) (b : TideData.t) :
  exists best l1 l2,
    fold_left (fun best r =>
                 match best with
                 | None => Some r
                 | Some b => if TideData.timestamp b <=? TideData.timestamp r
                             then Some r else Some b
                 end) rows (Some b) = Some best
    /\ b :: rows = (l1 ++ best :: l2)%list
    /\ (forall r, In r l1 -> TideData.timestamp r <= TideData.timestamp best)
    /\ (forall r, In r l2 -> TideData.timestamp r < TideData.timestamp best).
Proof.
  revert b. induction rows as [|x rows IH]; intros b; simpl.
  - exists b, [], []. split; [reflexivity|]. split; [reflexivity|]. split; intros r [].
  - destruct (Z.leb_spec (TideData.timestamp b) (TideData.timestamp x)) as [Hle|Hgt].
    + destruct (IH x) as (best & l1 & l2 & Hf & Hsplit & H1 & H2).
      exists best, (b :: l1), l2. split; [exact Hf|]. split; [now rewrite Hsplit|].
      split; [|exact H2]. intros r [<-|Hr]; [|now apply H1].
      assert (Hx : In x (l1 ++ best :: l2)) by (rewrite <- Hsplit; now left).
      apply in_app_iff in Hx as [Hx|[<-|Hx]];
        [specialize (H1 x Hx) | | specialize (H2 x Hx)]; lia.
    + destruct (IH b) as (best & l1 & l2 & Hf & Hsplit & H1 & H2).
      destruct l1 as [|y l1]; simpl in Hsplit; injection Hsplit as <- ->.
      * exists b, [], (x :: l2). split; [exact Hf|]. split; [reflexivity|].
        split; [intros r []|]. intros r [<-|Hr]; [lia | now apply H2].
      * exists best, (b :: x :: l1), l2. split; [exact Hf|]. split; [reflexivity|].
        split; [|exact H2].
        pose proof (H1 b (or_introl eq_refl)) as Hb.
        intros r [<-|[<-|Hr]]; [exact Hb | lia | apply H1; now right].
Qed.

Lemma earliest_from_split (rows : list TideData.t) (b : TideData.t) :
  exists best l1 l2,
    fold_left (fun best r =>
                 match best with
                 | None => Some r
                 | Some b => if TideData.timestamp r <? TideData.timestamp b
                             then Some r else Some b
                 end) rows (Some b) = Some best
    /\ b :: rows = (l1 ++ best :: l2)%list
    /\ (forall r, In r l1 -> TideData.timestamp best < TideData.timestamp r)
    /\ (forall r, In r l2 -> TideData.timestamp best <= TideData.timestamp r).
Proof.
  revert b. induction rows as [|x rows IH]; intros b; simpl.
  - exists b, [], []. split; [reflexivity|]. split; [reflexivity|]. split; intros r [].
  - destruct (Z.ltb_spec (TideData.timestamp x) (TideData.timestamp b)) as [Hlt|Hge].
    + destruct (IH x) as (best & l1 & l2 & Hf & Hsplit & H1 & H2).
      exists best, (b :: l1), l2. split; [exact Hf|]. split; [now rewrite Hsplit|].
      split; [|exact H2]. intros r [<-|Hr]; [|now apply H1].
      assert (Hx : In x (l1 ++ best :: l2)) by (rewrite <- Hsplit; now left).
      apply in_app_iff in Hx as [Hx|[<-|Hx]];
        [specialize (H1 x Hx) | | specialize (H2 x Hx)]; lia.
    + destruct (IH b) as (best & l1 & l2 & Hf & Hsplit & H1 & H2).
      destruct l1 as [|y l1]; simpl in Hsplit; injection Hsplit as <- ->.
      * exists b, [], (x :: l2). split; [exact Hf|]. split; [reflexivity|].
        split; [intros r []|]. intros r [<-|Hr]; [lia | now apply H2].
      * exists best, (b :: x :: l1), l2. split; [exact Hf|]. split; [reflexivity|].
        split; [|exact H2].
        pose proof (H1 b (or_introl eq_refl)) as Hb.
        intros r [<-|[<-|Hr]]; [exact Hb | lia | apply H1; now right].
Qed.

Lemma filter_nothing {A : Type} (p : A -> bool) (l : list A) :
  (forall x, In x l -> p x = false) -> List.filter p l = [].
Proof.
  induction l as [|x l IH]; intros H; simpl; [reflexivity|].
  rewrite (H x (or_introl eq_refl)). apply IH. intros y Hy. apply H. now right.
Qed.

Lemma predictions_at_recent (timestamp : Z) (tide_data : list TideData.t) :
  List.filter (fun r => TideData.timestamp r =? timestamp)
              (TideService.recent_tides timestamp tide_data)
  = predictions_at timestamp tide_data.
Proof.
  unfold TideService.recent_tides, predictions_at.
  induction tide_data as [|r l IH]; simpl; [reflexivity|].
  destruct (Z.leb_spec (TideData.timestamp r) timestamp) as [Hle|Hgt],
           (TideData.is_prediction r), (Z.eqb_spec (TideData.timestamp r) timestamp) as [He|Hne];
    simpl; try lia;
    try (destruct (Z.eqb_spec (TideData.timestamp r) timestamp); try lia);
    now rewrite IH.
Qed.

Lemma predictions_at_upcoming (timestamp : Z) (tide_data : list TideData.t) :
  List.filter (fun r => TideData.timestamp r =? timestamp)
              (TideService.upcoming_tides timestamp tide_data)
  = predictions_at timestamp tide_data.
Proof.
  unfold TideService.upcoming_tides, predictions_at.
  induction tide_data as [|r l IH]; simpl; [reflexivity|].
  destruct (Z.leb_spec timestamp (TideData.timestamp r)) as [Hle|Hgt],
           (TideData.is_prediction r), (Z.eqb_spec (TideData.timestamp r) timestamp) as [He|Hne];
    simpl; try lia;
    try (destruct (Z.eqb_spec (TideData.timestamp r) timestamp); try lia);
    now rewrite IH.
Qed.

(** At an instant with predictions of its own, the latest row before is the
    last of them and the earliest row after is the first of them. *)
Lemma latest_at_prediction (timestamp : Z) (tide_data : list TideData.t)
    (first : TideData.t) (rest : list TideData.t) :
  predictions_at timestamp tide_data = first :: rest ->
  TideService.latest (TideService.recent_tides timestamp tide_data)
  = Some (List.last (first :: rest) first).
Proof.
  intros Hat. rewrite <- Hat, <- predictions_at_recent.
  assert (Hfirst : In first (TideService.recent_tides timestamp tide_data)
                   /\ TideData.timestamp first = timestamp).
  { assert (H : In first (predictions_at timestamp tide_data)) by (rewrite Hat; now left).
    rewrite <- predictions_at_recent in H. apply filter_In in H as [H Ht].
    split; [exact H | now apply Z.eqb_eq]. }
  destruct Hfirst as [Hin Ht].
  assert (Hall : forall r, In r (TideService.recent_tides timestamp tide_data) ->
                           TideData.timestamp r <= timestamp)
    by (intros r Hr; now apply recent_tides_In in Hr).
  unfold TideService.latest.
  destruct (TideService.recent_tides timestamp tide_data) as [|b rows]; [destruct Hin|].
  simpl fold_left.
  destruct (latest_from_split rows b) as (best & l1 & l2 & Hf & Hsplit & H1 & H2).
  rewrite Hf, Hsplit. f_equal.
  assert (Hbest : TideData.timestamp best = timestamp).
  { assert (Hb : In best (b :: rows)) by (rewrite Hsplit; apply in_app_iff; right; now left).
    pose proof (Hall best Hb) as Hle.
    rewrite Hsplit in Hin. apply in_app_iff in Hin as [Hin|[<-|Hin]];
      [specialize (H1 first Hin) | | specialize (H2 first Hin)]; lia. }
  rewrite List.filter_app. simpl List.filter.
  rewrite Hbest, Z.eqb_refl.
  rewrite (filter_nothing _ l2)
    by (intros r Hr; apply Z.eqb_neq; specialize (H2 r Hr); lia).
  now rewrite last_last.
Qed.

Lemma earliest_at_prediction (timestamp : Z) (tide_data : list TideData.t)
    (first : TideData.t) (rest : list TideData.t) :
  predictions_at timestamp tide_data = first :: rest ->
  TideService.earliest (TideService.upcoming_tides timestamp tide_data) = Some first.
Proof.
  intros Hat.
  assert (Hfirst : In first (TideService.upcoming_tides timestamp tide_data)
                   /\ TideData.timestamp first = timestamp).
  { assert (H : In first (predictions_at timestamp tide_data)) by (rewrite Hat; now left).
    rewrite <- predictions_at_upcoming in H. apply filter_In in H as [H Ht].
    split; [exact H | now apply Z.eqb_eq]. }
  destruct Hfirst as [Hin Ht].
  assert (Hall : forall r, In r (TideService.upcoming_tides timestamp tide_data) ->
                           timestamp <= TideData.timestamp r)
    by (intros r Hr; now apply upcoming_tides_In in Hr).
  rewrite <- predictions_at_upcoming in Hat. revert Hat.
  unfold TideService.earliest.
  destruct (TideService.upcoming_tides timestamp tide_data) as [|b rows]; [destruct Hin|].
  simpl fold_left.
  destruct (earliest_from_split rows b) as (best & l1 & l2 & Hf & Hsplit & H1 & H2).
  rewrite Hf, Hsplit.
  assert (Hbest : TideData.timestamp best = timestamp).
  { assert (Hb : In best (b :: rows)) by (rewrite Hsplit; apply in_app_iff; right; now left).
    pose proof (Hall best Hb) as Hle.
    rewrite Hsplit in Hin. apply in_app_iff in Hin as [Hin|[<-|Hin]];
      [specialize (H1 first Hin) | | specialize (H2 first Hin)]; lia. }
  rewrite List.filter_app. simpl List.filter.
  rewrite Hbest, Z.eqb_refl.
  rewrite (filter_nothing _ l1)
    by (intros r Hr; apply Z.eqb_neq; specialize (H1 r Hr); lia).
  simpl. intros H. now injection H as ->.
Qed.

(** The stage is 'unknown' exactly without predictions, and a band
    otherwise; predictions of one height at the instant give 'slack'. *)
Lemma tide_stage_unknown_or_band (db_fails : bool) (tide_data : list TideData.t) (timestamp : Z) :
  let stage := TideService.get_tide_state_for_timestamp db_fails tide_data timestamp in
  ConditionLearning.classify_tide (Some stage) = stage
  /\ (stage = "unknown"
      <-> db_fails = true
          \/ forall r, In r tide_data -> TideData.is_prediction r = false)
  /\ (db_fails = false ->
      forall height,
        (exists r, In r tide_data /\ TideData.is_prediction r = true
                   /\ TideData.timestamp r = timestamp) ->
        (forall r, In r tide_data -> TideData.is_prediction r = true ->
                   TideData.timestamp r = timestamp -> TideData.height r = height) ->
        stage = "slack").
Proof.
  cbv zeta. unfold TideService.get_tide_state_for_timestamp.
  destruct db_fails.
  { split; [reflexivity|]. split; [|discriminate]. split; auto. }
  pose proof (latest_spec (TideService.recent_tides timestamp tide_data)) as Hbefore.
  pose proof (earliest_spec (TideService.upcoming_tides timestamp tide_data)) as Hafter.
  destruct (TideService.latest _) as [before|];
    destruct (TideService.earliest _) as [after|].
  - destruct Hbefore as [Hb Hbmax]. destruct Hafter as [Ha Hamin].
    apply recent_tides_In in Hb as (Hb & Hbt & Hbp).
    apply upcoming_tides_In in Ha as (Ha & Hat & Hap).
    split; [|split].
    + destruct (Rlt_dec _ _); [reflexivity|]. destruct (Rlt_dec _ _); reflexivity.
    + split.
      * destruct (Rlt_dec _ _); [discriminate|]. destruct (Rlt_dec _ _); discriminate.
      * intros [Hf|Hnone]; [discriminate|]. rewrite (Hnone _ Hb) in Hbp. discriminate.
    + intros _ height (r & Hr & Hrp & Hrt) Hheight.
      assert (Hbr : TideData.timestamp r <= TideData.timestamp before)
        by (apply Hbmax, recent_tides_In; repeat split; [assumption|lia|assumption]).
      assert (Har : TideData.timestamp after <= TideData.timestamp r)
        by (apply Hamin, upcoming_tides_In; repeat split; [assumption|lia|assumption]).
      rewrite (Hheight before Hb Hbp) by lia. rewrite (Hheight after Ha Hap) by lia.
      destruct (Rlt_dec _ _); [lra|]. destruct (Rlt_dec _ _); [lra | reflexivity].
  - destruct Hbefore as [Hb _]. apply recent_tides_In in Hb as (Hb & _ & Hbp).
    split; [reflexivity|]. split; [|reflexivity]. split; [discriminate|].
    intros [Hf|Hnone]; [discriminate|]. rewrite (Hnone _ Hb) in Hbp. discriminate.
  - destruct Hafter as [Ha _]. apply upcoming_tides_In in Ha as (Ha & _ & Hap).
    split; [reflexivity|]. split; [|reflexivity]. split; [discriminate|].
    intros [Hf|Hnone]; [discriminate|]. rewrite (Hnone _ Ha) in Hap. discriminate.
  - split; [reflexivity|]. split.
    + split; [|reflexivity]. intros _. right. intros r Hr.
      destruct (TideData.is_prediction r) eqn:Hp; [|reflexivity]. exfalso.
      destruct (Z.le_ge_cases (TideData.timestamp r) timestamp) as [Hle|Hge].
      * assert (Hin : In r (TideService.recent_tides timestamp tide_data))
          by (apply recent_tides_In; auto).
        rewrite Hbefore in Hin. destruct Hin.
      * assert (Hin : In r (TideService.upcoming_tides timestamp tide_data))
          by (apply upcoming_tides_In; auto).
        rewrite Hafter in Hin. destruct Hin.
    + intros _ height (r & Hr & Hrp & Hrt) _. exfalso.
      assert (Hin : In r (TideService.recent_tides timestamp tide_data))
        by (apply recent_tides_In; repeat split; [assumption|lia|assumption]).
      rewrite Hbefore in Hin. destruct Hin.
Qed.

(** X25: the tide stage stored with a catch is 'unknown' - and the catch
    then skipped by both condition learners - exactly when the tide query
    raises or the tide table holds no prediction; every other stage is a
    band of [classify_tide] as it stands.  At an instant that has
    predictions of its own the stage depends on them alone, whatever the
    tide does around it: it is decided by the height of the first of them
    minus the height of the last of them in table order (the earliest row
    after and the latest row before), so that it is 'slack' when they all
    carry one height, as a single prediction does. *)
Theorem tide_stage_of_catch (db_fails : bool) (tide_data : list TideData.t) (timestamp : Z) :
  let stage := TideService.get_tide_state_for_timestamp db_fails tide_data timestamp in
  ConditionLearning.classify_tide (Some stage) = stage
  /\ (stage = "unknown"
      <-> db_fails = true
          \/ forall r, In r tide_data -> TideData.is_prediction r = false)
  /\ (db_fails = false ->
      forall first rest,
        predictions_at timestamp tide_data = first :: rest ->
        stage = stage_of_change (TideData.height first
                                 - TideData.height (List.last (first :: rest) first)))
  /\ (db_fails = false ->
      forall height,
        (exists r, In r tide_data /\ TideData.is_prediction r = true
                   /\ TideData.timestamp r = timestamp) ->
        (forall r, In r tide_data -> TideData.is_prediction r = true ->
                   TideData.timestamp r = timestamp -> TideData.height r = height) ->
        stage = "slack").
Proof.
  cbv zeta.
  destruct (tide_stage_unknown_or_band db_fails tide_data timestamp) as (H1 & H2 & H3).
  split; [exact H1|]. split; [exact H2|]. split; [|exact H3].
  intros -> first rest Hat. unfold TideService.get_tide_state_for_timestamp.
  rewrite (latest_at_prediction _ _ _ _ Hat), (earliest_at_prediction _ _ _ _ Hat).
  reflexivity.
Qed.


(** ** What one learning update writes *)

Lemma update_rig_effect_shape (fails : bool) (now : Z) (species zone_id : string)
    (rig_type : option string) (db : DB) :
  fst (RigLearning.update_rig_effect fails now species zone_id rig_type db) = db
  \/ exists rig row,
       rig_type = Some rig
       /\ fst (RigLearning.update_rig_effect fails now species zone_id rig_type db)
          = set_rig_effects db
              (store (RigLearning.same_rig species zone_id rig) row (rig_effects db))
       /\ RigLearning.same_rig species zone_id rig row = true
       /\ rig_effect_ok row
       /\ RigEffect.success_count row = prior_count species zone_id rig (rig_effects db) + 1.
Proof.
  unfold RigLearning.update_rig_effect.
  destruct rig_type as [rig|]; [|now left].
  destruct (_ || _)%bool; [now left|].
  destruct fails; [now left|].
  destruct (RigLearning.rig_effect_upsert _ _ _ _ _) as [[tbl row]|e] eqn:Hup; [|now left].
  right. exists rig, row.
  destruct (rig_effect_upsert_ok _ _ _ _ _ _ _ Hup) as [Hrow _].
  unfold RigLearning.rig_effect_upsert, prior_count in *.
  destruct (Py.math_log _); [|discriminate]. injection Hup as <- <-.
  split; [reflexivity|]. split; [reflexivity|]. split; [|split; [exact Hrow|]].
  - destruct (find _ _) as [x|] eqn:Hfind; simpl.
    + exact (proj2 (find_some _ _ Hfind)).
    + apply same_rig_refl.
  - destruct (find _ _); reflexivity.
Qed.

Lemma update_zone_condition_effect_shape (fails : bool) (species zone_id : string)
    (c : ConditionLearning.conditions) (m : R) (db : DB) :
  let key :=
    ConditionLearning.same_zone_condition species zone_id
      (ConditionLearning.classify_tide (ConditionLearning.cond_tide_stage c))
      (ConditionLearning.classify_clarity (ConditionLearning.cond_clarity c))
      (ConditionLearning.classify_wind (ConditionLearning.cond_wind_direction c) species)
      (ConditionLearning.classify_current (ConditionLearning.cond_current_speed c)) in
  fst (ConditionLearning.update_zone_condition_effect fails species zone_id c m db) = db
  \/ exists row,
       fst (ConditionLearning.update_zone_condition_effect fails species zone_id c m db)
       = set_zone_condition_effects db (store key row (zone_condition_effects db))
       /\ key row = true
       /\ zone_condition_ok row
       /\ ZoneConditionEffect.success_count row
          = (prior_zone_count species zone_id c (zone_condition_effects db) + m)%R.
Proof.
  intros key. unfold ConditionLearning.update_zone_condition_effect. cbv zeta.
  destruct (String.eqb _ "unknown"); [now left|].
  destruct fails; [now left|].
  destruct (ConditionLearning.zone_condition_upsert _ _ _ _ _ _ _ _)
    as [[tbl row]|e] eqn:Hup; [|now left].
  right. exists row.
  destruct (zone_condition_upsert_ok _ _ _ _ _ _ _ _ _ _ Hup) as [Hrow _].
  unfold ConditionLearning.zone_condition_upsert, prior_zone_count in *. fold key in Hup |- *.
  destruct (Py.math_log _); [|discriminate]. injection Hup as <- <-.
  split; [reflexivity|]. split; [|split; [exact Hrow|]].
  - destruct (find _ _) as [x|] eqn:Hfind; simpl.
    + exact (proj2 (find_some _ _ Hfind)).
    + apply same_zone_condition_refl.
  - destruct (find _ _); simpl; lra.
Qed.

Lemma update_rig_condition_effect_shape (fails : bool) (species : string)
    (rig_type : option string) (c : ConditionLearning.conditions) (m : R) (db : DB) :
  fst (ConditionLearning.update_rig_condition_effect fails species rig_type c m db) = db
  \/ exists rig row,
       let key :=
         ConditionLearning.same_rig_condition species rig
           (ConditionLearning.classify_tide (ConditionLearning.cond_tide_stage c))
           (ConditionLearning.classify_clarity (ConditionLearning.cond_clarity c)) in
       rig_type = Some rig
       /\ fst (ConditionLearning.update_rig_condition_effect fails species rig_type c m db)
          = set_rig_condition_effects db (store key row (rig_condition_effects db))
       /\ key row = true
       /\ rig_condition_ok row
       /\ RigConditionEffect.success_count row
          = (prior_rig_condition_count species rig c (rig_condition_effects db) + m)%R.
Proof.
  unfold ConditionLearning.update_rig_condition_effect.
  destruct rig_type as [rig|]; [|now left].
  destruct (_ || _)%bool; [now left|]. cbv zeta.
  destruct (String.eqb _ "unknown"); [now left|].
  destruct fails; [now left|].
  destruct (ConditionLearning.rig_condition_upsert _ _ _ _ _ _)
    as [[tbl row]|e] eqn:Hup; [|now left].
  right. exists rig, row.
  destruct (rig_condition_upsert_ok _ _ _ _ _ _ _ _ Hup) as [Hrow _].
  unfold ConditionLearning.rig_condition_upsert, prior_rig_condition_count in *.
  destruct (Py.math_log _); [|discriminate]. injection Hup as <- <-.
  split; [reflexivity|]. split; [reflexivity|]. split; [|split; [exact Hrow|]].
  - destruct (find _ _) as [x|] eqn:Hfind; simpl.
    + exact (proj2 (find_some _ _ Hfind)).
    + apply same_rig_condition_refl.
  - destruct (find _ _); simpl; lra.
Qed.

(** ** Catches teach clean water only *)

Lemma classify_wind_neutral (wind_direction : option string) (species : string) :
  ConditionLearning.classify_wind wind_direction species = "neutral".
Proof.
  unfold ConditionLearning.classify_wind. now destruct (negb _).
Qed.

Lemma learned_clean_frames {A : Type} (m : M A) :
  frames (fun d => (zone_condition_effects d, rig_condition_effects d)) m ->
  preserves learned_clean m.
Proof.
  intros Hf db H. specialize (Hf db). injection Hf as H1 H2.
  unfold learned_clean. now rewrite H1, H2.
Qed.

Lemma update_zone_condition_effect_clean (fails : bool) (species zone_id : string)
    (c : ConditionLearning.conditions) (m : R) :
  ConditionLearning.classify_clarity (ConditionLearning.cond_clarity c) = "clean" ->
  preserves learned_clean
    (ConditionLearning.update_zone_condition_effect fails species zone_id c m).
Proof.
  intros Hclean db [Hz Hr].
  destruct (update_zone_condition_effect_shape fails species zone_id c m db)
    as [->|(row & -> & Hkey & _)]; [now split|].
  split; [|exact Hr]. cbn [zone_condition_effects set_zone_condition_effects].
  apply Forall_store; [|exact Hz].
  apply same_zone_condition_key in Hkey. unfold zone_condition_key in Hkey.
  injection Hkey as _ _ _ Hc Hw _. rewrite Hc, Hw, Hclean, classify_wind_neutral. now split.
Qed.

Lemma update_rig_condition_effect_clean (fails : bool) (species : string)
    (rig_type : option string) (c : ConditionLearning.conditions) (m : R) :
  ConditionLearning.classify_clarity (ConditionLearning.cond_clarity c) = "clean" ->
  preserves learned_clean
    (ConditionLearning.update_rig_condition_effect fails species rig_type c m).
Proof.
  intros Hclean db [Hz Hr].
  destruct (update_rig_condition_effect_shape fails species rig_type c m db)
    as [->|(rig & row & _ & -> & Hkey & _)]; [now split|].
  split; [exact Hz|]. cbn [rig_condition_effects set_rig_condition_effects].
  apply Forall_store; [|exact Hr].
  apply same_rig_condition_key in Hkey. unfold rig_condition_key in Hkey.
  injection Hkey as _ _ _ Hc. now rewrite Hc, Hclean.
Qed.

Lemma event_triggers_clean (env : Env) (catch : Catch.t) (rig_type : option string) :
  preserves learned_clean (Main.event_triggers env catch rig_type).
Proof.
  unfold Main.event_triggers. cbv zeta.
  apply preserves_bind; [|intros _; apply preserves_bind; [|intros _;
    apply preserves_bind; [|intros _; apply preserves_bind; [|intros _]]]].
  - apply preserves_when, preserves_ignore, learned_clean_frames.
    apply update_rig_effect_frames. reflexivity.
  - apply preserves_ignore, update_zone_condition_effect_clean. reflexivity.
  - apply preserves_when, preserves_ignore, update_rig_condition_effect_clean. reflexivity.
  - apply preserves_ignore, learned_clean_frames.
    apply recalculate_bite_score_frames. reflexivity.
  - apply preserves_ignore, learned_clean_frames.
    apply update_species_zone_tip_frames. reflexivity.
Qed.

(** X26: the clarity handed to the learners is always the default 'clean'
    and the wind band is always 'neutral': logging a catch keeps every row
    of the two condition tables under clarity 'clean' (and wind 'neutral'),
    so that the learned weight read for stained or muddy water is 0,
    whatever was caught in such water. *)
Theorem catches_teach_clean_water_only (env : Env) (catch_data : Main.CatchCreate)
    (db : DB) :
  learned_clean db ->
  let db' := fst (Main.log_catch env catch_data db) in
  learned_clean db'
  /\ forall species zone_id rig_type c,
       ConditionLearning.classify_clarity (ConditionLearning.cond_clarity c) <> "clean" ->
       ConditionLearning.get_zone_condition_weight db' species zone_id c = 0%R
       /\ ConditionLearning.get_rig_condition_weight db' species rig_type c = 0%R.
Proof.
  intros Hclean db'.
  assert (Hclean' : learned_clean db').
  { subst db'. unfold Main.log_catch.
    destruct (db_fails env CommitStep _ _); [exact Hclean|].
    match goal with
    | |- context [try_except_log ?m ?d] =>
        pose proof (preserves_try_except_log learned_clean m
                      (event_triggers_clean _ _ _) d Hclean) as Hd;
        destruct (try_except_log m d) as [db2 r]
    end.
    exact Hd. }
  split; [exact Hclean'|].
  intros species zone_id rig_type c Hc. destruct Hclean' as [Hz Hr]. split.
  - unfold ConditionLearning.get_zone_condition_weight. cbv zeta.
    destruct (String.eqb _ "unknown"); [reflexivity|].
    destruct (find _ (zone_condition_effects db')) as [r|] eqn:Hfind; [|reflexivity].
    apply find_some in Hfind as [Hin Hkey]. exfalso. apply Hc.
    apply same_zone_condition_key in Hkey. unfold zone_condition_key in Hkey.
    injection Hkey as _ _ _ Hband _ _. rewrite <- Hband.
    rewrite Forall_forall in Hz. apply list_elem_of_In in Hin. now apply Hz in Hin.
  - unfold ConditionLearning.get_rig_condition_weight.
    destruct (negb _); [reflexivity|]. cbv zeta.
    destruct (String.eqb _ "unknown"); [reflexivity|].
    destruct (find _ (rig_condition_effects db')) as [r|] eqn:Hfind; [|reflexivity].
    apply find_some in Hfind as [Hin Hkey]. exfalso. apply Hc.
    apply same_rig_condition_key in Hkey. unfold rig_condition_key in Hkey.
    injection Hkey as _ _ _ Hband. rewrite <- Hband.
    rewrite Forall_forall in Hr. apply list_elem_of_In in Hin. now apply Hr in Hin.
Qed.

(** The theorem at the first crab-trap catch. *)
Lemma catches_teach_clean_water_only_witness :
  let db' := fst (Main.log_catch quiet_env crab_trap_catch empty_db) in
  learned_clean db'
  /\ forall species zone_id rig_type c,
       ConditionLearning.classify_clarity (ConditionLearning.cond_clarity c) <> "clean" ->
       ConditionLearning.get_zone_condition_weight db' species zone_id c = 0%R
       /\ ConditionLearning.get_rig_condition_weight db' species rig_type c = 0%R.
Proof.
  apply (catches_teach_clean_water_only quiet_env crab_trap_catch empty_db).
  split; constructor.
Defined.

(** ** The database stays well formed *)

Lemma prior_count_nonneg (species zone_id rig : string) (tbl : list RigEffect.t) :
  Forall (fun r => 0 <= RigEffect.success_count r) tbl ->
  0 <= prior_count species zone_id rig tbl.
Proof.
  intros Hpos. unfold prior_count. destruct (find _ tbl) as [r|] eqn:Hfind; [|lia].
  rewrite Forall_forall in Hpos. apply Hpos, list_elem_of_In.
  exact (proj1 (find_some _ _ Hfind)).
Qed.

Lemma learning_sound_frames {A : Type} (m : M A) :
  frames learning_tables m -> preserves learning_sound m.
Proof.
  intros Hf db H. specialize (Hf db). unfold learning_tables in Hf.
  injection Hf as H1 H2 H3.
  unfold learning_sound, learning_keys_unique, learning_weights_ok, counts_nonneg in *.
  now rewrite H1, H2, H3.
Qed.

Lemma cache_sound_frames {A : Type} (m : M A) :
  frames bite_scores m -> preserves cache_sound m.
Proof.
  intros Hf db H. specialize (Hf db). unfold cache_sound in *. now rewrite Hf.
Qed.

Lemma tips_unique_frames {A : Type} (m : M A) :
  frames species_zone_tips m -> preserves tips_unique m.
Proof.
  intros Hf db H. specialize (Hf db). unfold tips_unique in *. now rewrite Hf.
Qed.

Lemma catch_ids_unique_frames {A : Type} (m : M A) :
  frames catches m -> preserves catch_ids_unique m.
Proof.
  intros Hf db H. specialize (Hf db). unfold catch_ids_unique in *. now rewrite Hf.
Qed.

Lemma update_rig_effect_sound (fails : bool) (now : Z) (species zone_id : string)
    (rig_type : option string) :
  preserves learning_sound (RigLearning.update_rig_effect fails now species zone_id rig_type).
Proof.
  intros db H.
  destruct (update_rig_effect_shape fails now species zone_id rig_type db)
    as [->|(rig & row & _ & -> & Hkey & Hok & Hcount)]; [exact H|].
  destruct H as ((K1 & K2 & K3) & (W1 & W2 & W3) & (C1 & C2 & C3)).
  unfold learning_sound, learning_keys_unique, learning_weights_ok, counts_nonneg.
  cbn [rig_effects zone_condition_effects rig_condition_effects set_rig_effects].
  repeat split; try assumption.
  - apply (NoDup_store rig_key _ (species, zone_id, rig)); [apply same_rig_key| |exact K1].
    now apply same_rig_key.
  - now apply Forall_store.
  - apply Forall_store; [|exact C1]. rewrite Hcount.
    pose proof (prior_count_nonneg species zone_id rig _ C1). lia.
Qed.

Lemma update_zone_condition_effect_sound (fails : bool) (species zone_id : string)
    (c : ConditionLearning.conditions) (m : R) :
  (0 <= m)%R ->
  preserves learning_sound
    (ConditionLearning.update_zone_condition_effect fails species zone_id c m).
Proof.
  intros Hm db H.
  destruct (update_zone_condition_effect_shape fails species zone_id c m db)
    as [->|(row & -> & Hkey & Hok & Hcount)]; [exact H|].
  destruct H as ((K1 & K2 & K3) & (W1 & W2 & W3) & (C1 & C2 & C3)).
  unfold learning_sound, learning_keys_unique, learning_weights_ok, counts_nonneg.
  cbn [rig_effects zone_condition_effects rig_condition_effects set_zone_condition_effects].
  repeat split; try assumption.
  - eapply (NoDup_store zone_condition_key); [apply same_zone_condition_key| |exact K2].
    now apply same_zone_condition_key.
  - now apply Forall_store.
  - apply Forall_store; [|exact C2]. rewrite Hcount.
    pose proof (prior_zone_count_nonneg species zone_id c _ C2). lra.
Qed.

Lemma update_rig_condition_effect_sound (fails : bool) (species : string)
    (rig_type : option string) (c : ConditionLearning.conditions) (m : R) :
  (0 <= m)%R ->
  preserves learning_sound
    (ConditionLearning.update_rig_condition_effect fails species rig_type c m).
Proof.
  intros Hm db H.
  destruct (update_rig_condition_effect_shape fails species rig_type c m db)
    as [->|(rig & row & _ & -> & Hkey & Hok & Hcount)]; [exact H|].
  destruct H as ((K1 & K2 & K3) & (W1 & W2 & W3) & (C1 & C2 & C3)).
  unfold learning_sound, learning_keys_unique, learning_weights_ok, counts_nonneg.
  cbn [rig_effects zone_condition_effects rig_condition_effects set_rig_condition_effects].
  repeat split; try assumption.
  - eapply (NoDup_store rig_condition_key); [apply same_rig_condition_key| |exact K3].
    now apply same_rig_condition_key.
  - now apply Forall_store.
  - apply Forall_store; [|exact C3]. rewrite Hcount.
    pose proof (prior_rig_condition_count_nonneg species rig c _ C3). lra.
Qed.

Lemma recalculate_bite_score_sound (fails : bool) (now : Z)
    (raw : DB -> string -> string -> R) (species zone_id : string) (force_recalc : bool) :
  preserves cache_sound
    (ScoreCache.recalculate_bite_score fails now raw species zone_id force_recalc).
Proof.
  intros db [Hnd Hrange]. destruct fails; [now split|].
  destruct (recalculate_bite_score_writes now raw species zone_id force_recalc db)
    as (row & Hrec & Hkey & Hscore & _).
  rewrite Hrec. cbn [fst]. unfold cache_sound. cbn [bite_scores set_bite_scores]. split.
  - apply (NoDup_store bite_key _ (species, zone_id)); [apply same_pair_key| |exact Hnd].
    now apply same_pair_key.
  - apply Forall_store; [|exact Hrange]. rewrite Hscore. apply smoothed_score_range.
Qed.

Lemma update_species_zone_tip_unique (fails : bool) (now : Z)
    (sentence : DB -> string -> string -> string) (species zone_id : string) :
  preserves tips_unique (Tips.update_species_zone_tip fails now sentence species zone_id).
Proof.
  intros db Hnd. unfold Tips.update_species_zone_tip, tips_unique in *.
  destruct fails; [exact Hnd|].
  destruct (negb _); cbn [fst species_zone_tips set_species_zone_tips].
  - now apply NoDup_delete_first.
  - apply (NoDup_store tip_key _ (species, zone_id)); [apply same_tip_key| |exact Hnd].
    apply same_tip_key.
    destruct (find _ (species_zone_tips db)) as [t|] eqn:Hfind.
    + exact (proj2 (find_some _ _ Hfind)).
    + apply same_tip_refl.
Qed.

Lemma well_formed_parts {A : Type} (m : M A) :
  preserves learning_sound m -> preserves cache_sound m ->
  preserves tips_unique m -> preserves catch_ids_unique m ->
  preserves well_formed m.
Proof.
  intros H1 H2 H3 H4 db (L & C & T & I).
  split; [apply H1 | split; [apply H2 | split; [apply H3 | apply H4]]]; assumption.
Qed.

Lemma update_rig_effect_well_formed (fails : bool) (now : Z) (species zone_id : string)
    (rig_type : option string) :
  preserves well_formed (RigLearning.update_rig_effect fails now species zone_id rig_type).
Proof.
  apply well_formed_parts.
  - apply update_rig_effect_sound.
  - apply cache_sound_frames, update_rig_effect_frames. reflexivity.
  - apply tips_unique_frames, update_rig_effect_frames. reflexivity.
  - apply catch_ids_unique_frames, update_rig_effect_frames. reflexivity.
Qed.

Lemma update_zone_condition_effect_well_formed (fails : bool) (species zone_id : string)
    (c : ConditionLearning.conditions) (m : R) :
  (0 <= m)%R ->
  preserves well_formed
    (ConditionLearning.update_zone_condition_effect fails species zone_id c m).
Proof.
  intros Hm. apply well_formed_parts.
  - now apply update_zone_condition_effect_sound.
  - apply cache_sound_frames, update_zone_condition_effect_frames. reflexivity.
  - apply tips_unique_frames, update_zone_condition_effect_frames. reflexivity.
  - apply catch_ids_unique_frames, update_zone_condition_effect_frames. reflexivity.
Qed.

Lemma update_rig_condition_effect_well_formed (fails : bool) (species : string)
    (rig_type : option string) (c : ConditionLearning.conditions) (m : R) :
  (0 <= m)%R ->
  preserves well_formed
    (ConditionLearning.update_rig_condition_effect fails species rig_type c m).
Proof.
  intros Hm. apply well_formed_parts.
  - now apply update_rig_condition_effect_sound.
  - apply cache_sound_frames, update_rig_condition_effect_frames. reflexivity.
  - apply tips_unique_frames, update_rig_condition_effect_frames. reflexivity.
  - apply catch_ids_unique_frames, update_rig_condition_effect_frames. reflexivity.
Qed.

Lemma recalculate_bite_score_well_formed (fails : bool) (now : Z)
    (raw : DB -> string -> string -> R) (species zone_id : string) (force_recalc : bool) :
  preserves well_formed
    (ScoreCache.recalculate_bite_score fails now raw species zone_id force_recalc).
Proof.
  apply well_formed_parts.
  - apply learning_sound_frames, recalculate_bite_score_frames. reflexivity.
  - apply recalculate_bite_score_sound.
  - apply tips_unique_frames, recalculate_bite_score_frames. reflexivity.
  - apply catch_ids_unique_frames, recalculate_bite_score_frames. reflexivity.
Qed.

Lemma update_species_zone_tip_well_formed (fails : bool) (now : Z)
    (sentence : DB -> string -> string -> string) (species zone_id : string) :
  preserves well_formed (Tips.update_species_zone_tip fails now sentence species zone_id).
Proof.
  apply well_formed_parts.
  - apply learning_sound_frames, update_species_zone_tip_frames. reflexivity.
  - apply cache_sound_frames, update_species_zone_tip_frames. reflexivity.
  - apply update_species_zone_tip_unique.
  - apply catch_ids_unique_frames, update_species_zone_tip_frames. reflexivity.
Qed.

Lemma event_triggers_well_formed (env : Env) (catch : Catch.t) (rig_type : option string) :
  preserves well_formed (Main.event_triggers env catch rig_type).
Proof.
  unfold Main.event_triggers. cbv zeta.
  assert (Hm : (0 <= (if Main.is_crab_trap (Catch.species catch) rig_type
                      then 0.15 else 1))%R)
    by (destruct (Main.is_crab_trap _ _); lra).
  apply preserves_bind; [|intros _; apply preserves_bind; [|intros _;
    apply preserves_bind; [|intros _; apply preserves_bind; [|intros _]]]].
  - apply preserves_when, preserves_ignore, update_rig_effect_well_formed.
  - now apply preserves_ignore, update_zone_condition_effect_well_formed.
  - now apply preserves_when, preserves_ignore, update_rig_condition_effect_well_formed.
  - apply preserves_ignore, recalculate_bite_score_well_formed.
  - apply preserves_ignore, update_species_zone_tip_well_formed.
Qed.

Lemma log_catch_well_formed (env : Env) (catch_data : Main.CatchCreate) (db : DB) :
  well_formed db -> well_formed (fst (Main.log_catch env catch_data db)).
Proof.
  intros H. unfold Main.log_catch.
  destruct (db_fails env CommitStep _ _); [exact H|].
  match goal with
  | |- context [try_except_log ?m (set_catches db (catches db ++ [?c])%list)] =>
      assert (H1 : well_formed (set_catches db (catches db ++ [c])));
      [|pose proof (preserves_try_except_log well_formed m
                      (event_triggers_well_formed _ _ _) _ H1) as Hd;
        destruct (try_except_log m (set_catches db (catches db ++ [c]))) as [db2 r];
        exact Hd]
  end.
  destruct H as (L & C & T & I). split; [exact L|]. split; [exact C|]. split; [exact T|].
  unfold catch_ids_unique in *. cbn [catches set_catches]. rewrite map_app.
  apply NoDup_app. split; [exact I|]. split; [|apply NoDup_singleton].
  intros x Hx Hx'. apply list_elem_of_In in Hx, Hx'.
  destruct Hx' as [<-|[]]. apply in_map_iff in Hx as (c' & Hid & Hc').
  pose proof (next_id_above (catches db)) as Habove. rewrite Forall_forall in Habove.
  apply list_elem_of_In, Habove in Hc'. simpl in Hid. lia.
Qed.

Lemma recalc_prey_well_formed (env : Env) (zone : string) (l : list string) (d : DB) :
  well_formed d -> well_formed (fold_left (Main.recalc_prey env zone) l d).
Proof.
  revert d. induction l as [|prey l IH]; intros d H; [exact H|].
  simpl. apply IH. unfold Main.recalc_prey.
  apply preserves_try_except_log; [apply recalculate_bite_score_well_formed | exact H].
Qed.

Lemma recalc_pair_well_formed (env : Env) (p : string * string) :
  preserves well_formed (Scheduler.recalc_pair env p).
Proof.
  destruct p as [sp zone]. unfold Scheduler.recalc_pair.
  apply preserves_try_except_log, preserves_bind; [|intros _].
  - apply preserves_ignore, recalculate_bite_score_well_formed.
  - apply preserves_ignore, update_species_zone_tip_well_formed.
Qed.

(** X27: every endpoint and the periodic job keep the database well
    formed, whichever of their steps raise: each learning table, the score
    cache and the tip table hold one row per key, every learned weight is
    the capped logarithm of its count, no count is negative, every cached
    score lies within [0, 100], and the catch ids are distinct. *)
Theorem well_formed_kept (env : Env) (db : DB) :
  well_formed db ->
  (forall catch_data, well_formed (fst (Main.log_catch env catch_data db)))
  /\ (forall predator_data, well_formed (fst (Main.log_predator env predator_data db)))
  /\ (forall db_fails catch_id, well_formed (fst (Main.delete_catch db_fails catch_id db)))
  /\ (forall species zone_id,
        well_formed (fst (Main.get_zone_bite_scores env species zone_id db)))
  /\ well_formed (Scheduler.periodic_score_recalculation env db).
Proof.
  intros H. split; [|split; [|split; [|split]]].
  - intros catch_data. now apply log_catch_well_formed.
  - intros predator_data. unfold Main.log_predator.
    destruct (db_fails env CommitStep _ _); [exact H|]. cbv zeta. cbn [fst].
    apply recalc_prey_well_formed. exact H.
  - intros fails catch_id. unfold Main.delete_catch.
    destruct fails; [exact H|]. destruct (find _ (catches db)); [|exact H].
    destruct H as (L & C & T & I). split; [exact L|]. split; [exact C|].
    split; [exact T|]. unfold catch_ids_unique in *. cbn [fst catches set_catches].
    now apply NoDup_delete_first.
  - intros species zone_id. unfold Main.get_zone_bite_scores.
    destruct (ScoreCache.get_cached_bite_score db species zone_id); [exact H|].
    pose proof (recalculate_bite_score_well_formed
                  (db_fails env BiteScoreStep species zone_id) (utcnow env)
                  (calculate_zone_bite_score env) species zone_id false db H) as Hd.
    destruct (ScoreCache.recalculate_bite_score _ _ _ _ _ _ db) as [db' [row|e]];
      [|exact Hd].
    destruct (ScoreCache.get_cached_bite_score db' species zone_id); exact Hd.
  - unfold Scheduler.periodic_score_recalculation.
    generalize (elements (Scheduler.pairs_to_recalc (utcnow env) db)). intros l.
    revert db H. induction l as [|p l IH]; intros db H; [exact H|].
    simpl. apply IH. now apply recalc_pair_well_formed.
Qed.

(** The theorem on a database with a row in every table it speaks of. *)
Lemma well_formed_kept_witness :
  (forall catch_data, well_formed (fst (Main.log_catch quiet_env catch_data db_learned)))
  /\ (forall predator_data,
        well_formed (fst (Main.log_predator quiet_env predator_data db_learned)))
  /\ (forall db_fails catch_id,
        well_formed (fst (Main.delete_catch db_fails catch_id db_learned)))
  /\ (forall species zone_id,
        well_formed (fst (Main.get_zone_bite_scores quiet_env species zone_id db_learned)))
  /\ well_formed (Scheduler.periodic_score_recalculation quiet_env db_learned).
Proof.
  apply (well_formed_kept quiet_env db_learned).
  unfold well_formed, learning_sound, learning_keys_unique, learning_weights_ok,
    counts_nonneg, cache_sound, tips_unique, catch_ids_unique.
  simpl.
  repeat match goal with
         | |- _ /\ _ => split
         | |- NoDup [_] => apply NoDup_singleton
         | |- Forall _ [_] => constructor; [|constructor]
         end;
    try reflexivity; simpl; try lia; lra.
Defined.
